(** * Session and settings storage adapters over Durable Objects

    A shallow embedding of the storage adapters of the Shopify app template:
    the [ShopifyStorage] Durable Object ([run] / [first] / [all]), the
    per-shop session adapter [shopifySessionDb] and the settings service
    ([loadDatabaseSettings], [updateDatabaseSetting], ...).

    JavaScript strings are represented by [string] (a sequence of code
    units), asynchronous functions by computations in a state-and-exception
    monad over the [World] that holds every Durable Object instance. *)

From Stdlib Require Import String Ascii List ZArith Bool Lia.
From stdpp Require Import gmap strings.
Import ListNotations.

Local Open Scope string_scope.
Local Open Scope Z_scope.

(* ===================================================================== *)
(** * Part I: the embedding                                               *)
(* ===================================================================== *)

(** ** JavaScript string primitives used by the adapters *)

(** [s.includes(needle)] *)
Fixpoint includes (needle s : string) : bool :=
  if String.prefix needle s then true
  else match s with
       | EmptyString => false
       | String _ s' => includes needle s'
       end.

(** [s.split(sep)] for a one-character separator: the result is never
    empty, and [split_on sep ""] is the one-element list holding [""]. *)
Fixpoint split_on (sep : ascii) (s : string) : list string :=
  match s with
  | EmptyString => [EmptyString]
  | String c s' =>
      if Ascii.eqb c sep then EmptyString :: split_on sep s'
      else match split_on sep s' with
           | seg :: segs => String c seg :: segs
           | [] => [String c EmptyString]
           end
  end.

Definition underscore : ascii := "_"%char.

(** Membership in the character class [[a-zA-Z0-9-]]. *)
Definition in_name_class (c : ascii) : bool :=
  let n := nat_of_ascii c in
  ((97 <=? n)%nat && (n <=? 122)%nat)
  || ((65 <=? n)%nat && (n <=? 90)%nat)
  || ((48 <=? n)%nat && (n <=? 57)%nat)
  || (n =? 45)%nat.

(** [shop.replace(/[^a-zA-Z0-9-]/g, '-')] *)
Fixpoint replace_outside_name_class (s : string) : string :=
  match s with
  | EmptyString => EmptyString
  | String c s' =>
      String (if in_name_class c then c else "-"%char)
             (replace_outside_name_class s')
  end.

(** The strings on which the replacement changes nothing. *)
Fixpoint name_class_only (s : string) : bool :=
  match s with
  | EmptyString => true
  | String c s' => in_name_class c && name_class_only s'
  end.

(** JavaScript truthiness of a string, and of a possibly absent string. *)
Definition truthy_string (s : string) : bool := negb (String.eqb s "").

Definition truthy_opt_string (o : option string) : bool :=
  match o with
  | Some s => truthy_string s
  | None => false
  end.

(** [e || fallback] for a possibly absent string [e]. *)
Definition or_else (e : option string) (fallback : string) : string :=
  match e with
  | Some s => if truthy_string s then s else fallback
  | None => fallback
  end.

(** ** Instance router (session side) *)

(** [getShopifySessionInstanceName] *)
Definition getShopifySessionInstanceName (shop : string) : string :=
  let cleanShop := replace_outside_name_class shop in
  "shopify-sessions-" +:+ cleanShop.

(** [shopifySessionDb.extractShopFromSessionId]: [None] is [null].  No
    operation of the body raises, so the surrounding [try] is transparent. *)
Definition extractShopFromSessionId (sessionId : string) : option string :=
  let parts := split_on underscore sessionId in
  if (2 <=? length parts)%nat then
    let shopPart := nth 1 parts "" in
    let shopPart :=
      if includes "_" shopPart
      then nth 0 (split_on underscore shopPart) ""
      else shopPart in
    Some shopPart
  else None.

(** The rule in the words of the specification: the second [_]-delimited
    segment, cut at its own first [_], when there are at least two
    segments. *)
Fixpoint before_underscore (s : string) : string :=
  match s with
  | EmptyString => EmptyString
  | String c s' =>
      if Ascii.eqb c underscore then EmptyString
      else String c (before_underscore s')
  end.

Definition extractShop_spec (sessionId : string) : option string :=
  match split_on underscore sessionId with
  | _ :: second :: _ => Some (before_underscore second)
  | _ => None
  end.

(** The simpler function of the refinement: no truncation at all. *)
Definition extractShop_simple (sessionId : string) : option string :=
  match split_on underscore sessionId with
  | _ :: second :: _ => Some second
  | _ => None
  end.

(** ** Completions, rows and tables *)

(** The outcome of a JavaScript computation: a value, or a raised [Error]
    carrying its [message]. *)
Inductive Completion (A : Type) : Type :=
| Normal (a : A)
| Throw (message : string).
Arguments Normal {A} a.
Arguments Throw {A} message.

(** A row of the sessions table
    ([id TEXT PRIMARY KEY, shop TEXT NOT NULL, state TEXT, isOnline INTEGER,
      scope TEXT, accessToken TEXT, expires INTEGER, onlineAccessInfo TEXT]);
    the two columns the adapter may bind to [null] are optional. *)
Module SessionRow.
Record t : Type := mk {
  id : string;
  shop : string;
  state : string;
  isOnline : Z;
  scope : string;
  accessToken : string;
  expires : option Z;
  onlineAccessInfo : option string
}.
End SessionRow.

(** A row of a settings table
    ([key TEXT PRIMARY KEY, value TEXT, updated_at INTEGER]). *)
Module Setting.
Record t : Type := mk {
  key : string;
  value : string;
  updated_at : Z
}.
End Setting.

(** A table of one Durable Object's SQLite storage, by the schema it was
    created with. *)
Inductive Table : Type :=
| SessionsTable (rows : list SessionRow.t)
| SettingsTable (rows : list Setting.t).

Inductive Schema : Type :=
| SessionsSchema
| SettingsSchema.

Definition empty_table (schema : Schema) : Table :=
  match schema with
  | SessionsSchema => SessionsTable []
  | SettingsSchema => SettingsTable []
  end.

(** What [sql.exec] hands back: the rows and the two counters. *)
Record Cursor (R : Type) : Type := mkCursor {
  toArray : list R;
  rowsRead : nat;
  rowsWritten : nat
}.
Arguments mkCursor {R} toArray rowsRead rowsWritten.
Arguments toArray {R} c.
Arguments rowsRead {R} c.
Arguments rowsWritten {R} c.

(** ** The statements issued by the adapters *)

(** Statements of the session adapter, with their bound parameters. *)
Inductive SessionStmt : Type :=
| CreateSessionsTable (table : string)
    (* CREATE TABLE IF NOT EXISTS table (sessions schema) *)
| InsertOrReplaceSession (table : string) (row : SessionRow.t)
    (* INSERT OR REPLACE INTO table (id, ..., onlineAccessInfo) VALUES (?, ..., ?) *)
| SelectSessionById (table id : string)
    (* SELECT * FROM table WHERE id = ? *)
| DeleteSessionById (table id : string)
    (* DELETE FROM table WHERE id = ? *)
| SelectSessionsByShop (table shop : string).
    (* SELECT * FROM table WHERE shop = ? *)

(** Statements of the settings service. *)
Inductive SettingStmt : Type :=
| CreateTableIfNotExists (table : string) (schema : Schema)
    (* CREATE TABLE IF NOT EXISTS table (schema) *)
| SelectSettingByKey (table key : string)
    (* SELECT * FROM table WHERE key = ? *)
| SelectAllSettings (table : string)
    (* SELECT * FROM table ORDER BY updated_at DESC *)
| InsertOrReplaceSetting (table key value : string) (updated_at : Z)
    (* INSERT OR REPLACE INTO table (key, value, updated_at) VALUES (?, ?, ?) *)
| DeleteAllRows (table : string).
    (* DELETE FROM table *)

Inductive Stmt : Type :=
| OnSessions (q : SessionStmt)
| OnSettings (q : SettingStmt).

(** ** SQLite semantics of those statements on one instance *)

Definition no_such_table (table : string) : string :=
  "no such table: " +:+ table.

Definition no_such_column (column : string) : string :=
  "no such column: " +:+ column.

Definition no_column_named (table column : string) : string :=
  "table " +:+ table +:+ " has no column named " +:+ column.

Definition has_id (id : string) (r : SessionRow.t) : bool :=
  String.eqb (SessionRow.id r) id.

Definition has_shop (shop : string) (r : SessionRow.t) : bool :=
  String.eqb (SessionRow.shop r) shop.

Definition has_key (key : string) (r : Setting.t) : bool :=
  String.eqb (Setting.key r) key.

(** [ORDER BY updated_at DESC], as a stable insertion sort. *)
Fixpoint insert_desc (r : Setting.t) (l : list Setting.t) : list Setting.t :=
  match l with
  | [] => [r]
  | x :: l' =>
      if Setting.updated_at x <=? Setting.updated_at r then r :: l
      else x :: insert_desc r l'
  end.

Definition order_by_updated_at_desc (l : list Setting.t) : list Setting.t :=
  fold_right insert_desc [] l.

Definition sessions_step (q : SessionStmt) (st : gmap string Table)
  : Completion (Cursor SessionRow.t) * gmap string Table :=
  match q with
  | CreateSessionsTable table =>
      match st !! table with
      | Some _ => (Normal (mkCursor [] 0 0), st)
      | None => (Normal (mkCursor [] 0 1), <[table := SessionsTable []]> st)
      end
  | InsertOrReplaceSession table row =>
      match st !! table with
      | Some (SessionsTable rows) =>
          let kept := List.filter (fun r => negb (has_id (SessionRow.id row) r)) rows in
          (Normal (mkCursor [] (length rows) (S (length rows - length kept))),
           <[table := SessionsTable (kept ++ [row])%list]> st)
      | Some (SettingsTable _) => (Throw (no_column_named table "id"), st)
      | None => (Throw (no_such_table table), st)
      end
  | SelectSessionById table id =>
      match st !! table with
      | Some (SessionsTable rows) =>
          (Normal (mkCursor (List.filter (has_id id) rows) (length rows) 0), st)
      | Some (SettingsTable _) => (Throw (no_such_column "id"), st)
      | None => (Throw (no_such_table table), st)
      end
  | DeleteSessionById table id =>
      match st !! table with
      | Some (SessionsTable rows) =>
          let kept := List.filter (fun r => negb (has_id id r)) rows in
          (Normal (mkCursor [] (length rows) (length rows - length kept)),
           <[table := SessionsTable kept]> st)
      | Some (SettingsTable _) => (Throw (no_such_column "id"), st)
      | None => (Throw (no_such_table table), st)
      end
  | SelectSessionsByShop table shop =>
      match st !! table with
      | Some (SessionsTable rows) =>
          (Normal (mkCursor (List.filter (has_shop shop) rows) (length rows) 0), st)
      | Some (SettingsTable _) => (Throw (no_such_column "shop"), st)
      | None => (Throw (no_such_table table), st)
      end
  end.

Definition settings_step (q : SettingStmt) (st : gmap string Table)
  : Completion (Cursor Setting.t) * gmap string Table :=
  match q with
  | CreateTableIfNotExists table schema =>
      match st !! table with
      | Some _ => (Normal (mkCursor [] 0 0), st)
      | None => (Normal (mkCursor [] 0 1), <[table := empty_table schema]> st)
      end
  | SelectSettingByKey table key =>
      match st !! table with
      | Some (SettingsTable rows) =>
          (Normal (mkCursor (List.filter (has_key key) rows) (length rows) 0), st)
      | Some (SessionsTable _) => (Throw (no_such_column "key"), st)
      | None => (Throw (no_such_table table), st)
      end
  | SelectAllSettings table =>
      match st !! table with
      | Some (SettingsTable rows) =>
          (Normal (mkCursor (order_by_updated_at_desc rows) (length rows) 0), st)
      | Some (SessionsTable _) => (Throw (no_such_column "updated_at"), st)
      | None => (Throw (no_such_table table), st)
      end
  | InsertOrReplaceSetting table key value updated_at =>
      match st !! table with
      | Some (SettingsTable rows) =>
          let kept := List.filter (fun r => negb (has_key key r)) rows in
          (Normal (mkCursor [] (length rows) (S (length rows - length kept))),
           <[table := SettingsTable (kept ++ [Setting.mk key value updated_at])%list]> st)
      | Some (SessionsTable _) => (Throw (no_column_named table "key"), st)
      | None => (Throw (no_such_table table), st)
      end
  | DeleteAllRows table =>
      match st !! table with
      | Some (SettingsTable rows) =>
          (Normal (mkCursor [] 0 (length rows)), <[table := SettingsTable []]> st)
      | Some (SessionsTable rows) =>
          (Normal (mkCursor [] 0 (length rows)), <[table := SessionsTable []]> st)
      | None => (Throw (no_such_table table), st)
      end
  end.

(** The two statement families share one interface: how a statement is
    logged and what it does to an instance. *)
Class SqlStatement (Q R : Type) : Type := {
  as_stmt : Q -> Stmt;
  sql_step : Q -> gmap string Table -> Completion (Cursor R) * gmap string Table
}.

#[export] Instance session_statements : SqlStatement SessionStmt SessionRow.t :=
  {| as_stmt := OnSessions; sql_step := sessions_step |}.

#[export] Instance setting_statements : SqlStatement SettingStmt Setting.t :=
  {| as_stmt := OnSettings; sql_step := settings_step |}.

(** ** The world and the monad of asynchronous computations *)

(** Everything outside the request: the Durable Object instances by name
    (an instance that was never touched has no table), the outages that
    will hit the coming storage calls ([Some message] faults the call,
    [None] lets it through; past the end of the list nothing faults), the
    wall clock read by [Date.now()], and the record of the statements
    that reached an instance, oldest first. *)
Record World : Type := mkWorld {
  instances : gmap string (gmap string Table);
  faults : list (option string);
  clock : Z;
  sql_log : list (string * Stmt)
}.

Definition M (A : Type) : Type := World -> Completion A * World.

Definition ret {A} (a : A) : M A := fun w => (Normal a, w).

Definition throw {A} (message : string) : M A := fun w => (Throw message, w).

Definition bind {A B} (c : M A) (k : A -> M B) : M B :=
  fun w =>
    match c w with
    | (Normal a, w') => k a w'
    | (Throw message, w') => (Throw message, w')
    end.

(** [try { body } catch (error) { handler(error.message) }] *)
Definition try_catch {A} (body : M A) (handler : string -> M A) : M A :=
  fun w =>
    match body w with
    | (Normal a, w') => (Normal a, w')
    | (Throw message, w') => handler message w'
    end.

Notation "'let*' x ':=' c1 'in' c2" := (bind c1 (fun x => c2))
  (at level 10, x name, c1 at level 100, c2 at level 200).

(** [Date.now()] *)
Definition Date_now : M Z := fun w => (Normal (clock w), w).

Definition instance_storage (name : string) (w : World) : gmap string Table :=
  default ∅ (instances w !! name).

(** [this.ctx.storage.sql.exec(query, ...params)] inside the instance
    called [name]. *)
Definition sql_exec {Q R} `{SqlStatement Q R} (name : string) (q : Q)
  : M (Cursor R) :=
  fun w =>
    let log' := (sql_log w ++ [(name, as_stmt q)])%list in
    match faults w with
    | Some message :: rest =>
        (Throw message, mkWorld (instances w) rest (clock w) log')
    | rest =>
        let (outcome, st') := sql_step q (instance_storage name w) in
        (outcome, mkWorld (<[name := st']> (instances w)) (tl rest) (clock w) log')
    end.

(** ** The Durable Object class [ShopifyStorage] *)

Record Meta : Type := mkMeta {
  meta_rowsRead : nat;
  meta_rowsWritten : nat
}.

Module RunResult.
Record t : Type := mk {
  success : bool;
  error : option string;
  meta : option Meta
}.
End RunResult.

Module FirstResult.
Record t (R : Type) : Type := mk {
  result : option R;
  error : option string
}.
Arguments mk {R} result error.
Arguments result {R} t.
Arguments error {R} t.
End FirstResult.

Module AllResult.
Record t (R : Type) : Type := mk {
  results : list R;
  error : option string;
  meta : option Meta
}.
Arguments mk {R} results error meta.
Arguments results {R} t.
Arguments error {R} t.
Arguments meta {R} t.
End AllResult.

(** The three methods, called on the instance [name] through its stub. *)
Module ShopifyStorage.

Definition run {Q R} `{SqlStatement Q R} (name : string) (query : Q)
  : M RunResult.t :=
  try_catch
    (let* cursor := sql_exec name query in
     ret (RunResult.mk true None
            (Some (mkMeta (rowsRead cursor) (rowsWritten cursor)))))
    (fun message => ret (RunResult.mk false (Some message) None)).

Definition first {Q R} `{SqlStatement Q R} (name : string) (query : Q)
  : M (FirstResult.t R) :=
  try_catch
    (let* cursor := sql_exec name query in
     let results := toArray cursor in
     let result := match results with
                   | r :: _ => Some r
                   | [] => None
                   end in
     ret (FirstResult.mk result None))
    (fun message => ret (FirstResult.mk None (Some message))).

Definition all {Q R} `{SqlStatement Q R} (name : string) (query : Q)
  : M (AllResult.t R) :=
  try_catch
    (let* cursor := sql_exec name query in
     let results := toArray cursor in
     ret (AllResult.mk results None
            (Some (mkMeta (rowsRead cursor) (rowsWritten cursor)))))
    (fun message => ret (AllResult.mk [] (Some message) None)).

End ShopifyStorage.

(** ** The request context and the namespace binding *)

(** The binding [SHOPIFY_STORAGE]: a namespace hands out one stub per
    instance name, and the same name always yields the same instance. *)
Inductive DurableObjectNamespace : Type :=
| Namespace.

Inductive DurableObjectStub : Type :=
| StubOf (instanceName : string).

Definition stub_name (stub : DurableObjectStub) : string :=
  match stub with
  | StubOf instanceName => instanceName
  end.

Definition idFromName (namespace : DurableObjectNamespace) (name : string)
  : string := name.

Definition get (namespace : DurableObjectNamespace) (id : string)
  : DurableObjectStub := StubOf id.

Record Env : Type := mkEnv {
  SHOPIFY_STORAGE : option DurableObjectNamespace
}.

Record Cloudflare : Type := mkCloudflare {
  env : option Env
}.

Record Context : Type := mkContext {
  cloudflare : option Cloudflare
}.

(** [context?.cloudflare?.env?.SHOPIFY_STORAGE], for a context that may
    itself be undefined. *)
Definition binding (context : option Context) : option DurableObjectNamespace :=
  match context with
  | None => None
  | Some c =>
      match cloudflare c with
      | None => None
      | Some cf =>
          match env cf with
          | None => None
          | Some e => SHOPIFY_STORAGE e
          end
      end
  end.

(** [getShopifySessionsStub]: [None] is [null]. *)
Definition getShopifySessionsStub (context : option Context) (shop : string)
  : option DurableObjectStub :=
  match binding context with
  | None => None
  | Some namespace =>
      let instanceName := getShopifySessionInstanceName shop in
      let id := idFromName namespace instanceName in
      Some (get namespace id)
  end.

(** [getDurableObjectStub] of the settings service. *)
Definition getDurableObjectStub (context : option Context) (instanceName : string)
  : option DurableObjectStub :=
  match binding context with
  | None => None
  | Some namespace =>
      let id := idFromName namespace instanceName in
      Some (get namespace id)
  end.

(** ** Sessions *)

(** A [Date], by its time value in milliseconds since the epoch. *)
Inductive Date : Type :=
| new_Date (time : Z).

Definition getTime (d : Date) : Z :=
  match d with
  | new_Date time => time
  end.

(** Modelled from the spec: the [Session] class of the Shopify library, with
    the fields of the data model; [OnlineAccessInfo] is the library's
    structured payload. *)
Module Session.
Record t (OnlineAccessInfo : Type) : Type := mk {
  id : string;
  shop : string;
  state : string;
  isOnline : bool;
  scope : string;
  accessToken : string;
  expires : option Date;
  onlineAccessInfo : option OnlineAccessInfo
}.
Arguments mk {OnlineAccessInfo}.
Arguments id {OnlineAccessInfo} t.
Arguments shop {OnlineAccessInfo} t.
Arguments state {OnlineAccessInfo} t.
Arguments isOnline {OnlineAccessInfo} t.
Arguments scope {OnlineAccessInfo} t.
Arguments accessToken {OnlineAccessInfo} t.
Arguments expires {OnlineAccessInfo} t.
Arguments onlineAccessInfo {OnlineAccessInfo} t.
End Session.

(** The built-in [JSON.stringify] / [JSON.parse] on the payload type;
    [JSON.parse] raises on text it cannot read. *)
Class JSON (A : Type) : Type := {
  JSON_stringify : A -> string;
  JSON_parse : string -> Completion A
}.

(** The laws of the built-in codec that the round trip relies on: the text
    of an object is never empty, and parses back to a deep-equal object. *)
Class JSONLaws (A : Type) `{JSON A} : Prop := {
  stringify_truthy : forall a : A, truthy_string (JSON_stringify a) = true;
  parse_stringify : forall a : A, JSON_parse (JSON_stringify a) = Normal a
}.

Definition SHOPIFY_SESSION_tableName : string := "shopify_sessions".

Fixpoint mapM {A B} (f : A -> M B) (l : list A) : M (list B) :=
  match l with
  | [] => ret []
  | a :: l' =>
      let* b := f a in
      let* bs := mapM f l' in
      ret (b :: bs)
  end.

Module shopifySessionDb.
Section Adapter.
Context {OnlineAccessInfo : Type} `{JSON OnlineAccessInfo}.

Definition initializeTable (context : option Context) (shop : string) : M bool :=
  try_catch
    (match getShopifySessionsStub context shop with
     | None => ret false
     | Some stub =>
         let* result :=
           ShopifyStorage.run (stub_name stub)
             (CreateSessionsTable SHOPIFY_SESSION_tableName) in
         if negb (RunResult.success result)
         then throw (or_else (RunResult.error result)
                             "Failed to create sessions table")
         else ret true
     end)
    (fun _ => ret false).

(** The row bound by [storeSession]: a [Date] and a payload object are
    always truthy, only an absent one is bound to [null]. *)
Definition rowOfSession (session : Session.t OnlineAccessInfo) : SessionRow.t :=
  SessionRow.mk
    (Session.id session)
    (Session.shop session)
    (Session.state session)
    (if Session.isOnline session then 1 else 0)
    (Session.scope session)
    (Session.accessToken session)
    (match Session.expires session with
     | Some d => Some (getTime d)
     | None => None
     end)
    (match Session.onlineAccessInfo session with
     | Some info => Some (JSON_stringify info)
     | None => None
     end).

Definition storeSession (context : option Context)
  (session : Session.t OnlineAccessInfo) : M bool :=
  try_catch
    (match getShopifySessionsStub context (Session.shop session) with
     | None => throw "Durable Object is not available"
     | Some stub =>
         let* _ := initializeTable context (Session.shop session) in
         let* result :=
           ShopifyStorage.run (stub_name stub)
             (InsertOrReplaceSession SHOPIFY_SESSION_tableName
                (rowOfSession session)) in
         if negb (RunResult.success result)
         then throw (or_else (RunResult.error result) "Failed to store session")
         else ret true
     end)
    (fun _ => ret false).

(** The decoding shared, statement for statement, by [loadSession] and
    [findSessionsByShop]: a column is assigned only when it is truthy. *)
Definition sessionOfRow (row : SessionRow.t) : M (Session.t OnlineAccessInfo) :=
  let expires :=
    match SessionRow.expires row with
    | Some ms => if ms =? 0 then None else Some (new_Date ms)
    | None => None
    end in
  let session (info : option OnlineAccessInfo) :=
    Session.mk (SessionRow.id row) (SessionRow.shop row) (SessionRow.state row)
      (negb (SessionRow.isOnline row =? 0))
      (SessionRow.scope row) (SessionRow.accessToken row) expires info in
  match SessionRow.onlineAccessInfo row with
  | Some text =>
      if truthy_string text
      then
        match JSON_parse text with
        | Normal info => ret (session (Some info))
        | Throw message => throw message
        end
      else ret (session None)
  | None => ret (session None)
  end.

(** [None] is [undefined]; an extracted shop that is [null] or the empty
    string is falsy. *)
Definition loadSession (context : option Context) (id : string)
  : M (option (Session.t OnlineAccessInfo)) :=
  try_catch
    (let shop := extractShopFromSessionId id in
     if negb (truthy_opt_string shop) then ret None
     else
       match getShopifySessionsStub context (default "" shop) with
       | None => throw "Durable Object is not available"
       | Some stub =>
           let* result :=
             ShopifyStorage.first (stub_name stub)
               (SelectSessionById SHOPIFY_SESSION_tableName id) in
           if truthy_opt_string (FirstResult.error result)
           then throw (default "" (FirstResult.error result))
           else
             match FirstResult.result result with
             | None => ret None
             | Some row =>
                 let* session := sessionOfRow row in
                 ret (Some session)
             end
       end)
    (fun _ => ret None).

Definition deleteSession (context : option Context) (id : string) : M bool :=
  try_catch
    (let shop := extractShopFromSessionId id in
     if negb (truthy_opt_string shop) then ret false
     else
       match getShopifySessionsStub context (default "" shop) with
       | None => throw "Durable Object is not available"
       | Some stub =>
           let* result :=
             ShopifyStorage.run (stub_name stub)
               (DeleteSessionById SHOPIFY_SESSION_tableName id) in
           if negb (RunResult.success result)
           then throw (or_else (RunResult.error result) "Failed to delete session")
           else ret true
       end)
    (fun _ => ret false).

(** The [for ... of] loop of [deleteSessions]. *)
Fixpoint deleteSessions_loop (context : option Context) (ids : list string)
  : M bool :=
  match ids with
  | [] => ret true
  | id :: rest =>
      let* success := deleteSession context id in
      if negb success then ret false
      else deleteSessions_loop context rest
  end.

Definition deleteSessions (context : option Context) (ids : list string)
  : M bool :=
  try_catch (deleteSessions_loop context ids) (fun _ => ret false).

Definition findSessionsByShop (context : option Context) (shop : string)
  : M (list (Session.t OnlineAccessInfo)) :=
  try_catch
    (match getShopifySessionsStub context shop with
     | None => throw "Durable Object is not available"
     | Some stub =>
         let* result :=
           ShopifyStorage.all (stub_name stub)
             (SelectSessionsByShop SHOPIFY_SESSION_tableName shop) in
         if truthy_opt_string (AllResult.error result)
         then throw (default "" (AllResult.error result))
         else mapM sessionOfRow (AllResult.results result)
     end)
    (fun _ => ret []).

End Adapter.
End shopifySessionDb.

(** The row is decoded to this session, without raising. *)
Definition decodes {OnlineAccessInfo : Type} `{JSON OnlineAccessInfo}
  (row : SessionRow.t) (session : Session.t OnlineAccessInfo) : Prop :=
  forall w, shopifySessionDb.sessionOfRow row w = (Normal session, w).

(** The raw column values that JavaScript treats as falsy. *)
Definition falsy_expires (row : SessionRow.t) : Prop :=
  SessionRow.expires row = Some 0 \/ SessionRow.expires row = None.

Definition falsy_onlineAccessInfo (row : SessionRow.t) : Prop :=
  SessionRow.onlineAccessInfo row = Some ""
  \/ SessionRow.onlineAccessInfo row = None.

(** ** The settings service *)

Module DatabaseConfig.
Record t : Type := mk {
  key : string;
  name : string;
  instanceName : string;
  tableName : string;
  settingKey : string
}.
End DatabaseConfig.

Definition DATABASE_CONFIG : list DatabaseConfig.t :=
  [ DatabaseConfig.mk "DB1" "Primary Database" "database-1" "settings"
      "test_checkbox_db1";
    DatabaseConfig.mk "DB2" "Secondary Database" "database-2" "settings"
      "test_checkbox_db2";
    DatabaseConfig.mk "DB3" "Tertiary Database" "database-3" "settings"
      "test_checkbox_db3" ].

(** [DATABASE_CONFIG.find(c => c.key === dbKey)] *)
Definition find_config (dbKey : string) : option DatabaseConfig.t :=
  List.find (fun c => String.eqb (DatabaseConfig.key c) dbKey) DATABASE_CONFIG.

Definition not_available : string := "Durable Object is not available".

Definition instance_not_available (instanceName : string) : string :=
  "Durable Object instance " +:+ instanceName +:+ " is not available".

(** The helpers take the stub as their callers hold it, possibly [null];
    each re-raises what it catches. *)
Definition createTableIfNotExists (stub : option DurableObjectStub)
  (tableName : string) (schema : Schema) : M bool :=
  match stub with
  | None => throw not_available
  | Some stub =>
      try_catch
        (let* result :=
           ShopifyStorage.run (stub_name stub)
             (CreateTableIfNotExists tableName schema) in
         if negb (RunResult.success result)
         then throw (or_else (RunResult.error result) "Failed to create table")
         else ret true)
        (fun message => throw message)
  end.

Definition getSetting (stub : option DurableObjectStub)
  (tableName key : string) : M (option Setting.t) :=
  match stub with
  | None => throw not_available
  | Some stub =>
      try_catch
        (let* result :=
           ShopifyStorage.first (stub_name stub)
             (SelectSettingByKey tableName key) in
         if truthy_opt_string (FirstResult.error result)
         then throw (default "" (FirstResult.error result))
         else ret (FirstResult.result result))
        (fun message => throw message)
  end.

Definition getAllSettings (stub : option DurableObjectStub)
  (tableName : string) : M (list Setting.t) :=
  match stub with
  | None => throw not_available
  | Some stub =>
      try_catch
        (let* result :=
           ShopifyStorage.all (stub_name stub) (SelectAllSettings tableName) in
         if truthy_opt_string (AllResult.error result)
         then throw (default "" (AllResult.error result))
         else ret (AllResult.results result))
        (fun message => throw message)
  end.

Definition updateSetting (stub : option DurableObjectStub)
  (tableName key value : string) : M bool :=
  match stub with
  | None => throw not_available
  | Some stub =>
      try_catch
        (let* timestamp := Date_now in
         let* result :=
           ShopifyStorage.run (stub_name stub)
             (InsertOrReplaceSetting tableName key value timestamp) in
         if negb (RunResult.success result)
         then throw (or_else (RunResult.error result) "Failed to update setting")
         else ret true)
        (fun message => throw message)
  end.

(** The record returned by [loadDatabaseSettings]. *)
Module DatabaseSettings.
Record t : Type := mk {
  key : string;
  name : string;
  instanceName : string;
  tableName : string;
  isChecked : bool;
  dbAvailable : bool;
  allSettings : list Setting.t;
  error : option string
}.
End DatabaseSettings.

(** [{ ...data, isChecked, dbAvailable: true, allSettings, error: null }] *)
Definition loaded (config : DatabaseConfig.t) (isChecked : bool)
  (allSettings : list Setting.t) : DatabaseSettings.t :=
  DatabaseSettings.mk
    (DatabaseConfig.key config) (DatabaseConfig.name config)
    (DatabaseConfig.instanceName config) (DatabaseConfig.tableName config)
    isChecked true allSettings None.

(** The initial [data] with its [error] field assigned. *)
Definition unavailable (config : DatabaseConfig.t) (error : string)
  : DatabaseSettings.t :=
  DatabaseSettings.mk
    (DatabaseConfig.key config) (DatabaseConfig.name config)
    (DatabaseConfig.instanceName config) (DatabaseConfig.tableName config)
    false false [] (Some error).

(** The test on the fault message that gates the retry. *)
Definition table_missing (message : string) : bool :=
  truthy_string message
  && (includes "no such table" message || includes "does not exist" message).

Definition loadDatabaseSettings (context : option Context)
  (config : DatabaseConfig.t) : M DatabaseSettings.t :=
  let stub := getDurableObjectStub context (DatabaseConfig.instanceName config) in
  match stub with
  | None =>
      ret (unavailable config
             (instance_not_available (DatabaseConfig.instanceName config)))
  | Some _ =>
      try_catch
        (let* allSettings := getAllSettings stub (DatabaseConfig.tableName config) in
         let checkboxSetting :=
           List.find (has_key (DatabaseConfig.settingKey config)) allSettings in
         let isChecked :=
           match checkboxSetting with
           | Some s => String.eqb (Setting.value s) "true"
           | None => false
           end in
         ret (loaded config isChecked allSettings))
        (fun message =>
           if table_missing message
           then
             try_catch
               (let* _ :=
                  createTableIfNotExists stub (DatabaseConfig.tableName config)
                    SettingsSchema in
                let* allSettings :=
                  getAllSettings stub (DatabaseConfig.tableName config) in
                ret (loaded config false allSettings))
               (fun retryMessage => ret (unavailable config retryMessage))
           else ret (unavailable config message))
  end.

(** The record returned by [updateDatabaseSetting]. *)
Module UpdateResult.
Record t : Type := mk {
  success : bool;
  error : option string;
  dbKey : option string;
  isChecked : option bool;
  allSettings : option (list Setting.t)
}.
End UpdateResult.

Definition updateDatabaseSetting (context : option Context) (dbKey : string)
  (isChecked : bool) : M UpdateResult.t :=
  match find_config dbKey with
  | None => ret (UpdateResult.mk false (Some "Invalid database key") None None None)
  | Some config =>
      let stub := getDurableObjectStub context (DatabaseConfig.instanceName config) in
      match stub with
      | None =>
          ret (UpdateResult.mk false
                 (Some (instance_not_available (DatabaseConfig.instanceName config)))
                 None None None)
      | Some _ =>
          try_catch
            (let stringValue := if isChecked then "true" else "false" in
             let* _ :=
               updateSetting stub (DatabaseConfig.tableName config)
                 (DatabaseConfig.settingKey config) stringValue in
             let* allSettings :=
               getAllSettings stub (DatabaseConfig.tableName config) in
             ret (UpdateResult.mk true None (Some dbKey) (Some isChecked)
                    (Some allSettings)))
            (fun message =>
               ret (UpdateResult.mk false (Some message) None None None))
      end
  end.

(** The record returned by [clearDatabaseSettings]. *)
Module ClearResult.
Record t : Type := mk {
  success : bool;
  error : option string;
  dbKey : option string;
  message : option string
}.
End ClearResult.

Definition clearDatabaseSettings (context : option Context) (dbKey : string)
  : M ClearResult.t :=
  match find_config dbKey with
  | None => ret (ClearResult.mk false (Some "Invalid database key") None None)
  | Some config =>
      let stub := getDurableObjectStub context (DatabaseConfig.instanceName config) in
      match stub with
      | None =>
          ret (ClearResult.mk false
                 (Some (instance_not_available (DatabaseConfig.instanceName config)))
                 None None)
      | Some stub =>
          try_catch
            (let* result :=
               ShopifyStorage.run (stub_name stub)
                 (DeleteAllRows (DatabaseConfig.tableName config)) in
             if truthy_opt_string (RunResult.error result)
             then throw (default "" (RunResult.error result))
             else
               ret (ClearResult.mk true None (Some dbKey)
                      (Some ("All settings cleared from "
                             +:+ DatabaseConfig.name config))))
            (fun message => ret (ClearResult.mk false (Some message) None None))
      end
  end.

(** ** Observations on worlds, used to state the properties *)

(** The outage, if any, that will hit the next storage call. *)
Definition next_fault (w : World) : option string :=
  match faults w with
  | Some message :: _ => Some message
  | _ => None
  end.

(** The rows of a sessions table of an instance; none when the table is
    absent. *)
Definition table_session_rows (st : gmap string Table) (table : string)
  : list SessionRow.t :=
  match st !! table with
  | Some (SessionsTable rows) => rows
  | _ => []
  end.

Definition table_setting_rows (st : gmap string Table) (table : string)
  : list Setting.t :=
  match st !! table with
  | Some (SettingsTable rows) => rows
  | _ => []
  end.

Definition session_rows (name table : string) (w : World) : list SessionRow.t :=
  table_session_rows (instance_storage name w) table.

Definition setting_rows (name table : string) (w : World) : list Setting.t :=
  table_setting_rows (instance_storage name w) table.

(** The same world at another reading of the clock. *)
Definition at_time (t : Z) (w : World) : World :=
  mkWorld (instances w) (faults w) t (sql_log w).

(** The same world with the given outages scheduled for the coming
    storage calls. *)
Definition facing (outages : list (option string)) (w : World) : World :=
  mkWorld (instances w) outages (clock w) (sql_log w).

(** The log entry of the [DELETE] issued for a session id. *)
Definition delete_entry (id : string) : string * Stmt :=
  (getShopifySessionInstanceName (default "" (extractShopFromSessionId id)),
   OnSessions (DeleteSessionById SHOPIFY_SESSION_tableName id)).

(** No row with this id is left in the instance its id routes to. *)
Definition deleted_in (w : World) (id : string) : Prop :=
  List.filter (has_id id)
    (session_rows
       (getShopifySessionInstanceName (default "" (extractShopFromSessionId id)))
       SHOPIFY_SESSION_tableName w) = [].

(** Every deletion of the list succeeded, one after the other, taking the
    first world to the second. *)
Inductive deletes_in_order (context : option Context)
  : list string -> World -> World -> Prop :=
| deletes_nil w : deletes_in_order context [] w w
| deletes_cons id rest w w1 w2 :
    shopifySessionDb.deleteSession context id w = (Normal true, w1) ->
    deletes_in_order context rest w1 w2 ->
    deletes_in_order context (id :: rest) w w2.

(** Log entries of the settings service. *)
Definition read_all_entry (config : DatabaseConfig.t) : string * Stmt :=
  (DatabaseConfig.instanceName config,
   OnSettings (SelectAllSettings (DatabaseConfig.tableName config))).

Definition create_entry (config : DatabaseConfig.t) : string * Stmt :=
  (DatabaseConfig.instanceName config,
   OnSettings (CreateTableIfNotExists (DatabaseConfig.tableName config)
                 SettingsSchema)).

(** [checkboxSetting?.value === "true"] on a row set. *)
Definition checkbox_checked (config : DatabaseConfig.t)
  (allSettings : list Setting.t) : bool :=
  match List.find (has_key (DatabaseConfig.settingKey config)) allSettings with
  | Some s => String.eqb (Setting.value s) "true"
  | None => false
  end.

(** ** Sample data *)

(** A context whose binding is present, and a world in which no instance
    has been touched yet. *)
Definition bound_context : option Context :=
  Some (mkContext (Some (mkCloudflare (Some (mkEnv (Some Namespace)))))).

Definition fresh_world : World := mkWorld ∅ [] 0 [].

(** Two payload objects and their JSON texts. *)
Inductive SamplePayload : Type :=
| EmptyObject
| EmptyArray.

#[export] Instance sample_json : JSON SamplePayload := {|
  JSON_stringify p :=
    match p with
    | EmptyObject => "{}"
    | EmptyArray => "[]"
    end;
  JSON_parse text :=
    if String.eqb text "{}" then Normal EmptyObject
    else if String.eqb text "[]" then Normal EmptyArray
    else Throw "Unexpected token"
|}.

(** A stored row whose [expires] is the epoch instant and whose payload
    text is empty, alone in the table of its shop's instance. *)
Definition epoch_row : SessionRow.t :=
  SessionRow.mk "offline_my-shop.myshopify.com" "my-shop.myshopify.com"
    "state-1" 1 "read_products" "shpat_1" (Some 0) (Some "").

Definition world_with_epoch_row : World :=
  mkWorld
    {[ getShopifySessionInstanceName "my-shop.myshopify.com" :=
         {[ SHOPIFY_SESSION_tableName := SessionsTable [epoch_row] ]} ]}
    [] 0 [].

Definition sample_session (id shop : string) (expires : option Date)
  : Session.t SamplePayload :=
  Session.mk id shop "state-1" true "read_products" "shpat_1" expires
    (Some EmptyObject).

(** ** The rest of the storage class and of the settings service *)

(** What [ShopifyStorage.executeQuery] returns: every field is optional,
    and [result] is [null] ([Some None]) when no row came back. *)
Module QueryResult.
Record t (R : Type) : Type := mk {
  results : option (list R);
  result : option (option R);
  error : option string
}.
Arguments mk {R} results result error.
Arguments results {R} t.
Arguments result {R} t.
Arguments error {R} t.
End QueryResult.

(** [ShopifyStorage.executeQuery] *)
Definition ShopifyStorage_executeQuery {Q R} `{SqlStatement Q R}
  (name : string) (query : Q) : M (QueryResult.t R) :=
  try_catch
    (let* cursor := sql_exec name query in
     let results := toArray cursor in
     let result := match results with
                   | r :: _ => Some r
                   | [] => None
                   end in
     ret (QueryResult.mk (Some results) (Some result) None))
    (fun message => ret (QueryResult.mk None None (Some message))).

(** [getDatabaseConfig] *)
Definition getDatabaseConfig (dbKey : string) : option DatabaseConfig.t :=
  List.find (fun config => String.eqb (DatabaseConfig.key config) dbKey)
    DATABASE_CONFIG.

(** [isDurableObjectAvailable] *)
Definition isDurableObjectAvailable (context : option Context) : bool :=
  forallb
    (fun config =>
       match getDurableObjectStub context (DatabaseConfig.instanceName config) with
       | Some _ => true
       | None => false
       end)
    DATABASE_CONFIG.

(** [isSpecificDurableObjectAvailable] *)
Definition isSpecificDurableObjectAvailable (context : option Context)
  (dbKey : string) : bool :=
  match find_config dbKey with
  | None => false
  | Some config =>
      match getDurableObjectStub context (DatabaseConfig.instanceName config) with
      | Some _ => true
      | None => false
      end
  end.

(** One element of the argument of [bulkUpdateSettings], and one element
    of its result. *)
Module BulkUpdate.
Record t : Type := mk {
  dbKey : string;
  key : string;
  value : string
}.
End BulkUpdate.

Module BulkResult.
Record t : Type := mk {
  dbKey : string;
  success : bool;
  error : option string
}.
End BulkResult.

(** The [for ... of] loop of [bulkUpdateSettings]; [results] is the array
    the loop pushes to. *)
Fixpoint bulkUpdateSettings_loop (context : option Context)
  (results : list BulkResult.t) (updates : list BulkUpdate.t)
  : M (list BulkResult.t) :=
  match updates with
  | [] => ret results
  | update :: rest =>
      match find_config (BulkUpdate.dbKey update) with
      | None =>
          bulkUpdateSettings_loop context
            (results ++ [BulkResult.mk (BulkUpdate.dbKey update) false
                           (Some "Invalid database key")])%list
            rest
      | Some config =>
          let stub :=
            getDurableObjectStub context (DatabaseConfig.instanceName config) in
          match stub with
          | None =>
              bulkUpdateSettings_loop context
                (results ++ [BulkResult.mk (BulkUpdate.dbKey update) false
                               (Some "Durable Object not available")])%list
                rest
          | Some _ =>
              let* results :=
                try_catch
                  (let* _ :=
                     updateSetting stub (DatabaseConfig.tableName config)
                       (BulkUpdate.key update) (BulkUpdate.value update) in
                   ret (results
                        ++ [BulkResult.mk (BulkUpdate.dbKey update) true None])%list)
                  (fun message =>
                     ret (results
                          ++ [BulkResult.mk (BulkUpdate.dbKey update) false
                                (Some message)])%list) in
              bulkUpdateSettings_loop context results rest
          end
      end
  end.

Definition bulkUpdateSettings (context : option Context)
  (updates : list BulkUpdate.t) : M (list BulkResult.t) :=
  bulkUpdateSettings_loop context [] updates.

(** The object returned by [getDatabaseStatistics]; [settingsByDatabase]
    is keyed by database key. *)
Module Statistics.
Record t : Type := mk {
  totalSettings : nat;
  databasesAvailable : nat;
  lastUpdated : option Date;
  settingsByDatabase : gmap string nat
}.
End Statistics.

(** [allSettings.reduce((latest, current) =>
       current.updated_at > latest ? current.updated_at : latest, 0)] *)
Definition mostRecent_of (allSettings : list Setting.t) : Z :=
  fold_left
    (fun latest current =>
       if latest <? Setting.updated_at current
       then Setting.updated_at current
       else latest)
    allSettings 0.

(** The body of the [try] for one database, on the rows it read. *)
Definition count_database (config : DatabaseConfig.t)
  (allSettings : list Setting.t) (stats : Statistics.t) : Statistics.t :=
  let stats :=
    Statistics.mk
      (Statistics.totalSettings stats + length allSettings)
      (S (Statistics.databasesAvailable stats))
      (Statistics.lastUpdated stats)
      (<[DatabaseConfig.key config := length allSettings]>
         (Statistics.settingsByDatabase stats)) in
  let mostRecent := mostRecent_of allSettings in
  if 0 <? mostRecent
  then
    let recentDate := new_Date mostRecent in
    match Statistics.lastUpdated stats with
    | None =>
        Statistics.mk (Statistics.totalSettings stats)
          (Statistics.databasesAvailable stats) (Some recentDate)
          (Statistics.settingsByDatabase stats)
    | Some last =>
        if getTime last <? getTime recentDate
        then
          Statistics.mk (Statistics.totalSettings stats)
            (Statistics.databasesAvailable stats) (Some recentDate)
            (Statistics.settingsByDatabase stats)
        else stats
    end
  else stats.

(** The [for ... of] loop of [getDatabaseStatistics] over the configured
    databases. *)
Fixpoint getDatabaseStatistics_loop (context : option Context)
  (stats : Statistics.t) (configs : list DatabaseConfig.t) : M Statistics.t :=
  match configs with
  | [] => ret stats
  | config :: rest =>
      let stub :=
        getDurableObjectStub context (DatabaseConfig.instanceName config) in
      match stub with
      | None => getDatabaseStatistics_loop context stats rest
      | Some _ =>
          let* stats :=
            try_catch
              (let* allSettings :=
                 getAllSettings stub (DatabaseConfig.tableName config) in
               ret (count_database config allSettings stats))
              (fun _ => ret stats) in
          getDatabaseStatistics_loop context stats rest
      end
  end.

Definition getDatabaseStatistics (context : option Context) : M Statistics.t :=
  getDatabaseStatistics_loop context (Statistics.mk 0 0 None ∅) DATABASE_CONFIG.

(** [s.toLowerCase()] on code units up to U+00FF: the letters [A]-[Z] and
    the capital letters of the Latin-1 block move up by 32. *)
Definition lower_code_unit (c : ascii) : ascii :=
  let n := nat_of_ascii c in
  if ((65 <=? n)%nat && (n <=? 90)%nat)
     || ((192 <=? n)%nat && (n <=? 222)%nat && negb (n =? 215)%nat)
  then ascii_of_nat (n + 32)
  else c.

Fixpoint toLowerCase (s : string) : string :=
  match s with
  | EmptyString => EmptyString
  | String c s' => String (lower_code_unit c) (toLowerCase s')
  end.

(** One element of the result of [searchSettings]. *)
Module SearchResult.
Record t : Type := mk {
  database : string;
  instanceName : string;
  matches : list Setting.t
}.
End SearchResult.

(** The predicate of the [filter] in [searchSettings]. *)
Definition setting_matches (searchTerm : string) (setting : Setting.t) : bool :=
  includes (toLowerCase searchTerm) (toLowerCase (Setting.key setting))
  || includes (toLowerCase searchTerm) (toLowerCase (Setting.value setting)).

(** The [for ... of] loop of [searchSettings]; [results] is the array the
    loop pushes to. *)
Fixpoint searchSettings_loop (context : option Context) (searchTerm : string)
  (results : list SearchResult.t) (configs : list DatabaseConfig.t)
  : M (list SearchResult.t) :=
  match configs with
  | [] => ret results
  | config :: rest =>
      let stub :=
        getDurableObjectStub context (DatabaseConfig.instanceName config) in
      match stub with
      | None => searchSettings_loop context searchTerm results rest
      | Some _ =>
          let* results :=
            try_catch
              (let* allSettings :=
                 getAllSettings stub (DatabaseConfig.tableName config) in
               let matchingSettings :=
                 List.filter (setting_matches searchTerm) allSettings in
               if (0 <? length matchingSettings)%nat
               then
                 ret (results
                      ++ [SearchResult.mk (DatabaseConfig.name config)
                            (DatabaseConfig.instanceName config)
                            matchingSettings])%list
               else ret results)
              (fun _ => ret results) in
          searchSettings_loop context searchTerm results rest
      end
  end.

Definition searchSettings (context : option Context) (searchTerm : string)
  : M (list SearchResult.t) :=
  searchSettings_loop context searchTerm [] DATABASE_CONFIG.

(** A stored row whose payload text is truthy and rejected by
    [JSON.parse]. *)
Definition corrupt {OnlineAccessInfo : Type} `{JSON OnlineAccessInfo}
  (row : SessionRow.t) : Prop :=
  exists text message,
    SessionRow.onlineAccessInfo row = Some text
    /\ truthy_string text = true
    /\ JSON_parse (A := OnlineAccessInfo) text = Throw message.

(** What a search reports for one database, read off the rows its settings
    table holds: the matching rows, newest first, or nothing when none
    matches. *)
Definition search_group (searchTerm : string) (w : World)
  (config : DatabaseConfig.t) : list SearchResult.t :=
  let matching :=
    List.filter (setting_matches searchTerm)
      (order_by_updated_at_desc
         (setting_rows (DatabaseConfig.instanceName config)
            (DatabaseConfig.tableName config) w)) in
  match matching with
  | [] => []
  | _ :: _ =>
      [SearchResult.mk (DatabaseConfig.name config)
         (DatabaseConfig.instanceName config) matching]
  end.

(** The rows of the settings tables of all configured databases. *)
Definition all_setting_rows (w : World) : list Setting.t :=
  flat_map
    (fun config =>
       setting_rows (DatabaseConfig.instanceName config)
         (DatabaseConfig.tableName config) w)
    DATABASE_CONFIG.

(** The rows pushed for one database are never none, and all match. *)
Definition well_grouped (searchTerm : string) (group : SearchResult.t) : Prop :=
  SearchResult.matches group <> []
  /\ Forall (fun setting => setting_matches searchTerm setting = true)
       (SearchResult.matches group)
  /\ exists config,
       In config DATABASE_CONFIG
       /\ SearchResult.database group = DatabaseConfig.name config
       /\ SearchResult.instanceName group = DatabaseConfig.instanceName config.

(** [lastUpdated] is the latest positive stamp among the rows seen. *)
Definition latest_among (seen : list Setting.t) (lastUpdated : option Date)
  : Prop :=
  match lastUpdated with
  | Some d =>
      0 < getTime d
      /\ (exists row, In row seen /\ Setting.updated_at row = getTime d)
      /\ Forall (fun row => Setting.updated_at row <= getTime d) seen
  | None => Forall (fun row => Setting.updated_at row <= 0) seen
  end.

(** A [lastUpdated] that is set is later than the epoch. *)
Definition after_epoch (lastUpdated : option Date) : Prop :=
  match lastUpdated with
  | Some d => 0 < getTime d
  | None => True
  end.

(* ===================================================================== *)
(** * Part II: properties                                                 *)
(* ===================================================================== *)

(** ** Shop extraction *)

Lemma split_on_nonempty sep s : split_on sep s <> [].
Proof.
  destruct s as [|c s]; simpl; [discriminate|].
  destruct (Ascii.eqb c sep); [discriminate|].
  destruct (split_on sep s); discriminate.
Qed.

Lemma split_on_head s :
  nth 0 (split_on underscore s) "" = before_underscore s.
Proof.
  induction s as [|c s IH]; simpl; [reflexivity|].
  destruct (Ascii.eqb c underscore); [reflexivity|].
  destruct (split_on underscore s) as [|seg segs] eqn:E.
  - exfalso. exact (split_on_nonempty _ _ E).
  - simpl in *. now rewrite IH.
Qed.

Lemma includes_underscore_cons c s :
  includes "_" (String c s) = Ascii.eqb c underscore || includes "_" s.
Proof.
  cbn [includes String.prefix].
  destruct (ascii_dec "_" c) as [<-|Hne].
  - now destruct s.
  - destruct (Ascii.eqb_spec c underscore) as [->|_]; [now elim Hne|].
    reflexivity.
Qed.

Lemma before_underscore_id s :
  includes "_" s = false -> before_underscore s = s.
Proof.
  induction s as [|c s IH]; [reflexivity|].
  rewrite includes_underscore_cons. intros Hn.
  apply orb_false_iff in Hn as [Hc Hs].
  simpl. rewrite Hc. now rewrite IH.
Qed.

(** A segment produced by splitting on [_] never contains [_]. *)
Lemma split_on_segments_clean s :
  Forall (fun seg => includes "_" seg = false) (split_on underscore s).
Proof.
  induction s as [|c s IH].
  - repeat constructor.
  - simpl. destruct (Ascii.eqb c underscore) eqn:Hc.
    + constructor; [reflexivity | exact IH].
    + destruct (split_on underscore s) as [|seg segs].
      * constructor; [|constructor].
        rewrite includes_underscore_cons, Hc. reflexivity.
      * inversion IH as [|? ? Hseg Hsegs]; subst.
        constructor; [|exact Hsegs].
        rewrite includes_underscore_cons, Hc. exact Hseg.
Qed.

Lemma extractShopFromSessionId_cases sessionId :
  extractShopFromSessionId sessionId =
  match split_on underscore sessionId with
  | _ :: second :: _ =>
      Some (if includes "_" second
            then nth 0 (split_on underscore second) ""
            else second)
  | _ => None
  end.
Proof.
  unfold extractShopFromSessionId.
  destruct (split_on underscore sessionId) as [|p0 [|p1 ps]]; reflexivity.
Qed.

(** C2: the extraction splits the id on [_]; with at least two segments it
    returns the second one cut at its own [_] (if any), with fewer it
    returns null; the three examples of the specification evaluate as
    stated. *)
Theorem extractShopFromSessionId_rule :
  (forall sessionId,
     extractShopFromSessionId sessionId = extractShop_spec sessionId)
  /\ extractShopFromSessionId "offline_my-shop.myshopify.com"
     = Some "my-shop.myshopify.com"
  /\ extractShopFromSessionId "online_my-shop.myshopify.com_12345"
     = Some "my-shop.myshopify.com"
  /\ extractShopFromSessionId "malformed" = None.
Proof.
  split; [|repeat split; reflexivity].
  intros sessionId. rewrite extractShopFromSessionId_cases.
  unfold extractShop_spec.
  destruct (split_on underscore sessionId) as [|p0 [|p1 ps]]; try reflexivity.
  f_equal. destruct (includes "_" p1) eqn:Hi.
  - apply split_on_head.
  - symmetry. now apply before_underscore_id.
Qed.

(** C9: the extraction equals the function that returns the second segment
    untouched, and the truncating branch is dead: its guard is false for
    every segment of every id. *)
Theorem extractShopFromSessionId_truncation_dead :
  (forall sessionId,
     extractShopFromSessionId sessionId = extractShop_simple sessionId)
  /\ (forall sessionId,
        Forall (fun seg => includes "_" seg = false)
               (split_on underscore sessionId)).
Proof.
  split; [|exact split_on_segments_clean].
  intros sessionId. rewrite extractShopFromSessionId_cases.
  unfold extractShop_simple.
  pose proof (split_on_segments_clean sessionId) as Hclean.
  destruct (split_on underscore sessionId) as [|p0 [|p1 ps]]; try reflexivity.
  inversion Hclean as [|? ? _ Htl]; subst.
  inversion Htl as [|? ? Hp1 _]; subst.
  now rewrite Hp1.
Qed.

(** ** Instance naming *)

Lemma getShopifySessionInstanceName_inj_sanitized a b :
  getShopifySessionInstanceName a = getShopifySessionInstanceName b <->
  replace_outside_name_class a = replace_outside_name_class b.
Proof.
  unfold getShopifySessionInstanceName. split.
  - intros Heq. cbn in Heq. now repeat injection Heq as Heq.
  - now intros ->.
Qed.

Lemma replace_outside_name_class_id s :
  name_class_only s = true -> replace_outside_name_class s = s.
Proof.
  induction s as [|c s IH]; [reflexivity|].
  simpl. intros Hc. apply andb_true_iff in Hc as [Hc Hs].
  now rewrite Hc, IH.
Qed.

(** Shops written in the name class alone keep distinct instances. *)
Lemma getShopifySessionInstanceName_inj_on_class a b :
  name_class_only a = true -> name_class_only b = true ->
  getShopifySessionInstanceName a = getShopifySessionInstanceName b -> a = b.
Proof.
  intros Ha Hb Heq. apply getShopifySessionInstanceName_inj_sanitized in Heq.
  now rewrite !replace_outside_name_class_id in Heq.
Qed.

(** C8: the naming is not injective: two distinct shop domains that differ
    only in characters outside the class get the same instance name, and
    with it the same stub, so their sessions share one storage instance. *)
Theorem getShopifySessionInstanceName_collision :
  "my_shop.myshopify.com" <> "my-shop.myshopify.com"
  /\ getShopifySessionInstanceName "my_shop.myshopify.com"
     = "shopify-sessions-my-shop-myshopify-com"
  /\ getShopifySessionInstanceName "my-shop.myshopify.com"
     = "shopify-sessions-my-shop-myshopify-com"
  /\ getShopifySessionsStub bound_context "my_shop.myshopify.com"
     = getShopifySessionsStub bound_context "my-shop.myshopify.com"
  /\ fst (shopifySessionDb.findSessionsByShop bound_context
            "my-shop.myshopify.com"
            (snd (shopifySessionDb.storeSession bound_context
                    (sample_session "offline_my_shop.myshopify.com"
                       "my_shop.myshopify.com" None)
                    (snd (shopifySessionDb.storeSession bound_context
                            (sample_session "offline_my-shop.myshopify.com"
                               "my-shop.myshopify.com" None)
                            fresh_world)))))
     = Normal [sample_session "offline_my-shop.myshopify.com"
                 "my-shop.myshopify.com" None]
  /\ length
       (session_rows "shopify-sessions-my-shop-myshopify-com"
          SHOPIFY_SESSION_tableName
          (snd (shopifySessionDb.storeSession bound_context
                  (sample_session "offline_my_shop.myshopify.com"
                     "my_shop.myshopify.com" None)
                  (snd (shopifySessionDb.storeSession bound_context
                          (sample_session "offline_my-shop.myshopify.com"
                             "my-shop.myshopify.com" None)
                          fresh_world)))))
     = 2%nat.
Proof. vm_compute. repeat split. discriminate. Qed.

(** ** The Key-Value Table Store boundary *)

Lemma sql_exec_log {Q R} `{SqlStatement Q R} name (q : Q) w :
  sql_log (snd (sql_exec name q w)) = (sql_log w ++ [(name, as_stmt q)])%list.
Proof.
  unfold sql_exec.
  destruct (faults w) as [|[message|] rest]; simpl;
    try destruct (sql_step q (instance_storage name w)); reflexivity.
Qed.

Lemma sql_exec_faulted {Q R} `{SqlStatement Q R} name (q : Q) w message :
  next_fault w = Some message ->
  sql_exec name q w =
  (Throw message,
   mkWorld (instances w) (tl (faults w)) (clock w)
     (sql_log w ++ [(name, as_stmt q)])%list).
Proof.
  unfold next_fault, sql_exec.
  destruct (faults w) as [|[m|] rest]; try discriminate.
  now intros [= ->].
Qed.

Lemma sql_exec_through {Q R} `{SqlStatement Q R} name (q : Q) w :
  next_fault w = None ->
  sql_exec name q w =
  (fst (sql_step q (instance_storage name w)),
   mkWorld (<[name := snd (sql_step q (instance_storage name w))]> (instances w))
     (tl (faults w)) (clock w)
     (sql_log w ++ [(name, as_stmt q)])%list).
Proof.
  unfold next_fault, sql_exec.
  destruct (faults w) as [|[m|] rest]; try discriminate; intros _;
    destruct (sql_step q (instance_storage name w)); reflexivity.
Qed.

Lemma run_outcome {Q R} `{SqlStatement Q R} name (query : Q) w :
  ShopifyStorage.run name query w =
  match sql_exec name query w with
  | (Normal cursor, w') =>
      (Normal (RunResult.mk true None
                 (Some (mkMeta (rowsRead cursor) (rowsWritten cursor)))), w')
  | (Throw message, w') =>
      (Normal (RunResult.mk false (Some message) None), w')
  end.
Proof.
  unfold ShopifyStorage.run, try_catch, bind, ret.
  now destruct (sql_exec name query w) as [[cursor|message] w'].
Qed.

Lemma first_outcome {Q R} `{SqlStatement Q R} name (query : Q) w :
  ShopifyStorage.first name query w =
  match sql_exec name query w with
  | (Normal cursor, w') =>
      (Normal (FirstResult.mk (head (toArray cursor)) None), w')
  | (Throw message, w') => (Normal (FirstResult.mk None (Some message)), w')
  end.
Proof.
  unfold ShopifyStorage.first, try_catch, bind, ret.
  now destruct (sql_exec name query w) as [[cursor|message] w'].
Qed.

Lemma all_outcome {Q R} `{SqlStatement Q R} name (query : Q) w :
  ShopifyStorage.all name query w =
  match sql_exec name query w with
  | (Normal cursor, w') =>
      (Normal (AllResult.mk (toArray cursor) None
                 (Some (mkMeta (rowsRead cursor) (rowsWritten cursor)))), w')
  | (Throw message, w') => (Normal (AllResult.mk [] (Some message) None), w')
  end.
Proof.
  unfold ShopifyStorage.all, try_catch, bind, ret.
  now destruct (sql_exec name query w) as [[cursor|message] w'].
Qed.

(** C4: whatever the statement and whatever [sql.exec] does, the three
    methods complete normally: a fault becomes [{success:false, error}],
    [{result:null, error}] or [{results:[], error}]; a cursor becomes the
    counters in [meta], the first row or null, or every row. *)
Theorem ShopifyStorage_never_raises :
  forall (Q R : Type) (statements : SqlStatement Q R) (name : string)
         (query : Q) (w : World),
    match sql_exec name query w with
    | (Throw message, w') =>
        ShopifyStorage.run name query w
        = (Normal (RunResult.mk false (Some message) None), w')
        /\ ShopifyStorage.first name query w
           = (Normal (FirstResult.mk None (Some message)), w')
        /\ ShopifyStorage.all name query w
           = (Normal (AllResult.mk [] (Some message) None), w')
    | (Normal cursor, w') =>
        ShopifyStorage.run name query w
        = (Normal (RunResult.mk true None
                     (Some (mkMeta (rowsRead cursor) (rowsWritten cursor)))), w')
        /\ ShopifyStorage.first name query w
           = (Normal (FirstResult.mk (head (toArray cursor)) None), w')
        /\ ShopifyStorage.all name query w
           = (Normal (AllResult.mk (toArray cursor) None
                        (Some (mkMeta (rowsRead cursor) (rowsWritten cursor)))), w')
    end.
Proof.
  intros Q R statements name query w.
  rewrite run_outcome, first_outcome, all_outcome.
  destruct (sql_exec name query w) as [[cursor|message] w']; repeat split.
Qed.

(** ** Absent namespace binding *)

Lemma getShopifySessionsStub_unbound context shop :
  binding context = None -> getShopifySessionsStub context shop = None.
Proof. unfold getShopifySessionsStub. now intros ->. Qed.

Lemma getDurableObjectStub_unbound context instanceName :
  binding context = None -> getDurableObjectStub context instanceName = None.
Proof. unfold getDurableObjectStub. now intros ->. Qed.

Lemma getShopifySessionsStub_bound context shop :
  binding context <> None ->
  getShopifySessionsStub context shop
  = Some (StubOf (getShopifySessionInstanceName shop)).
Proof.
  unfold getShopifySessionsStub. now destruct (binding context) as [[]|].
Qed.

Lemma getDurableObjectStub_bound context instanceName :
  binding context <> None ->
  getDurableObjectStub context instanceName = Some (StubOf instanceName).
Proof.
  unfold getDurableObjectStub. now destruct (binding context) as [[]|].
Qed.

Lemma deleteSession_unbound context id w :
  binding context = None ->
  shopifySessionDb.deleteSession context id w = (Normal false, w).
Proof.
  intros Hb. unfold shopifySessionDb.deleteSession, try_catch.
  destruct (negb (truthy_opt_string (extractShopFromSessionId id)));
    [reflexivity|].
  now rewrite getShopifySessionsStub_unbound.
Qed.

(** C7: with the binding absent both routers return null and no adapter
    operation raises: [storeSession] and [deleteSession] return false,
    [deleteSessions] returns false on every non-empty list (and true on the
    empty one), [loadSession] returns undefined, [findSessionsByShop] the
    empty sequence, [loadDatabaseSettings] a record with [dbAvailable] false
    and an error string, and the update and clear operations
    [{success:false, error}]; the world is left untouched. *)
Theorem namespace_unavailable :
  forall (OnlineAccessInfo : Type) (J : JSON OnlineAccessInfo)
         (context : option Context),
    binding context = None ->
    (forall instanceName, getDurableObjectStub context instanceName = None)
    /\ (forall shop, getShopifySessionsStub context shop = None)
    /\ (forall (session : Session.t OnlineAccessInfo) w,
          shopifySessionDb.storeSession context session w = (Normal false, w))
    /\ (forall id w,
          shopifySessionDb.deleteSession context id w = (Normal false, w))
    /\ (forall id ids w,
          shopifySessionDb.deleteSessions context (id :: ids) w
          = (Normal false, w))
    /\ (forall w,
          shopifySessionDb.deleteSessions context [] w = (Normal true, w))
    /\ (forall id w,
          shopifySessionDb.loadSession (OnlineAccessInfo := OnlineAccessInfo)
            context id w = (Normal None, w))
    /\ (forall shop w,
          shopifySessionDb.findSessionsByShop
            (OnlineAccessInfo := OnlineAccessInfo) context shop w
          = (Normal [], w))
    /\ (forall config w,
          exists data,
            loadDatabaseSettings context config w = (Normal data, w)
            /\ DatabaseSettings.dbAvailable data = false
            /\ DatabaseSettings.error data
               = Some (instance_not_available
                         (DatabaseConfig.instanceName config)))
    /\ (forall dbKey isChecked w,
          exists message,
            updateDatabaseSetting context dbKey isChecked w
            = (Normal (UpdateResult.mk false (Some message) None None None), w))
    /\ (forall dbKey w,
          exists message,
            clearDatabaseSettings context dbKey w
            = (Normal (ClearResult.mk false (Some message) None None), w)).
Proof.
  intros OnlineAccessInfo J context Hb.
  pose proof (fun shop => getShopifySessionsStub_unbound context shop Hb) as Hs.
  pose proof (fun n => getDurableObjectStub_unbound context n Hb) as Hd.
  repeat split; try assumption.
  - intros session w.
    unfold shopifySessionDb.storeSession, try_catch. now rewrite Hs.
  - intros id w. now apply deleteSession_unbound.
  - intros id ids w.
    unfold shopifySessionDb.deleteSessions, try_catch. simpl.
    unfold bind. now rewrite deleteSession_unbound.
  - intros id w. unfold shopifySessionDb.loadSession, try_catch.
    destruct (negb (truthy_opt_string (extractShopFromSessionId id)));
      [reflexivity|].
    now rewrite Hs.
  - intros shop w.
    unfold shopifySessionDb.findSessionsByShop, try_catch. now rewrite Hs.
  - intros config w. unfold loadDatabaseSettings. rewrite Hd.
    eexists. repeat split.
  - intros dbKey isChecked w. unfold updateDatabaseSetting.
    destruct (find_config dbKey) as [config|]; [rewrite Hd|]; now eexists.
  - intros dbKey w. unfold clearDatabaseSettings.
    destruct (find_config dbKey) as [config|]; [rewrite Hd|]; now eexists.
Qed.

Lemma namespace_unavailable_witness :
  binding None = None
  /\ shopifySessionDb.storeSession None
       (sample_session "offline_my-shop.myshopify.com" "my-shop.myshopify.com" None)
       fresh_world
     = (Normal false, fresh_world)
  /\ shopifySessionDb.deleteSessions None
       ["offline_my-shop.myshopify.com"] fresh_world
     = (Normal false, fresh_world).
Proof.
  pose proof (namespace_unavailable SamplePayload sample_json None eq_refl)
    as (_ & _ & Hstore & _ & Hdel & _).
  split; [reflexivity|]. split; [apply Hstore | apply Hdel].
Defined.

(** With the binding absent, [deleteSessions] on the empty list returns
    true. *)
Lemma deleteSessions_unbound_empty :
  binding None = None
  /\ fst (shopifySessionDb.deleteSessions None [] fresh_world) = Normal true
  /\ fst (shopifySessionDb.deleteSessions None [] fresh_world) <> Normal false.
Proof. repeat split. discriminate. Qed.

(** ** Bulk deletion *)

Lemma filter_out_then_in {A} (p : A -> bool) (l : list A) :
  List.filter p (List.filter (fun r => negb (p r)) l) = [].
Proof.
  induction l as [|x l IH]; [reflexivity|].
  simpl. destruct (p x) eqn:Hx; simpl; [exact IH|].
  now rewrite Hx.
Qed.

Lemma instance_storage_insert name n st insts f c l :
  instance_storage n (mkWorld (<[name := st]> insts) f c l)
  = if decide (name = n) then st else default ∅ (insts !! n).
Proof.
  unfold instance_storage. simpl. rewrite lookup_insert.
  now case_decide.
Qed.

Lemma deleteSession_cases context id w :
  shopifySessionDb.deleteSession context id w =
  if negb (truthy_opt_string (extractShopFromSessionId id))
  then (Normal false, w)
  else
    match getShopifySessionsStub context
            (default "" (extractShopFromSessionId id)) with
    | None => (Normal false, w)
    | Some stub =>
        match sql_exec (stub_name stub)
                (DeleteSessionById SHOPIFY_SESSION_tableName id) w with
        | (Normal _, w') => (Normal true, w')
        | (Throw _, w') => (Normal false, w')
        end
    end.
Proof.
  unfold shopifySessionDb.deleteSession, try_catch.
  destruct (negb (truthy_opt_string (extractShopFromSessionId id)));
    [reflexivity|].
  destruct (getShopifySessionsStub context _) as [stub|]; [|reflexivity].
  unfold ShopifyStorage.run, try_catch, bind, ret, throw.
  destruct (sql_exec _ _ w) as [[cursor|message] w']; reflexivity.
Qed.

Lemma deleteSession_completes context id w :
  exists success w',
    shopifySessionDb.deleteSession context id w = (Normal success, w').
Proof.
  rewrite deleteSession_cases.
  destruct (negb _); [now eauto|].
  destruct (getShopifySessionsStub _ _); [|now eauto].
  destruct (sql_exec _ _ w) as [[?|?] ?]; eauto.
Qed.

(** A [DELETE ... WHERE id = ?] adds no row to any table of the instance,
    and when it goes through no row with that id is left in its table. *)
Lemma delete_step_rows table id st t r :
  In r (table_session_rows
          (snd (sessions_step (DeleteSessionById table id) st)) t) ->
  In r (table_session_rows st t).
Proof.
  unfold table_session_rows. simpl.
  destruct (st !! table) as [[rows|rows]|] eqn:E; simpl; auto.
  rewrite lookup_insert. case_decide as Ht; [subst t|auto].
  rewrite E. intros Hin. apply filter_In in Hin. tauto.
Qed.

Lemma delete_step_done table id st cursor :
  fst (sessions_step (DeleteSessionById table id) st) = Normal cursor ->
  List.filter (has_id id)
    (table_session_rows
       (snd (sessions_step (DeleteSessionById table id) st)) table) = [].
Proof.
  unfold table_session_rows. simpl.
  destruct (st !! table) as [[rows|rows]|] eqn:E; simpl; try discriminate.
  intros _. rewrite lookup_insert_eq. apply filter_out_then_in.
Qed.

Lemma sql_exec_delete_rows name table id w n t r :
  In r (session_rows n t
          (snd (sql_exec name (DeleteSessionById table id) w))) ->
  In r (session_rows n t w).
Proof.
  destruct (next_fault w) as [message|] eqn:Hf.
  - rewrite (sql_exec_faulted _ _ _ _ Hf). auto.
  - rewrite (sql_exec_through _ _ _ Hf). unfold session_rows. simpl.
    rewrite instance_storage_insert. case_decide as Hn; [subst n|auto].
    apply delete_step_rows.
Qed.

Lemma deleteSession_rows context id w n t r :
  In r (session_rows n t (snd (shopifySessionDb.deleteSession context id w))) ->
  In r (session_rows n t w).
Proof.
  rewrite deleteSession_cases.
  destruct (negb _); [auto|].
  destruct (getShopifySessionsStub _ _) as [stub|]; [|auto].
  pose proof (sql_exec_delete_rows (stub_name stub) SHOPIFY_SESSION_tableName
                id w n t r) as Hrows.
  destruct (sql_exec _ _ w) as [[?|?] ?]; exact Hrows.
Qed.

Lemma deleted_in_iff w id :
  deleted_in w id <->
  forall r,
    In r (session_rows
            (getShopifySessionInstanceName
               (default "" (extractShopFromSessionId id)))
            SHOPIFY_SESSION_tableName w) ->
    has_id id r = false.
Proof.
  unfold deleted_in.
  generalize (session_rows
                (getShopifySessionInstanceName
                   (default "" (extractShopFromSessionId id)))
                SHOPIFY_SESSION_tableName w) as rows.
  induction rows as [|x rows IH]; simpl.
  - split; [intros _ r []|reflexivity].
  - destruct (has_id id x) eqn:Hx.
    + split; [discriminate|]. intros Hall.
      specialize (Hall x (or_introl eq_refl)). congruence.
    + rewrite IH. split.
      * intros Hall r [<-|Hin]; auto.
      * intros Hall r Hin. apply Hall. now right.
Qed.

Lemma deleteSession_keeps_deleted context id w id' :
  deleted_in w id' ->
  deleted_in (snd (shopifySessionDb.deleteSession context id w)) id'.
Proof.
  rewrite !deleted_in_iff. intros Hall r Hin.
  apply Hall. eapply deleteSession_rows. exact Hin.
Qed.

Lemma getShopifySessionsStub_name context shop stub :
  getShopifySessionsStub context shop = Some stub ->
  stub_name stub = getShopifySessionInstanceName shop.
Proof.
  unfold getShopifySessionsStub.
  destruct (binding context); [|discriminate]. now intros [= <-].
Qed.

Lemma deleteSession_success context id w w' :
  shopifySessionDb.deleteSession context id w = (Normal true, w') ->
  sql_log w' = (sql_log w ++ [delete_entry id])%list /\ deleted_in w' id.
Proof.
  rewrite deleteSession_cases.
  destruct (negb _); [discriminate|].
  destruct (getShopifySessionsStub context _) as [stub|] eqn:Hstub;
    [|discriminate].
  rewrite (getShopifySessionsStub_name _ _ _ Hstub).
  destruct (next_fault w) as [message|] eqn:Hf.
  - rewrite (sql_exec_faulted _ _ _ _ Hf). discriminate.
  - rewrite (sql_exec_through _ _ _ Hf).
    destruct (fst (sql_step _ _)) as [cursor|message] eqn:Hstep;
      [|discriminate].
    intros [= <-]. split; [reflexivity|].
    unfold deleted_in, session_rows.
    rewrite instance_storage_insert. rewrite decide_True by reflexivity.
    eapply delete_step_done. exact Hstep.
Qed.

Lemma deleteSession_failure context id w w' :
  shopifySessionDb.deleteSession context id w = (Normal false, w') ->
  sql_log w' = sql_log w
  \/ sql_log w' = (sql_log w ++ [delete_entry id])%list.
Proof.
  rewrite deleteSession_cases.
  destruct (negb _); [intros [= <-]; now left|].
  destruct (getShopifySessionsStub context _) as [stub|] eqn:Hstub;
    [|intros [= <-]; now left].
  rewrite (getShopifySessionsStub_name _ _ _ Hstub).
  pose proof (sql_exec_log
                (getShopifySessionInstanceName
                   (default "" (extractShopFromSessionId id)))
                (DeleteSessionById SHOPIFY_SESSION_tableName id) w) as Hlog.
  destruct (sql_exec _ _ w) as [[?|?] ?]; [discriminate|].
  intros [= <-]. now right.
Qed.

Lemma deletes_in_order_log context ids w w' :
  deletes_in_order context ids w w' ->
  sql_log w' = (sql_log w ++ map delete_entry ids)%list.
Proof.
  induction 1 as [w|id rest w w1 w2 Hdel _ IH].
  - now rewrite app_nil_r.
  - apply deleteSession_success in Hdel as [Hlog _].
    rewrite IH, Hlog. now rewrite <- app_assoc.
Qed.

Lemma deletes_in_order_keep_deleted context ids w w' id :
  deletes_in_order context ids w w' -> deleted_in w id -> deleted_in w' id.
Proof.
  induction 1 as [w|id0 rest w w1 w2 Hdel _ IH]; [auto|].
  intros Hgone. apply IH.
  pose proof (deleteSession_keeps_deleted context id0 w id Hgone) as Hkeep.
  now rewrite Hdel in Hkeep.
Qed.

Lemma deletes_in_order_deleted context ids w w' :
  deletes_in_order context ids w w' -> Forall (deleted_in w') ids.
Proof.
  induction 1 as [w|id rest w w1 w2 Hdel Hrest IH]; constructor; [|exact IH].
  apply deleteSession_success in Hdel as [_ Hgone].
  eapply deletes_in_order_keep_deleted; eassumption.
Qed.

Lemma deleteSessions_loop_spec context ids w :
  exists success w',
    shopifySessionDb.deleteSessions_loop context ids w = (Normal success, w')
    /\ if success
       then deletes_in_order context ids w w'
       else exists pre failing post w1,
              ids = (pre ++ failing :: post)%list
              /\ deletes_in_order context pre w w1
              /\ shopifySessionDb.deleteSession context failing w1
                 = (Normal false, w').
Proof.
  revert w. induction ids as [|id rest IH]; intros w.
  - exists true, w. split; [reflexivity | constructor].
  - destruct (deleteSession_completes context id w) as (ok & w1 & Hdel).
    simpl. unfold bind. rewrite Hdel. destruct ok; simpl.
    + destruct (IH w1) as (success & w' & Hloop & Hspec).
      exists success, w'. split; [exact Hloop|].
      destruct success.
      * econstructor; eassumption.
      * destruct Hspec as (pre & failing & post & w2 & -> & Hpre & Hfail).
        exists (id :: pre), failing, post, w2.
        repeat split; [|exact Hfail]. econstructor; eassumption.
    + exists false, w1. split; [reflexivity|].
      exists [], id, rest, w. repeat split; [constructor | exact Hdel].
Qed.

(** C5: [deleteSessions] never raises; it returns true exactly when the
    deletions succeeded one after the other in list order, every id then
    being gone; otherwise it returns false at the first id whose deletion
    fails: the ids before it were deleted and stay deleted, the world is the
    one that failing attempt left, and the log shows one [DELETE] per id up
    to the failing one at most, none for the ids after it.  In particular,
    for [[a; b; c]] where deleting [b] fails, false is returned, [a] is
    deleted and nothing is issued for [c]. *)
Theorem deleteSessions_stops_at_first_failure :
  (forall (context : option Context) (ids : list string) (w : World),
     exists success w',
       shopifySessionDb.deleteSessions context ids w = (Normal success, w')
       /\ if success
          then deletes_in_order context ids w w'
               /\ Forall (deleted_in w') ids
               /\ sql_log w' = (sql_log w ++ map delete_entry ids)%list
          else exists pre failing post w1,
                 ids = (pre ++ failing :: post)%list
                 /\ deletes_in_order context pre w w1
                 /\ shopifySessionDb.deleteSession context failing w1
                    = (Normal false, w')
                 /\ Forall (deleted_in w') pre
                 /\ (sql_log w' = (sql_log w ++ map delete_entry pre)%list
                     \/ sql_log w'
                        = (sql_log w ++ map delete_entry pre
                           ++ [delete_entry failing])%list))
  /\ (forall (context : option Context) (a b c : string) (w w1 w2 : World),
        shopifySessionDb.deleteSession context a w = (Normal true, w1) ->
        shopifySessionDb.deleteSession context b w1 = (Normal false, w2) ->
        shopifySessionDb.deleteSessions context [a; b; c] w = (Normal false, w2)
        /\ deleted_in w2 a
        /\ (sql_log w2 = (sql_log w ++ [delete_entry a])%list
            \/ sql_log w2
               = (sql_log w ++ [delete_entry a; delete_entry b])%list)).
Proof.
  split.
  - intros context ids w.
    destruct (deleteSessions_loop_spec context ids w)
      as (success & w' & Hloop & Hspec).
    exists success, w'. split.
    + unfold shopifySessionDb.deleteSessions, try_catch. now rewrite Hloop.
    + destruct success.
      * repeat split; [exact Hspec | |].
        -- eapply deletes_in_order_deleted; eassumption.
        -- eapply deletes_in_order_log; eassumption.
      * destruct Hspec as (pre & failing & post & w1 & -> & Hpre & Hfail).
        exists pre, failing, post, w1. repeat split; try assumption.
        -- pose proof (deletes_in_order_deleted _ _ _ _ Hpre) as Hgone.
           eapply Forall_impl; [exact Hgone|]. intros id Hid.
           pose proof (deleteSession_keeps_deleted context failing w1 id Hid)
             as Hkeep.
           now rewrite Hfail in Hkeep.
        -- pose proof (deletes_in_order_log _ _ _ _ Hpre) as Hlog.
           destruct (deleteSession_failure _ _ _ _ Hfail) as [-> | ->];
             rewrite Hlog; [now left | right].
           now rewrite <- app_assoc.
  - intros context a b c w w1 w2 Ha Hb. split; [|split].
    + unfold shopifySessionDb.deleteSessions, try_catch.
      cbn [shopifySessionDb.deleteSessions_loop]. unfold bind.
      rewrite Ha. cbn [negb]. now rewrite Hb.
    + pose proof (deleteSession_success _ _ _ _ Ha) as [_ Hgone].
      pose proof (deleteSession_keeps_deleted context b w1 a Hgone) as Hkeep.
      now rewrite Hb in Hkeep.
    + pose proof (deleteSession_success _ _ _ _ Ha) as [Hlog _].
      destruct (deleteSession_failure _ _ _ _ Hb) as [-> | ->];
        rewrite Hlog; [now left | right].
      now rewrite <- app_assoc.
Qed.

(** ** Storing and loading sessions *)

Lemma filter_replaced {A} (p : A -> bool) (l : list A) (x : A) :
  p x = true ->
  List.filter p (List.filter (fun r => negb (p r)) l ++ [x]) = [x].
Proof.
  intros Hx. rewrite List.filter_app, filter_out_then_in. simpl.
  now rewrite Hx.
Qed.

Lemma initializeTable_completes {OnlineAccessInfo} `{JSON OnlineAccessInfo}
  context shop w :
  exists ok w',
    shopifySessionDb.initializeTable context shop w = (Normal ok, w').
Proof.
  unfold shopifySessionDb.initializeTable, try_catch.
  destruct (getShopifySessionsStub context shop) as [stub|]; [|now eauto].
  unfold ShopifyStorage.run, try_catch, bind, ret, throw.
  destruct (sql_exec _ _ w) as [[?|?] ?]; simpl; eauto.
Qed.

(** A session that [storeSession] accepted is the one row with its id in
    the sessions table of its shop's instance. *)
Lemma storeSession_accepted {OnlineAccessInfo} `{JSON OnlineAccessInfo}
  context (session : Session.t OnlineAccessInfo) w w1 :
  shopifySessionDb.storeSession context session w = (Normal true, w1) ->
  binding context <> None
  /\ List.filter (has_id (Session.id session))
       (session_rows (getShopifySessionInstanceName (Session.shop session))
          SHOPIFY_SESSION_tableName w1)
     = [shopifySessionDb.rowOfSession session].
Proof.
  unfold shopifySessionDb.storeSession, try_catch.
  destruct (getShopifySessionsStub context (Session.shop session))
    as [stub|] eqn:Hstub; [|discriminate].
  rewrite (getShopifySessionsStub_name _ _ _ Hstub).
  assert (Hbound : binding context <> None).
  { intros Hb. now rewrite getShopifySessionsStub_unbound in Hstub. }
  destruct (initializeTable_completes (OnlineAccessInfo := OnlineAccessInfo)
              context (Session.shop session) w)
    as (ok & wi & Hinit).
  unfold bind at 1. setoid_rewrite Hinit.
  unfold ShopifyStorage.run, try_catch, bind, ret, throw.
  destruct (next_fault wi) as [message|] eqn:Hf.
  - rewrite (sql_exec_faulted _ _ _ _ Hf). discriminate.
  - rewrite (sql_exec_through _ _ _ Hf).
    cbn [sql_step session_statements sessions_step].
    set (name := getShopifySessionInstanceName (Session.shop session)).
    destruct (instance_storage name wi !! SHOPIFY_SESSION_tableName)
      as [[rows|rows]|] eqn:E; simpl; try discriminate.
    intros [= <-]. split; [exact Hbound|].
    unfold session_rows, table_session_rows.
    rewrite instance_storage_insert, decide_True by reflexivity.
    rewrite lookup_insert_eq.
    apply filter_replaced. unfold has_id. apply String.eqb_refl.
Qed.

(** What [loadSession] does once the shop is extracted, the stub resolved
    and the read not faulted: it decodes the first row with that id. *)
Lemma loadSession_found {OnlineAccessInfo} `{JSON OnlineAccessInfo}
  context id shop w row rest :
  binding context <> None ->
  extractShopFromSessionId id = Some shop ->
  truthy_string shop = true ->
  next_fault w = None ->
  List.filter (has_id id)
    (session_rows (getShopifySessionInstanceName shop)
       SHOPIFY_SESSION_tableName w) = row :: rest ->
  exists w',
    sql_log w'
    = (sql_log w
       ++ [(getShopifySessionInstanceName shop,
            OnSessions (SelectSessionById SHOPIFY_SESSION_tableName id))])%list
    /\ forall session : Session.t OnlineAccessInfo,
         decodes row session ->
         shopifySessionDb.loadSession context id w = (Normal (Some session), w').
Proof.
  intros Hbound Hshop Htruthy Hf Hrows.
  eexists. split; cycle 1.
  - intros session Hdec.
    unfold shopifySessionDb.loadSession, try_catch.
    rewrite Hshop. cbn [truthy_opt_string]. rewrite Htruthy.
    cbn [negb]. rewrite (getShopifySessionsStub_bound _ _ Hbound).
    cbn [stub_name]. unfold bind at 1.
    rewrite first_outcome, (sql_exec_through _ _ _ Hf).
    cbn [sql_step session_statements sessions_step].
    unfold session_rows, table_session_rows in Hrows.
    change (default "" (Some shop)) with shop.
    destruct (instance_storage (getShopifySessionInstanceName shop) w
                !! SHOPIFY_SESSION_tableName) as [[rows|rows]|] eqn:E;
      try discriminate Hrows.
    cbn [fst snd toArray]. rewrite Hrows.
    cbn [head FirstResult.error FirstResult.result truthy_opt_string].
    unfold bind. rewrite Hdec. reflexivity.
  - reflexivity.
Qed.

Lemma rowOfSession_decodes {OnlineAccessInfo} `{JSONLaws OnlineAccessInfo}
  (session : Session.t OnlineAccessInfo) :
  Session.expires session <> Some (new_Date 0) ->
  decodes (shopifySessionDb.rowOfSession session) session.
Proof.
  intros Hexp w. destruct session as [i sh st on sc tok exp info].
  unfold shopifySessionDb.sessionOfRow, shopifySessionDb.rowOfSession.
  cbn [Session.id Session.shop Session.state Session.isOnline Session.scope
       Session.accessToken Session.expires Session.onlineAccessInfo
       SessionRow.id SessionRow.shop SessionRow.state SessionRow.isOnline
       SessionRow.scope SessionRow.accessToken SessionRow.expires
       SessionRow.onlineAccessInfo] in *.
  assert (Hon : negb ((if on then 1 else 0) =? 0) = on) by now destruct on.
  assert (Hex : match match exp with
                      | Some d => Some (getTime d)
                      | None => None
                      end with
                | Some ms => if ms =? 0 then None else Some (new_Date ms)
                | None => None
                end = exp).
  { destruct exp as [[t]|]; [|reflexivity]. simpl.
    destruct (Z.eqb_spec t 0) as [->|_]; [now elim Hexp | reflexivity]. }
  rewrite Hon, Hex.
  destruct info as [info|]; [|reflexivity].
  now rewrite stringify_truthy, parse_stringify.
Qed.

#[export] Instance sample_json_laws : JSONLaws SamplePayload.
Proof. split; intros []; reflexivity. Qed.

(** C1: a session accepted by [storeSession], whose id yields a non-empty
    shop routed to the instance of its own shop, and whose [expires] is
    absent or a non-zero instant, is returned by the following
    [loadSession] of its id equal in every field, provided the read is not
    faulted and the payload codec is lawful. *)
Theorem storeSession_loadSession_roundtrip :
  forall (OnlineAccessInfo : Type) (J : JSON OnlineAccessInfo)
         (L : JSONLaws OnlineAccessInfo)
         (context : option Context) (session : Session.t OnlineAccessInfo)
         (shop : string) (w w1 : World),
    shopifySessionDb.storeSession context session w = (Normal true, w1) ->
    extractShopFromSessionId (Session.id session) = Some shop ->
    truthy_string shop = true ->
    getShopifySessionInstanceName shop
    = getShopifySessionInstanceName (Session.shop session) ->
    Session.expires session <> Some (new_Date 0) ->
    next_fault w1 = None ->
    exists w2,
      shopifySessionDb.loadSession context (Session.id session) w1
      = (Normal (Some session), w2).
Proof.
  intros OnlineAccessInfo J L context session shop w w1
    Hstore Hshop Htruthy Hroute Hexp Hf.
  apply storeSession_accepted in Hstore as [Hbound Hrows].
  rewrite <- Hroute in Hrows.
  destruct (loadSession_found context (Session.id session) shop w1 _ []
              Hbound Hshop Htruthy Hf Hrows) as (w2 & _ & Hload).
  exists w2. apply Hload. now apply rowOfSession_decodes.
Qed.

Lemma storeSession_loadSession_roundtrip_witness :
  exists w2,
    shopifySessionDb.loadSession bound_context "offline_my-shop.myshopify.com"
      (snd (shopifySessionDb.storeSession bound_context
              (sample_session "offline_my-shop.myshopify.com"
                 "my-shop.myshopify.com" (Some (new_Date 1700000000000)))
              fresh_world))
    = (Normal
         (Some (sample_session "offline_my-shop.myshopify.com"
                  "my-shop.myshopify.com" (Some (new_Date 1700000000000)))),
       w2).
Proof.
  apply (storeSession_loadSession_roundtrip SamplePayload sample_json
           sample_json_laws bound_context
           (sample_session "offline_my-shop.myshopify.com"
              "my-shop.myshopify.com" (Some (new_Date 1700000000000)))
           "my-shop.myshopify.com" fresh_world).
  - vm_compute. reflexivity.
  - reflexivity.
  - reflexivity.
  - reflexivity.
  - discriminate.
  - vm_compute. reflexivity.
Defined.

(** The round trip fails on two accepted sessions: one expiring at the
    epoch instant comes back without [expires], and one whose id holds no
    shop is not found at all. *)
Lemma storeSession_loadSession_roundtrip_fails :
  (let session :=
     sample_session "offline_my-shop.myshopify.com" "my-shop.myshopify.com"
       (Some (new_Date 0)) in
   let stored := shopifySessionDb.storeSession bound_context session fresh_world in
   let loaded :=
     fst (shopifySessionDb.loadSession bound_context (Session.id session)
            (snd stored)) in
   fst stored = Normal true
   /\ loaded
      = Normal (Some (sample_session "offline_my-shop.myshopify.com"
                        "my-shop.myshopify.com" None))
   /\ loaded <> Normal (Some session))
  /\ (let session :=
        sample_session "malformed" "my-shop.myshopify.com" None in
      let stored := shopifySessionDb.storeSession bound_context session fresh_world in
      let loaded :=
        fst (shopifySessionDb.loadSession bound_context (Session.id session)
               (snd stored)) in
      fst stored = Normal true
      /\ loaded = Normal None
      /\ loaded <> Normal (Some session)).
Proof.
  split; vm_compute; repeat split; discriminate.
Qed.

(** ** Decoding of falsy columns *)

Lemma sessionOfRow_falsy {OnlineAccessInfo} `{JSON OnlineAccessInfo}
  row (session : Session.t OnlineAccessInfo) w w' :
  shopifySessionDb.sessionOfRow row w = (Normal session, w') ->
  (falsy_expires row -> Session.expires session = None)
  /\ (falsy_onlineAccessInfo row -> Session.onlineAccessInfo session = None).
Proof.
  unfold shopifySessionDb.sessionOfRow, falsy_expires, falsy_onlineAccessInfo,
    ret, throw.
  destruct (SessionRow.onlineAccessInfo row) as [text|].
  - destruct (truthy_string text) eqn:Ht.
    + destruct (JSON_parse text); [|discriminate].
      intros [= <- <-]. simpl. split.
      * now intros [-> | ->].
      * intros [[= ->]|[=]]. discriminate Ht.
    + intros [= <- <-]. simpl. split; [now intros [-> | ->] | reflexivity].
  - intros [= <- <-]. simpl. split; [now intros [-> | ->] | reflexivity].
Qed.

Lemma decodes_falsy {OnlineAccessInfo} `{JSON OnlineAccessInfo}
  row (session : Session.t OnlineAccessInfo) :
  decodes row session ->
  (falsy_expires row -> Session.expires session = None)
  /\ (falsy_onlineAccessInfo row -> Session.onlineAccessInfo session = None).
Proof.
  intros Hdec. eapply sessionOfRow_falsy. apply (Hdec fresh_world).
Qed.

(** A row whose payload column is falsy is decoded without any parsing. *)
Lemma falsy_onlineAccessInfo_decodes {OnlineAccessInfo} `{JSON OnlineAccessInfo}
  row :
  falsy_onlineAccessInfo row ->
  exists session : Session.t OnlineAccessInfo,
    decodes row session
    /\ Session.id session = SessionRow.id row
    /\ Session.onlineAccessInfo session = None.
Proof.
  intros Hfalsy. eexists. split; [|split].
  - intros w. unfold shopifySessionDb.sessionOfRow.
    destruct Hfalsy as [-> | ->]; reflexivity.
  - reflexivity.
  - reflexivity.
Qed.

Lemma mapM_decodes {OnlineAccessInfo} `{JSON OnlineAccessInfo}
  rows (sessions : list (Session.t OnlineAccessInfo)) w :
  Forall2 decodes rows sessions ->
  mapM shopifySessionDb.sessionOfRow rows w = (Normal sessions, w).
Proof.
  induction 1 as [|row session rows sessions Hdec _ IH]; [reflexivity|].
  simpl. unfold bind. rewrite Hdec, IH. reflexivity.
Qed.

Lemma findSessionsByShop_found {OnlineAccessInfo} `{JSON OnlineAccessInfo}
  context shop w (sessions : list (Session.t OnlineAccessInfo)) :
  binding context <> None ->
  next_fault w = None ->
  Forall2 decodes
    (List.filter (has_shop shop)
       (session_rows (getShopifySessionInstanceName shop)
          SHOPIFY_SESSION_tableName w))
    sessions ->
  fst (shopifySessionDb.findSessionsByShop context shop w) = Normal sessions.
Proof.
  intros Hbound Hf Hdec.
  unfold shopifySessionDb.findSessionsByShop, try_catch.
  rewrite (getShopifySessionsStub_bound _ _ Hbound). cbn [stub_name].
  unfold bind. rewrite all_outcome, (sql_exec_through _ _ _ Hf).
  cbn [sql_step session_statements sessions_step].
  unfold session_rows, table_session_rows in Hdec.
  destruct (instance_storage (getShopifySessionInstanceName shop) w
              !! SHOPIFY_SESSION_tableName) as [[rows|rows]|] eqn:E;
    cbn [fst snd toArray AllResult.error AllResult.results truthy_opt_string
         truthy_string String.eqb negb default].
  - now rewrite (mapM_decodes _ _ _ Hdec).
  - inversion Hdec; subst. reflexivity.
  - inversion Hdec; subst. reflexivity.
Qed.

(** C10: wherever [loadSession] and [findSessionsByShop] decode a stored
    row, a row whose [expires] is 0 (or null) gives a session with
    [expires] unset, and a row whose [onlineAccessInfo] is the empty text (or
    null) gives a session with [onlineAccessInfo] unset; such a row is
    decoded without parsing anything. *)
Theorem falsy_columns_left_unset :
  forall (OnlineAccessInfo : Type) (J : JSON OnlineAccessInfo)
         (context : option Context) (w : World),
    binding context <> None ->
    next_fault w = None ->
    (forall id shop row rest (session : Session.t OnlineAccessInfo),
       extractShopFromSessionId id = Some shop ->
       truthy_string shop = true ->
       List.filter (has_id id)
         (session_rows (getShopifySessionInstanceName shop)
            SHOPIFY_SESSION_tableName w) = row :: rest ->
       decodes row session ->
       fst (shopifySessionDb.loadSession context id w) = Normal (Some session)
       /\ (falsy_expires row -> Session.expires session = None)
       /\ (falsy_onlineAccessInfo row ->
           Session.onlineAccessInfo session = None))
    /\ (forall shop (sessions : list (Session.t OnlineAccessInfo)),
          Forall2 decodes
            (List.filter (has_shop shop)
               (session_rows (getShopifySessionInstanceName shop)
                  SHOPIFY_SESSION_tableName w))
            sessions ->
          fst (shopifySessionDb.findSessionsByShop context shop w)
          = Normal sessions
          /\ Forall2
               (fun row session =>
                  (falsy_expires row -> Session.expires session = None)
                  /\ (falsy_onlineAccessInfo row ->
                      Session.onlineAccessInfo session = None))
               (List.filter (has_shop shop)
                  (session_rows (getShopifySessionInstanceName shop)
                     SHOPIFY_SESSION_tableName w))
               sessions)
    /\ (forall row,
          falsy_onlineAccessInfo row ->
          exists session : Session.t OnlineAccessInfo,
            decodes row session
            /\ Session.id session = SessionRow.id row
            /\ Session.onlineAccessInfo session = None).
Proof.
  intros OnlineAccessInfo J context w Hbound Hf. split; [|split].
  - intros id shop row rest session Hshop Htruthy Hrows Hdec. split.
    + destruct (loadSession_found context id shop w row rest
                  Hbound Hshop Htruthy Hf Hrows) as (w' & _ & Hload).
      now rewrite (Hload _ Hdec).
    + now apply decodes_falsy.
  - intros shop sessions Hdec. split.
    + now apply findSessionsByShop_found.
    + eapply Forall2_impl; [exact Hdec|]. intros row session Hrow.
      now apply decodes_falsy.
  - intros row Hfalsy. now apply falsy_onlineAccessInfo_decodes.
Qed.

Lemma falsy_columns_left_unset_witness :
  fst (shopifySessionDb.loadSession bound_context
         "offline_my-shop.myshopify.com" world_with_epoch_row)
  = Normal (Some (Session.mk "offline_my-shop.myshopify.com"
                    "my-shop.myshopify.com" "state-1" true "read_products"
                    "shpat_1" None (None : option SamplePayload)))
  /\ fst (shopifySessionDb.findSessionsByShop bound_context
            "my-shop.myshopify.com" world_with_epoch_row)
     = Normal [Session.mk "offline_my-shop.myshopify.com"
                 "my-shop.myshopify.com" "state-1" true "read_products"
                 "shpat_1" None (None : option SamplePayload)].
Proof.
  assert (Hbound : binding bound_context <> None) by discriminate.
  assert (Hf : next_fault world_with_epoch_row = None) by reflexivity.
  assert (Hdec : decodes epoch_row
                   (Session.mk "offline_my-shop.myshopify.com"
                      "my-shop.myshopify.com" "state-1" true "read_products"
                      "shpat_1" None (None : option SamplePayload)))
    by (intros w; reflexivity).
  destruct (falsy_columns_left_unset SamplePayload sample_json bound_context
              world_with_epoch_row Hbound Hf) as (Hload & Hfind & _).
  split.
  - apply (Hload "offline_my-shop.myshopify.com" "my-shop.myshopify.com"
             epoch_row []); [reflexivity | reflexivity | | exact Hdec].
    vm_compute. reflexivity.
  - apply Hfind. vm_compute. constructor; [exact Hdec | constructor].
Defined.

(** ** Loading settings: the single retry *)

Lemma getAllSettings_outcome stub tableName w :
  getAllSettings (Some stub) tableName w =
  match sql_exec (stub_name stub) (SelectAllSettings tableName) w with
  | (Normal cursor, w') => (Normal (toArray cursor), w')
  | (Throw message, w') =>
      if truthy_string message then (Throw message, w') else (Normal [], w')
  end.
Proof.
  unfold getAllSettings, try_catch, bind. rewrite all_outcome.
  destruct (sql_exec _ _ w) as [[cursor|message] w']; [reflexivity|].
  cbn [AllResult.error AllResult.results truthy_opt_string].
  now destruct (truthy_string message).
Qed.

Lemma createTableIfNotExists_outcome stub tableName schema w :
  createTableIfNotExists (Some stub) tableName schema w =
  match sql_exec (stub_name stub) (CreateTableIfNotExists tableName schema) w with
  | (Normal _, w') => (Normal true, w')
  | (Throw message, w') =>
      (Throw (or_else (Some message) "Failed to create table"), w')
  end.
Proof.
  unfold createTableIfNotExists, try_catch, bind. rewrite run_outcome.
  now destruct (sql_exec _ _ w) as [[cursor|message] w'].
Qed.

Lemma getAllSettings_log stub tableName w :
  sql_log (snd (getAllSettings (Some stub) tableName w))
  = (sql_log w ++ [(stub_name stub, OnSettings (SelectAllSettings tableName))])%list.
Proof.
  rewrite getAllSettings_outcome.
  pose proof (sql_exec_log (stub_name stub) (SelectAllSettings tableName) w)
    as Hlog.
  destruct (sql_exec _ _ w) as [[cursor|message] w']; [exact Hlog|].
  now destruct (truthy_string message).
Qed.

Lemma createTableIfNotExists_log stub tableName schema w :
  sql_log (snd (createTableIfNotExists (Some stub) tableName schema w))
  = (sql_log w
     ++ [(stub_name stub, OnSettings (CreateTableIfNotExists tableName schema))])%list.
Proof.
  rewrite createTableIfNotExists_outcome.
  pose proof (sql_exec_log (stub_name stub)
                (CreateTableIfNotExists tableName schema) w) as Hlog.
  now destruct (sql_exec _ _ w) as [[cursor|message] w'].
Qed.

(** A read-all that raises carries the message of the storage fault. *)
Lemma getAllSettings_faulted stub tableName w message :
  next_fault w = Some message ->
  truthy_string message = true ->
  fst (getAllSettings (Some stub) tableName w) = Throw message.
Proof.
  intros Hf Ht. rewrite getAllSettings_outcome, (sql_exec_faulted _ _ _ _ Hf).
  now rewrite Ht.
Qed.

(** The control flow of [loadDatabaseSettings] in terms of the outcomes of
    its helper calls, with the statements each path issues. *)
Lemma loadDatabaseSettings_flow :
  forall (context : option Context) (config : DatabaseConfig.t) (w : World),
    binding context <> None ->
    let stub := Some (StubOf (DatabaseConfig.instanceName config)) in
    let tableName := DatabaseConfig.tableName config in
    exists data w',
      loadDatabaseSettings context config w = (Normal data, w')
      /\ match getAllSettings stub tableName w with
         | (Normal rows, w1) =>
             data = loaded config (checkbox_checked config rows) rows
             /\ w' = w1
             /\ sql_log w' = (sql_log w ++ [read_all_entry config])%list
         | (Throw message, w1) =>
             if table_missing message
             then
               match createTableIfNotExists stub tableName SettingsSchema w1 with
               | (Throw retryMessage, w2) =>
                   data = unavailable config retryMessage
                   /\ w' = w2
                   /\ sql_log w'
                      = (sql_log w
                         ++ [read_all_entry config; create_entry config])%list
               | (Normal _, w2) =>
                   match getAllSettings stub tableName w2 with
                   | (Normal rows, w3) =>
                       data = loaded config false rows /\ w' = w3
                   | (Throw retryMessage, w3) =>
                       data = unavailable config retryMessage /\ w' = w3
                   end
                   /\ sql_log w'
                      = (sql_log w
                         ++ [read_all_entry config; create_entry config;
                             read_all_entry config])%list
               end
             else
               data = unavailable config message
               /\ w' = w1
               /\ sql_log w' = (sql_log w ++ [read_all_entry config])%list
         end.
Proof.
  intros context config w Hbound stub tableName.
  unfold loadDatabaseSettings.
  rewrite (getDurableObjectStub_bound _ _ Hbound). fold stub tableName.
  unfold try_catch at 1. unfold bind at 1.
  pose proof (getAllSettings_log (StubOf (DatabaseConfig.instanceName config))
                tableName w) as Hlog1.
  fold stub in Hlog1.
  destruct (getAllSettings stub tableName w) as [[rows|message] w1].
  - eexists _, _. split; [reflexivity|]. repeat split. exact Hlog1.
  - destruct (table_missing message).
    + unfold try_catch at 1. unfold bind at 1.
      pose proof (createTableIfNotExists_log
                    (StubOf (DatabaseConfig.instanceName config))
                    tableName SettingsSchema w1) as Hlog2.
      fold stub in Hlog2.
      destruct (createTableIfNotExists stub tableName SettingsSchema w1)
        as [[created|retryMessage] w2].
      * unfold bind at 1.
        pose proof (getAllSettings_log
                      (StubOf (DatabaseConfig.instanceName config))
                      tableName w2) as Hlog3.
        fold stub in Hlog3.
        assert (Hlog : sql_log (snd (getAllSettings stub tableName w2))
                       = (sql_log w ++ [read_all_entry config;
                                        create_entry config;
                                        read_all_entry config])%list).
        { rewrite Hlog3. simpl in Hlog2, Hlog1. rewrite Hlog2, Hlog1.
          now rewrite <- !app_assoc. }
        destruct (getAllSettings stub tableName w2) as [[rows|retryMessage] w3];
          eexists _, _; (split; [reflexivity|]); repeat split; exact Hlog.
      * eexists _, _. split; [reflexivity|]. repeat split.
        simpl in Hlog2, Hlog1. rewrite Hlog2, Hlog1.
        now rewrite <- !app_assoc.
    + eexists _, _. split; [reflexivity|]. repeat split. exact Hlog1.
Qed.


(** C3: [loadDatabaseSettings] never raises.  A read-all that succeeds is
    returned as it is, after one read.  A read-all that fails is retried
    only when its message contains "no such table" or "does not exist":
    the table is created and the rows are read one more time, and are
    returned with no error; when the creation or that second read fails,
    its message is the returned error and nothing more is attempted.  A
    failure with any other message is the returned error after the one
    read: so is the message of a storage fault that hits the read and
    matches neither pattern.  The log shows one read, or a read, the
    creation and at most one further read. *)
Theorem loadDatabaseSettings_single_retry :
  forall (context : option Context) (config : DatabaseConfig.t) (w : World),
    binding context <> None ->
    let stub := Some (StubOf (DatabaseConfig.instanceName config)) in
    let tableName := DatabaseConfig.tableName config in
    exists data w',
      loadDatabaseSettings context config w = (Normal data, w')
      /\ match getAllSettings stub tableName w with
         | (Normal rows, w1) =>
             data = loaded config (checkbox_checked config rows) rows
             /\ w' = w1
             /\ sql_log w' = (sql_log w ++ [read_all_entry config])%list
         | (Throw message, w1) =>
             if table_missing message
             then
               match createTableIfNotExists stub tableName SettingsSchema w1 with
               | (Throw retryMessage, w2) =>
                   data = unavailable config retryMessage
                   /\ w' = w2
                   /\ sql_log w'
                      = (sql_log w
                         ++ [read_all_entry config; create_entry config])%list
               | (Normal _, w2) =>
                   match getAllSettings stub tableName w2 with
                   | (Normal rows, w3) =>
                       data = loaded config false rows /\ w' = w3
                   | (Throw retryMessage, w3) =>
                       data = unavailable config retryMessage /\ w' = w3
                   end
                   /\ sql_log w'
                      = (sql_log w
                         ++ [read_all_entry config; create_entry config;
                             read_all_entry config])%list
               end
             else
               data = unavailable config message
               /\ w' = w1
               /\ sql_log w' = (sql_log w ++ [read_all_entry config])%list
         end
      /\ (forall message,
            next_fault w = Some message ->
            truthy_string message = true ->
            table_missing message = false ->
            data = unavailable config message
            /\ DatabaseSettings.dbAvailable data = false
            /\ DatabaseSettings.error data = Some message).
Proof.
  intros context config w Hbound stub tableName.
  destruct (loadDatabaseSettings_flow context config w Hbound)
    as (data & w' & Hload & Hflow).
  exists data, w'. split; [exact Hload|]. split; [exact Hflow|].
  intros message Hf Htruthy Hmiss. fold stub tableName in Hflow.
  unfold stub in Hflow.
  rewrite getAllSettings_outcome, (sql_exec_faulted _ _ _ _ Hf) in Hflow.
  rewrite Htruthy, Hmiss in Hflow. destruct Hflow as (-> & _).
  repeat split.
Qed.

Lemma loadDatabaseSettings_single_retry_witness :
  let config :=
    DatabaseConfig.mk "DB1" "Primary Database" "database-1" "settings"
      "test_checkbox_db1" in
  exists w',
    loadDatabaseSettings bound_context config fresh_world
    = (Normal (loaded config false []), w')
    /\ sql_log w'
       = [read_all_entry config; create_entry config; read_all_entry config]
    /\ setting_rows "database-1" "settings" w' = []
    /\ instance_storage "database-1" w' !! "settings" = Some (SettingsTable []).
Proof.
  intros config.
  assert (Hbound : binding bound_context <> None) by discriminate.
  destruct (loadDatabaseSettings_single_retry bound_context config fresh_world
              Hbound) as (data & w' & Hload & Hspec).
  destruct Hspec as [Hspec _].
  vm_compute in Hspec. destruct Hspec as [[-> ->] _].
  eexists. split; [exact Hload|]. vm_compute. repeat split.
Defined.

(** A second consecutive fault is reported, not retried: the read fails
    for a missing table, the table is created, the second read is hit by
    an outage. *)
Example loadDatabaseSettings_second_fault :
  let config :=
    DatabaseConfig.mk "DB1" "Primary Database" "database-1" "settings"
      "test_checkbox_db1" in
  let outcome :=
    loadDatabaseSettings bound_context config
      (facing [None; None; Some "disk I/O error"] fresh_world) in
  fst outcome = Normal (unavailable config "disk I/O error")
  /\ sql_log (snd outcome)
     = [read_all_entry config; create_entry config; read_all_entry config].
Proof. vm_compute. split; reflexivity. Qed.

(** ** Upsert of a setting *)

Lemma updateSetting_outcome stub tableName key value w :
  updateSetting (Some stub) tableName key value w =
  match sql_exec (stub_name stub)
          (InsertOrReplaceSetting tableName key value (clock w)) w with
  | (Normal _, w') => (Normal true, w')
  | (Throw message, w') =>
      (Throw (or_else (Some message) "Failed to update setting"), w')
  end.
Proof.
  unfold updateSetting, try_catch, bind, Date_now. rewrite run_outcome.
  now destruct (sql_exec _ _ w) as [[cursor|message] w'].
Qed.

(** A write that went through replaced the rows of its key by one row:
    the value written and the clock reading of the write. *)
Lemma updateSetting_written stub tableName key value w w' :
  updateSetting (Some stub) tableName key value w = (Normal true, w') ->
  exists rows,
    instance_storage (stub_name stub) w !! tableName = Some (SettingsTable rows)
    /\ instance_storage (stub_name stub) w' !! tableName
       = Some (SettingsTable
                 (List.filter (fun r => negb (has_key key r)) rows
                  ++ [Setting.mk key value (clock w)])%list).
Proof.
  rewrite updateSetting_outcome.
  destruct (next_fault w) as [message|] eqn:Hf.
  - rewrite (sql_exec_faulted _ _ _ _ Hf). discriminate.
  - rewrite (sql_exec_through _ _ _ Hf).
    cbn [sql_step setting_statements settings_step].
    destruct (instance_storage (stub_name stub) w !! tableName)
      as [[rows|rows]|] eqn:E; simpl; try discriminate.
    intros [= <-]. exists rows. split; [reflexivity|].
    rewrite instance_storage_insert, decide_True by reflexivity.
    now rewrite lookup_insert_eq.
Qed.

Lemma updateSetting_one_row stub tableName key value w w' :
  updateSetting (Some stub) tableName key value w = (Normal true, w') ->
  List.filter (has_key key) (setting_rows (stub_name stub) tableName w')
  = [Setting.mk key value (clock w)].
Proof.
  intros Hupd. apply updateSetting_written in Hupd as (rows & _ & Hrows).
  unfold setting_rows, table_setting_rows. rewrite Hrows.
  apply filter_replaced. unfold has_key. apply String.eqb_refl.
Qed.

Lemma updateSetting_through stub tableName key value w rows :
  next_fault w = None ->
  instance_storage (stub_name stub) w !! tableName = Some (SettingsTable rows) ->
  exists w',
    updateSetting (Some stub) tableName key value w = (Normal true, w')
    /\ faults w' = tl (faults w).
Proof.
  intros Hf Htable. rewrite updateSetting_outcome, (sql_exec_through _ _ _ Hf).
  cbn [sql_step setting_statements settings_step]. rewrite Htable.
  eexists. split; reflexivity.
Qed.

(** A read-all that is not faulted returns the rows of the table in
    descending [updated_at] order and leaves them as they are. *)
Lemma getAllSettings_snapshot stub tableName w rows :
  next_fault w = None ->
  instance_storage (stub_name stub) w !! tableName = Some (SettingsTable rows) ->
  exists w',
    getAllSettings (Some stub) tableName w
    = (Normal (order_by_updated_at_desc rows), w')
    /\ setting_rows (stub_name stub) tableName w' = rows.
Proof.
  intros Hf Htable. rewrite getAllSettings_outcome, (sql_exec_through _ _ _ Hf).
  cbn [sql_step setting_statements settings_step]. rewrite Htable.
  eexists. split; [reflexivity|].
  unfold setting_rows, table_setting_rows.
  rewrite instance_storage_insert, decide_True by reflexivity.
  cbn [snd]. now rewrite Htable.
Qed.

Lemma insert_desc_perm r l : Permutation (insert_desc r l) (r :: l).
Proof.
  induction l as [|x l IH]; simpl; [reflexivity|].
  destruct (Setting.updated_at x <=? Setting.updated_at r); [reflexivity|].
  rewrite IH. apply perm_swap.
Qed.

Lemma order_by_updated_at_desc_perm l :
  Permutation (order_by_updated_at_desc l) l.
Proof.
  induction l as [|x l IH]; simpl; [reflexivity|].
  rewrite insert_desc_perm. now constructor.
Qed.

Lemma filter_perm {A} (p : A -> bool) (l l' : list A) :
  Permutation l l' -> Permutation (List.filter p l) (List.filter p l').
Proof.
  induction 1 as [|x l l' _ IH|x y l|l l' l'' _ IH1 _ IH2]; simpl.
  - reflexivity.
  - destruct (p x); [now constructor | exact IH].
  - destruct (p x), (p y); try reflexivity. apply perm_swap.
  - now rewrite IH1.
Qed.

(** The snapshot holds, for a key, the rows the table holds for it. *)
Lemma snapshot_one_row key rows row :
  List.filter (has_key key) rows = [row] ->
  List.filter (has_key key) (order_by_updated_at_desc rows) = [row].
Proof.
  intros Hone.
  pose proof (filter_perm (has_key key) _ _ (order_by_updated_at_desc_perm rows))
    as Hperm.
  rewrite Hone in Hperm. symmetry in Hperm.
  now apply Permutation_singleton_l in Hperm.
Qed.

(** C6: [updateSetting] is an upsert stamped by the clock: after two writes
    of the same key, the second at clock reading [t2], the table holds one
    row for the key, with the second value and [t2]; the stamp is the
    clock reading of the write, whatever the caller passes.  A successful
    [updateDatabaseSetting] is such a write followed by a read-all whose
    rows it returns; when that read is not faulted they are the rows of
    the table, newest first, with the one row just written for the key.
    With the binding present, the settings table in place and no outage
    scheduled, [updateDatabaseSetting] does succeed, with that snapshot. *)
Theorem updateSetting_upsert :
  (forall stub tableName key value1 value2 t2 w0 w1 w2,
     updateSetting (Some stub) tableName key value1 w0 = (Normal true, w1) ->
     updateSetting (Some stub) tableName key value2 (at_time t2 w1)
     = (Normal true, w2) ->
     List.filter (has_key key) (setting_rows (stub_name stub) tableName w1)
     = [Setting.mk key value1 (clock w0)]
     /\ List.filter (has_key key) (setting_rows (stub_name stub) tableName w2)
        = [Setting.mk key value2 t2])
  /\ (forall context dbKey isChecked w result w',
        updateDatabaseSetting context dbKey isChecked w = (Normal result, w') ->
        UpdateResult.success result = true ->
        exists config w1 rows,
          find_config dbKey = Some config
          /\ updateSetting (Some (StubOf (DatabaseConfig.instanceName config)))
               (DatabaseConfig.tableName config)
               (DatabaseConfig.settingKey config)
               (if isChecked then "true" else "false") w
             = (Normal true, w1)
          /\ getAllSettings (Some (StubOf (DatabaseConfig.instanceName config)))
               (DatabaseConfig.tableName config) w1
             = (Normal rows, w')
          /\ UpdateResult.allSettings result = Some rows
          /\ (next_fault w1 = None ->
              rows
              = order_by_updated_at_desc
                  (setting_rows (DatabaseConfig.instanceName config)
                     (DatabaseConfig.tableName config) w')
              /\ List.filter (has_key (DatabaseConfig.settingKey config)) rows
                 = [Setting.mk (DatabaseConfig.settingKey config)
                      (if isChecked then "true" else "false") (clock w)]))
  /\ (forall context dbKey config isChecked w rows,
        binding context <> None ->
        find_config dbKey = Some config ->
        faults w = [] ->
        instance_storage (DatabaseConfig.instanceName config) w
          !! DatabaseConfig.tableName config = Some (SettingsTable rows) ->
        exists w',
          updateDatabaseSetting context dbKey isChecked w
          = (Normal
               (UpdateResult.mk true None (Some dbKey) (Some isChecked)
                  (Some (order_by_updated_at_desc
                           (List.filter
                              (fun r =>
                                 negb (has_key (DatabaseConfig.settingKey config) r))
                              rows
                            ++ [Setting.mk (DatabaseConfig.settingKey config)
                                  (if isChecked then "true" else "false")
                                  (clock w)])%list))),
             w')).
Proof.
  split; [|split]; cycle 2.
  - intros context dbKey config isChecked w rows Hbound Hconfig Hfaults Htable.
    unfold updateDatabaseSetting. rewrite Hconfig.
    rewrite (getDurableObjectStub_bound _ _ Hbound).
    set (stub := StubOf (DatabaseConfig.instanceName config)).
    assert (Hf : next_fault w = None) by (unfold next_fault; now rewrite Hfaults).
    destruct (updateSetting_through stub (DatabaseConfig.tableName config)
                (DatabaseConfig.settingKey config)
                (if isChecked then "true" else "false") w rows Hf Htable)
      as (w1 & Hupd & Hfaults1).
    unfold try_catch, bind. rewrite Hupd.
    destruct (updateSetting_written _ _ _ _ _ _ Hupd) as (rows0 & Hrows0 & Hnew).
    unfold stub in Hrows0. cbn [stub_name] in Hrows0.
    rewrite Htable in Hrows0. injection Hrows0 as <-.
    assert (Hf1 : next_fault w1 = None).
    { unfold next_fault. now rewrite Hfaults1, Hfaults. }
    destruct (getAllSettings_snapshot stub _ w1 _ Hf1 Hnew) as (w2 & Hsnap & _).
    rewrite Hsnap. now exists w2.
  - intros stub tableName key value1 value2 t2 w0 w1 w2 Hfirst Hsecond.
    split.
    + now apply updateSetting_one_row in Hfirst.
    + now apply updateSetting_one_row in Hsecond.
  - intros context dbKey isChecked w result w'.
    unfold updateDatabaseSetting.
    destruct (find_config dbKey) as [config|]; [|now intros [= <- <-]].
    destruct (getDurableObjectStub context (DatabaseConfig.instanceName config))
      as [stub|] eqn:Hstub; [|now intros [= <- <-]].
    assert (stub = StubOf (DatabaseConfig.instanceName config)) as ->.
    { unfold getDurableObjectStub in Hstub.
      destruct (binding context); [now injection Hstub | discriminate]. }
    set (stub := StubOf (DatabaseConfig.instanceName config)).
    set (value := if isChecked then "true" else "false").
    unfold try_catch, bind.
    destruct (updateSetting (Some stub) _ _ value w) as [[[|]|message] w1]
      eqn:Hupd.
    + destruct (getAllSettings (Some stub) (DatabaseConfig.tableName config) w1)
        as [[rows|message] w2] eqn:Hall.
      * intros [= <- <-] _. exists config, w1, rows.
        split; [reflexivity|]. split; [exact Hupd|].
        split; [exact Hall|]. split; [reflexivity|].
        intros Hf.
        destruct (updateSetting_written _ _ _ _ _ _ Hupd)
          as (rows0 & _ & Htable).
        destruct (getAllSettings_snapshot stub _ w1 _ Hf Htable)
          as (w3 & Hsnap & Hrows).
        rewrite Hall in Hsnap. injection Hsnap as Hr Hw. subst rows w3.
        subst stub. cbn [stub_name] in Hrows.
        split; [now rewrite Hrows|].
        apply snapshot_one_row, filter_replaced.
        unfold has_key. apply String.eqb_refl.
      * now intros [= <- <-].
    + exfalso. rewrite updateSetting_outcome in Hupd.
      now destruct (sql_exec _ _ w) as [[?|?] ?].
    + now intros [= <- <-].
Qed.

Lemma updateSetting_upsert_witness :
  let stub := StubOf "database-1" in
  let config :=
    DatabaseConfig.mk "DB1" "Primary Database" "database-1" "settings"
      "test_checkbox_db1" in
  let w0 := snd (loadDatabaseSettings bound_context config fresh_world) in
  let w1 :=
    snd (updateSetting (Some stub) "settings" "test_checkbox_db1" "true"
           (at_time 100 w0)) in
  let w2 :=
    snd (updateSetting (Some stub) "settings" "test_checkbox_db1" "false"
           (at_time 250 w1)) in
  List.filter (has_key "test_checkbox_db1")
    (setting_rows "database-1" "settings" w1)
  = [Setting.mk "test_checkbox_db1" "true" 100]
  /\ List.filter (has_key "test_checkbox_db1")
       (setting_rows "database-1" "settings" w2)
     = [Setting.mk "test_checkbox_db1" "false" 250].
Proof.
  intros stub config w0 w1 w2.
  apply (proj1 updateSetting_upsert stub "settings" "test_checkbox_db1"
           "true" "false" 250 (at_time 100 w0) w1 w2).
  - vm_compute. reflexivity.
  - vm_compute. reflexivity.
Defined.

(** Two updates of the same checkbox through [updateDatabaseSetting]: the
    second snapshot holds one row, with the later value and stamp. *)
Example updateDatabaseSetting_twice :
  let config :=
    DatabaseConfig.mk "DB1" "Primary Database" "database-1" "settings"
      "test_checkbox_db1" in
  let w0 := snd (loadDatabaseSettings bound_context config fresh_world) in
  let w1 := snd (updateDatabaseSetting bound_context "DB1" true (at_time 100 w0)) in
  fst (updateDatabaseSetting bound_context "DB1" false (at_time 250 w1))
  = Normal (UpdateResult.mk true None (Some "DB1") (Some false)
              (Some [Setting.mk "test_checkbox_db1" "false" 250])).
Proof. vm_compute. reflexivity. Qed.

(** The bulk deletion of three ids whose second deletion is hit by an
    outage: false is returned, the first session is gone, the second and
    the third are still stored, and only two statements were issued. *)
Example deleteSessions_abc :
  let a := "offline_a.myshopify.com" in
  let b := "offline_b.myshopify.com" in
  let c := "offline_c.myshopify.com" in
  let store id shop w :=
    snd (shopifySessionDb.storeSession bound_context
           (sample_session id shop None) w) in
  let w :=
    store c "c.myshopify.com"
      (store b "b.myshopify.com" (store a "a.myshopify.com" fresh_world)) in
  let outcome :=
    shopifySessionDb.deleteSessions bound_context [a; b; c]
      (facing [None; Some "storage outage"] w) in
  fst outcome = Normal false
  /\ session_rows (getShopifySessionInstanceName "a.myshopify.com")
       SHOPIFY_SESSION_tableName (snd outcome) = []
  /\ length (session_rows (getShopifySessionInstanceName "b.myshopify.com")
               SHOPIFY_SESSION_tableName (snd outcome)) = 1%nat
  /\ length (session_rows (getShopifySessionInstanceName "c.myshopify.com")
               SHOPIFY_SESSION_tableName (snd outcome)) = 1%nat
  /\ sql_log (snd outcome)
     = (sql_log w ++ [delete_entry a; delete_entry b])%list.
Proof. vm_compute. repeat split. Qed.

Lemma deleteSessions_stops_at_first_failure_witness :
  let a := "offline_a.myshopify.com" in
  let b := "offline_b.myshopify.com" in
  let c := "offline_c.myshopify.com" in
  let store id shop w :=
    snd (shopifySessionDb.storeSession bound_context
           (sample_session id shop None) w) in
  let w :=
    facing [None; Some "storage outage"]
      (store c "c.myshopify.com"
         (store b "b.myshopify.com" (store a "a.myshopify.com" fresh_world))) in
  let w1 := snd (shopifySessionDb.deleteSession bound_context a w) in
  let w2 := snd (shopifySessionDb.deleteSession bound_context b w1) in
  shopifySessionDb.deleteSessions bound_context [a; b; c] w = (Normal false, w2)
  /\ deleted_in w2 a.
Proof.
  intros a b c store w w1 w2.
  destruct (proj2 deleteSessions_stops_at_first_failure bound_context a b c
              w w1 w2) as (Hall & Hgone & _).
  - vm_compute. reflexivity.
  - vm_compute. reflexivity.
  - split; assumption.
Defined.

(* ===================================================================== *)
(** * Part III: further properties of the adapters                        *)
(* ===================================================================== *)

(** ** Footprint of a storage call *)

Lemma sql_exec_other_instance {Q R} `{SqlStatement Q R} name (q : Q) w n :
  n <> name ->
  instance_storage n (snd (sql_exec name q w)) = instance_storage n w.
Proof.
  intros Hn. destruct (next_fault w) as [message|] eqn:Hf.
  - now rewrite (sql_exec_faulted _ _ _ _ Hf).
  - rewrite (sql_exec_through _ _ _ Hf). cbn [snd].
    rewrite instance_storage_insert. now rewrite decide_False by congruence.
Qed.

Lemma sql_exec_same_instance {Q R} `{SqlStatement Q R} name (q : Q) w :
  instance_storage name (snd (sql_exec name q w))
  = match next_fault w with
    | Some _ => instance_storage name w
    | None => snd (sql_step q (instance_storage name w))
    end.
Proof.
  destruct (next_fault w) as [message|] eqn:Hf.
  - now rewrite (sql_exec_faulted _ _ _ _ Hf).
  - rewrite (sql_exec_through _ _ _ Hf). cbn [snd].
    rewrite instance_storage_insert. now rewrite decide_True.
Qed.

(** A statement that leaves the storage of its instance as it is leaves
    every instance as it is. *)
Lemma sql_exec_read_only {Q R} `{SqlStatement Q R} name (q : Q) w :
  (forall st, snd (sql_step q st) = st) ->
  forall n, instance_storage n (snd (sql_exec name q w)) = instance_storage n w.
Proof.
  intros Hstep n. destruct (decide (n = name)) as [->|Hn].
  - rewrite sql_exec_same_instance. destruct (next_fault w); [reflexivity|].
    apply Hstep.
  - now apply sql_exec_other_instance.
Qed.

Lemma select_session_by_id_pure table id st :
  snd (sessions_step (SelectSessionById table id) st) = st.
Proof. simpl. now destruct (st !! table) as [[?|?]|]. Qed.

Lemma select_sessions_by_shop_pure table shop st :
  snd (sessions_step (SelectSessionsByShop table shop) st) = st.
Proof. simpl. now destruct (st !! table) as [[?|?]|]. Qed.

Lemma select_setting_by_key_pure table key st :
  snd (settings_step (SelectSettingByKey table key) st) = st.
Proof. simpl. now destruct (st !! table) as [[?|?]|]. Qed.

Lemma select_all_settings_pure table st :
  snd (settings_step (SelectAllSettings table) st) = st.
Proof. simpl. now destruct (st !! table) as [[?|?]|]. Qed.

(** ** [executeQuery] of the storage class *)

(** X1: [executeQuery] never raises and returns together what [first] and
    [all] return on the same statement: the same error on a fault, and
    otherwise the rows of [all] with the row of [first]. *)
Theorem executeQuery_agrees_with_first_and_all :
  forall (Q R : Type) (statements : SqlStatement Q R) (name : string)
         (query : Q) (w : World),
    exists answer one every w',
      ShopifyStorage_executeQuery name query w = (Normal answer, w')
      /\ ShopifyStorage.first name query w = (Normal one, w')
      /\ ShopifyStorage.all name query w = (Normal every, w')
      /\ QueryResult.error answer = FirstResult.error one
      /\ QueryResult.error answer = AllResult.error every
      /\ match QueryResult.error answer with
         | Some _ =>
             QueryResult.results answer = None
             /\ QueryResult.result answer = None
         | None =>
             QueryResult.results answer = Some (AllResult.results every)
             /\ QueryResult.result answer = Some (FirstResult.result one)
         end.
Proof.
  intros Q R statements name query w.
  rewrite first_outcome, all_outcome.
  unfold ShopifyStorage_executeQuery, try_catch, bind, ret.
  destruct (sql_exec name query w) as [[cursor|message] w'];
    eexists _, _, _, _; repeat split.
Qed.

(** ** The session adapter never raises *)

Lemma try_catch_returns {A} (body : M A) (fallback : A) w :
  exists a w', try_catch body (fun _ => ret fallback) w = (Normal a, w').
Proof.
  unfold try_catch, ret. destruct (body w) as [[a|message] w']; eauto.
Qed.

(** X2: in every world, whatever the storage answers and whatever the JSON
    parser does, each operation of the session adapter completes with a
    value. *)
Theorem shopifySessionDb_never_raises :
  forall (OnlineAccessInfo : Type) (J : JSON OnlineAccessInfo)
         (context : option Context) (w : World),
    (forall shop, exists ok w',
        shopifySessionDb.initializeTable context shop w = (Normal ok, w'))
    /\ (forall session : Session.t OnlineAccessInfo, exists ok w',
          shopifySessionDb.storeSession context session w = (Normal ok, w'))
    /\ (forall id, exists (found : option (Session.t OnlineAccessInfo)) w',
          shopifySessionDb.loadSession context id w = (Normal found, w'))
    /\ (forall id, exists ok w',
          shopifySessionDb.deleteSession context id w = (Normal ok, w'))
    /\ (forall ids, exists ok w',
          shopifySessionDb.deleteSessions context ids w = (Normal ok, w'))
    /\ (forall shop, exists (sessions : list (Session.t OnlineAccessInfo)) w',
          shopifySessionDb.findSessionsByShop context shop w
          = (Normal sessions, w')).
Proof.
  intros OnlineAccessInfo J context w.
  repeat split; intros; apply try_catch_returns.
Qed.

(** ** Table bootstrap *)

Lemma initializeTable_outcome context shop w :
  shopifySessionDb.initializeTable context shop w =
  match getShopifySessionsStub context shop with
  | None => (Normal false, w)
  | Some stub =>
      match sql_exec (stub_name stub)
              (CreateSessionsTable SHOPIFY_SESSION_tableName) w with
      | (Normal _, w') => (Normal true, w')
      | (Throw _, w') => (Normal false, w')
      end
  end.
Proof.
  unfold shopifySessionDb.initializeTable, try_catch.
  destruct (getShopifySessionsStub context shop) as [stub|]; [|reflexivity].
  unfold bind. rewrite run_outcome.
  now destruct (sql_exec _ _ w) as [[cursor|message] w'].
Qed.

Lemma create_sessions_step_lookup table st t :
  snd (sessions_step (CreateSessionsTable table) st) !! t
  = match st !! t with
    | Some existing => Some existing
    | None => if decide (table = t) then Some (SessionsTable []) else None
    end.
Proof.
  simpl. destruct (st !! table) as [existing|] eqn:E; simpl.
  - destruct (st !! t) eqn:Et; [reflexivity|].
    case_decide; [congruence | reflexivity].
  - rewrite lookup_insert. case_decide as Ht.
    + subst t. now rewrite E.
    + now destruct (st !! t).
Qed.

(** The bootstrap leaves every existing table as it is, and an absent one
    absent or empty. *)
Lemma initializeTable_lookup context shop w n t :
  instance_storage n (snd (shopifySessionDb.initializeTable context shop w)) !! t
  = instance_storage n w !! t
  \/ (instance_storage n w !! t = None
      /\ instance_storage n
           (snd (shopifySessionDb.initializeTable context shop w)) !! t
         = Some (SessionsTable [])).
Proof.
  rewrite initializeTable_outcome.
  destruct (getShopifySessionsStub context shop) as [stub|]; [|now left].
  assert (Hw : instance_storage n
                 (snd (sql_exec (stub_name stub)
                         (CreateSessionsTable SHOPIFY_SESSION_tableName) w)) !! t
               = instance_storage n w !! t
               \/ (instance_storage n w !! t = None
                   /\ instance_storage n
                        (snd (sql_exec (stub_name stub)
                                (CreateSessionsTable SHOPIFY_SESSION_tableName)
                                w)) !! t
                      = Some (SessionsTable []))).
  { destruct (decide (n = stub_name stub)) as [->|Hn].
    - rewrite sql_exec_same_instance.
      destruct (next_fault w); [now left|].
      cbn [sql_step session_statements].
      rewrite create_sessions_step_lookup.
      destruct (instance_storage (stub_name stub) w !! t); [now left|].
      case_decide; [now right | now left].
    - rewrite sql_exec_other_instance by exact Hn. now left. }
  now destruct (sql_exec _ _ w) as [[cursor|message] w'].
Qed.

Lemma initializeTable_rows context shop w n t :
  session_rows n t (snd (shopifySessionDb.initializeTable context shop w))
  = session_rows n t w
  /\ setting_rows n t (snd (shopifySessionDb.initializeTable context shop w))
     = setting_rows n t w.
Proof.
  unfold session_rows, setting_rows, table_session_rows, table_setting_rows.
  destruct (initializeTable_lookup context shop w n t) as [-> | [-> ->]];
    split; reflexivity.
Qed.

(** X3: [initializeTable] never alters a table that exists, in any
    instance, so it never changes the rows of any table.  With the binding
    present and the call not faulted it returns true and the sessions table
    of the shop's instance is there afterwards; run again, it returns true
    and leaves every instance exactly as it was. *)
Theorem initializeTable_idempotent :
  forall (context : option Context) (shop : string) (w : World),
    let w' := snd (shopifySessionDb.initializeTable context shop w) in
    (forall n t existing,
       instance_storage n w !! t = Some existing ->
       instance_storage n w' !! t = Some existing)
    /\ (forall n t,
          session_rows n t w' = session_rows n t w
          /\ setting_rows n t w' = setting_rows n t w)
    /\ (binding context <> None ->
        next_fault w = None ->
        fst (shopifySessionDb.initializeTable context shop w) = Normal true
        /\ is_Some (instance_storage (getShopifySessionInstanceName shop) w'
                      !! SHOPIFY_SESSION_tableName)
        /\ (next_fault w' = None ->
            fst (shopifySessionDb.initializeTable context shop w') = Normal true
            /\ forall n,
                 instance_storage n
                   (snd (shopifySessionDb.initializeTable context shop w'))
                 = instance_storage n w')).
Proof.
  intros context shop w w'. split; [|split].
  - intros n t existing Hexisting.
    destruct (initializeTable_lookup context shop w n t) as [Heq | [Hnone _]].
    + subst w'. now rewrite Heq.
    + congruence.
  - intros n t. apply initializeTable_rows.
  - intros Hbound Hf.
    assert (Hpresent :
              is_Some (instance_storage (getShopifySessionInstanceName shop) w'
                         !! SHOPIFY_SESSION_tableName)).
    { subst w'. rewrite initializeTable_outcome.
      rewrite (getShopifySessionsStub_bound _ _ Hbound). cbn [stub_name].
      pose proof (sql_exec_same_instance
                    (getShopifySessionInstanceName shop)
                    (CreateSessionsTable SHOPIFY_SESSION_tableName) w) as Hsame.
      rewrite Hf in Hsame.
      assert (Hlook : is_Some
                (instance_storage (getShopifySessionInstanceName shop)
                   (snd (sql_exec (getShopifySessionInstanceName shop)
                           (CreateSessionsTable SHOPIFY_SESSION_tableName) w))
                   !! SHOPIFY_SESSION_tableName)).
      { rewrite Hsame. cbn [sql_step session_statements].
        rewrite create_sessions_step_lookup.
        destruct (instance_storage _ w !! SHOPIFY_SESSION_tableName);
          [eauto|]. rewrite decide_True by reflexivity. eauto. }
      now destruct (sql_exec _ _ w) as [[cursor|message] w1]. }
    split; [|split; [exact Hpresent|]].
    + rewrite initializeTable_outcome.
      rewrite (getShopifySessionsStub_bound _ _ Hbound). cbn [stub_name].
      rewrite (sql_exec_through _ _ _ Hf).
      cbn [sql_step session_statements sessions_step fst].
      now destruct (instance_storage _ w !! SHOPIFY_SESSION_tableName).
    + intros Hf'. destruct Hpresent as [existing Hexisting].
      rewrite initializeTable_outcome.
      rewrite (getShopifySessionsStub_bound _ _ Hbound). cbn [stub_name].
      rewrite (sql_exec_through _ _ _ Hf').
      cbn [sql_step session_statements sessions_step fst snd].
      rewrite Hexisting. cbn [fst snd]. split; [reflexivity|].
      intros n. rewrite instance_storage_insert.
      case_decide as Hn; [now subst n | reflexivity].
Qed.

Lemma initializeTable_idempotent_witness :
  fst (shopifySessionDb.initializeTable bound_context "my-shop.myshopify.com"
         fresh_world) = Normal true
  /\ session_rows "shopify-sessions-my-shop-myshopify-com" "shopify_sessions"
       (snd (shopifySessionDb.initializeTable bound_context
               "my-shop.myshopify.com" world_with_epoch_row))
     = [epoch_row].
Proof.
  assert (Hbound : binding bound_context <> None) by discriminate.
  split.
  - exact (proj1 (proj2 (proj2 (initializeTable_idempotent bound_context
                                  "my-shop.myshopify.com" fresh_world))
                    Hbound eq_refl)).
  - rewrite (proj1 (proj1 (proj2 (initializeTable_idempotent bound_context
                                    "my-shop.myshopify.com"
                                    world_with_epoch_row))
                      "shopify-sessions-my-shop-myshopify-com"
                      "shopify_sessions")).
    reflexivity.
Defined.

(** ** Effect of an accepted [storeSession] *)

Lemma initializeTable_other_instance context shop w n :
  n <> getShopifySessionInstanceName shop ->
  instance_storage n (snd (shopifySessionDb.initializeTable context shop w))
  = instance_storage n w.
Proof.
  intros Hn. rewrite initializeTable_outcome.
  destruct (getShopifySessionsStub context shop) as [stub|] eqn:Hstub;
    [|reflexivity].
  rewrite (getShopifySessionsStub_name _ _ _ Hstub).
  pose proof (sql_exec_other_instance (getShopifySessionInstanceName shop)
                (CreateSessionsTable SHOPIFY_SESSION_tableName) w n Hn) as Hother.
  now destruct (sql_exec _ _ w) as [[cursor|message] w'].
Qed.

Lemma storeSession_effect {OnlineAccessInfo} `{JSON OnlineAccessInfo}
  context (session : Session.t OnlineAccessInfo) w w1 :
  shopifySessionDb.storeSession context session w = (Normal true, w1) ->
  let name := getShopifySessionInstanceName (Session.shop session) in
  let wi :=
    snd (shopifySessionDb.initializeTable context (Session.shop session) w) in
  exists rows,
    instance_storage name wi !! SHOPIFY_SESSION_tableName
    = Some (SessionsTable rows)
    /\ instance_storage name w1
       = <[SHOPIFY_SESSION_tableName :=
             SessionsTable
               (List.filter
                  (fun r => negb (has_id (Session.id session) r)) rows
                ++ [shopifySessionDb.rowOfSession session])%list]>
           (instance_storage name wi)
    /\ (forall n, n <> name -> instance_storage n w1 = instance_storage n wi).
Proof.
  intros Hstore name wi. revert Hstore.
  unfold shopifySessionDb.storeSession, try_catch.
  destruct (getShopifySessionsStub context (Session.shop session))
    as [stub|] eqn:Hstub; [|discriminate].
  rewrite (getShopifySessionsStub_name _ _ _ Hstub). fold name.
  destruct (initializeTable_completes (OnlineAccessInfo := OnlineAccessInfo)
              context (Session.shop session) w) as (ok & w0 & Hinit).
  assert (wi = w0) as -> by (subst wi; now rewrite Hinit).
  unfold bind at 1. setoid_rewrite Hinit.
  unfold bind. rewrite run_outcome.
  destruct (next_fault w0) as [message|] eqn:Hf.
  - rewrite (sql_exec_faulted _ _ _ _ Hf). discriminate.
  - rewrite (sql_exec_through _ _ _ Hf).
    cbn [sql_step session_statements sessions_step].
    destruct (instance_storage name w0 !! SHOPIFY_SESSION_tableName)
      as [[rows|rows]|] eqn:E; cbn [fst snd]; try discriminate.
    intros [= <-]. exists rows. split; [reflexivity|]. split.
    + rewrite instance_storage_insert. now rewrite decide_True.
    + intros n Hn. rewrite instance_storage_insert.
      now rewrite decide_False by congruence.
Qed.

(** X4: an accepted [storeSession] is an upsert by id confined to one
    table: in the sessions table of the shop's instance the rows with
    other ids are kept in order, the rows with this id are removed and the
    session's row is appended; the rows of every other table and of every
    other instance are unchanged. *)
Theorem storeSession_upsert :
  forall (OnlineAccessInfo : Type) (J : JSON OnlineAccessInfo)
         (context : option Context) (session : Session.t OnlineAccessInfo)
         (w w1 : World),
    shopifySessionDb.storeSession context session w = (Normal true, w1) ->
    let name := getShopifySessionInstanceName (Session.shop session) in
    session_rows name SHOPIFY_SESSION_tableName w1
    = (List.filter (fun r => negb (has_id (Session.id session) r))
         (session_rows name SHOPIFY_SESSION_tableName w)
       ++ [shopifySessionDb.rowOfSession session])%list
    /\ (forall n t,
          (n, t) <> (name, SHOPIFY_SESSION_tableName) ->
          session_rows n t w1 = session_rows n t w
          /\ setting_rows n t w1 = setting_rows n t w).
Proof.
  intros OnlineAccessInfo J context session w w1 Hstore name.
  destruct (storeSession_effect context session w w1 Hstore)
    as (rows & Htable & Hsame & Hother).
  fold name in Htable, Hsame, Hother.
  set (wi := snd (shopifySessionDb.initializeTable context
                    (Session.shop session) w)) in *.
  assert (Hrows : session_rows name SHOPIFY_SESSION_tableName w = rows).
  { rewrite <- (proj1 (initializeTable_rows context (Session.shop session) w
                         name SHOPIFY_SESSION_tableName)).
    fold wi. unfold session_rows, table_session_rows. now rewrite Htable. }
  split.
  - rewrite Hrows. unfold session_rows, table_session_rows.
    now rewrite Hsame, lookup_insert_eq.
  - intros n t Hnt.
    rewrite <- (proj1 (initializeTable_rows context (Session.shop session) w n t)).
    rewrite <- (proj2 (initializeTable_rows context (Session.shop session) w n t)).
    fold wi. unfold session_rows, setting_rows.
    destruct (decide (n = name)) as [->|Hn].
    + unfold table_session_rows, table_setting_rows.
      rewrite Hsame, lookup_insert_ne by congruence. now split.
    + now rewrite (Hother n Hn).
Qed.

Lemma storeSession_upsert_witness :
  let first :=
    sample_session "offline_my-shop.myshopify.com" "my-shop.myshopify.com"
      (Some (new_Date 5)) in
  let second :=
    sample_session "offline_my-shop.myshopify.com" "my-shop.myshopify.com"
      None in
  let w1 := snd (shopifySessionDb.storeSession bound_context first fresh_world) in
  let w2 := snd (shopifySessionDb.storeSession bound_context second w1) in
  session_rows "shopify-sessions-my-shop-myshopify-com" "shopify_sessions" w2
  = [shopifySessionDb.rowOfSession second].
Proof.
  intros first second w1 w2.
  pose proof (proj1 (storeSession_upsert SamplePayload sample_json
                       bound_context second w1 w2 eq_refl)) as Hupsert.
  etransitivity; [exact Hupsert | reflexivity].
Defined.

(** X5: a session stored after others of the same shop is listed last:
    when the earlier rows of the shop decode to [others], the following
    [findSessionsByShop] returns [others] followed by the session. *)
Theorem storeSession_then_findSessionsByShop :
  forall (OnlineAccessInfo : Type) (J : JSON OnlineAccessInfo)
         (L : JSONLaws OnlineAccessInfo)
         (context : option Context) (session : Session.t OnlineAccessInfo)
         (others : list (Session.t OnlineAccessInfo)) (w w1 : World),
    shopifySessionDb.storeSession context session w = (Normal true, w1) ->
    Session.expires session <> Some (new_Date 0) ->
    next_fault w1 = None ->
    Forall2 decodes
      (List.filter (has_shop (Session.shop session))
         (List.filter (fun r => negb (has_id (Session.id session) r))
            (session_rows
               (getShopifySessionInstanceName (Session.shop session))
               SHOPIFY_SESSION_tableName w)))
      others ->
    fst (shopifySessionDb.findSessionsByShop context (Session.shop session) w1)
    = Normal (others ++ [session])%list.
Proof.
  intros OnlineAccessInfo J L context session others w w1
    Hstore Hexp Hf Hothers.
  pose proof (storeSession_accepted _ _ _ _ Hstore) as [Hbound _].
  apply findSessionsByShop_found; [exact Hbound | exact Hf|].
  rewrite (proj1 (storeSession_upsert _ _ _ _ _ _ Hstore)).
  rewrite List.filter_app. apply Forall2_app; [exact Hothers|].
  cbn [List.filter]. unfold has_shop at 1.
  cbn [shopifySessionDb.rowOfSession SessionRow.shop].
  rewrite String.eqb_refl. constructor; [|constructor].
  now apply rowOfSession_decodes.
Qed.

Lemma storeSession_then_findSessionsByShop_witness :
  let first :=
    sample_session "offline_my-shop.myshopify.com" "my-shop.myshopify.com"
      (Some (new_Date 5)) in
  let second :=
    sample_session "online_my-shop.myshopify.com_7" "my-shop.myshopify.com"
      None in
  let w1 := snd (shopifySessionDb.storeSession bound_context first fresh_world) in
  let w2 := snd (shopifySessionDb.storeSession bound_context second w1) in
  fst (shopifySessionDb.findSessionsByShop bound_context
         "my-shop.myshopify.com" w2)
  = Normal [first; second].
Proof.
  intros first second w1 w2.
  apply (storeSession_then_findSessionsByShop SamplePayload sample_json
           sample_json_laws bound_context second [first] w1 w2).
  - reflexivity.
  - discriminate.
  - reflexivity.
  - vm_compute. constructor; [|constructor]. intros w. reflexivity.
Defined.

(** ** What [loadSession] and [findSessionsByShop] come down to *)

Lemma sessionOfRow_world {OnlineAccessInfo} `{JSON OnlineAccessInfo} row w :
  shopifySessionDb.sessionOfRow (OnlineAccessInfo := OnlineAccessInfo) row w
  = (fst (shopifySessionDb.sessionOfRow row fresh_world), w).
Proof.
  unfold shopifySessionDb.sessionOfRow.
  destruct (SessionRow.onlineAccessInfo row) as [text|]; [|reflexivity].
  destruct (truthy_string text); [|reflexivity].
  now destruct (JSON_parse text).
Qed.

Lemma mapM_sessionOfRow_world {OnlineAccessInfo} `{JSON OnlineAccessInfo}
  rows w :
  snd (mapM (shopifySessionDb.sessionOfRow (OnlineAccessInfo := OnlineAccessInfo))
         rows w) = w.
Proof.
  induction rows as [|row rows IH]; [reflexivity|].
  simpl. unfold bind. rewrite sessionOfRow_world.
  destruct (fst (shopifySessionDb.sessionOfRow row fresh_world));
    [|reflexivity].
  destruct (mapM shopifySessionDb.sessionOfRow rows w) as [[l|m] w'] eqn:E;
    simpl in *; now subst.
Qed.

Lemma loadSession_outcome {OnlineAccessInfo} `{JSON OnlineAccessInfo}
  context id w :
  shopifySessionDb.loadSession (OnlineAccessInfo := OnlineAccessInfo)
    context id w =
  if negb (truthy_opt_string (extractShopFromSessionId id))
  then (Normal None, w)
  else
    match getShopifySessionsStub context
            (default "" (extractShopFromSessionId id)) with
    | None => (Normal None, w)
    | Some stub =>
        match sql_exec (stub_name stub)
                (SelectSessionById SHOPIFY_SESSION_tableName id) w with
        | (Normal cursor, w') =>
            match toArray cursor with
            | [] => (Normal None, w')
            | row :: _ =>
                match fst (shopifySessionDb.sessionOfRow row fresh_world) with
                | Normal session => (Normal (Some session), w')
                | Throw _ => (Normal None, w')
                end
            end
        | (Throw _, w') => (Normal None, w')
        end
    end.
Proof.
  unfold shopifySessionDb.loadSession, try_catch.
  destruct (negb (truthy_opt_string (extractShopFromSessionId id)));
    [reflexivity|].
  destruct (getShopifySessionsStub context _) as [stub|]; [|reflexivity].
  unfold bind at 1. rewrite first_outcome.
  destruct (sql_exec _ _ w) as [[cursor|message] w'].
  - cbn [FirstResult.error FirstResult.result truthy_opt_string].
    destruct (toArray cursor) as [|row rows]; [reflexivity|].
    cbn [head]. unfold bind. rewrite sessionOfRow_world.
    now destruct (fst (shopifySessionDb.sessionOfRow row fresh_world)).
  - cbn [FirstResult.error FirstResult.result truthy_opt_string].
    now destruct (truthy_string message).
Qed.

Lemma findSessionsByShop_outcome {OnlineAccessInfo} `{JSON OnlineAccessInfo}
  context shop w :
  shopifySessionDb.findSessionsByShop (OnlineAccessInfo := OnlineAccessInfo)
    context shop w =
  match getShopifySessionsStub context shop with
  | None => (Normal [], w)
  | Some stub =>
      match sql_exec (stub_name stub)
              (SelectSessionsByShop SHOPIFY_SESSION_tableName shop) w with
      | (Normal cursor, w') =>
          match fst (mapM shopifySessionDb.sessionOfRow (toArray cursor) w') with
          | Normal sessions => (Normal sessions, w')
          | Throw _ => (Normal [], w')
          end
      | (Throw _, w') => (Normal [], w')
      end
  end.
Proof.
  unfold shopifySessionDb.findSessionsByShop, try_catch.
  destruct (getShopifySessionsStub context shop) as [stub|]; [|reflexivity].
  unfold bind. rewrite all_outcome.
  destruct (sql_exec _ _ w) as [[cursor|message] w'].
  - cbn [AllResult.error AllResult.results truthy_opt_string].
    pose proof (mapM_sessionOfRow_world (toArray cursor) w') as Hw.
    destruct (mapM shopifySessionDb.sessionOfRow (toArray cursor) w')
      as [[sessions|m] w''] eqn:E; simpl in *; now subst.
  - cbn [AllResult.error AllResult.results truthy_opt_string].
    now destruct (truthy_string message).
Qed.

(** The rows a [SELECT] by id or by shop hands back. *)
Lemma select_by_id_rows name id w cursor w' :
  sql_exec name (SelectSessionById SHOPIFY_SESSION_tableName id) w
  = (Normal cursor, w') ->
  toArray cursor
  = List.filter (has_id id) (session_rows name SHOPIFY_SESSION_tableName w).
Proof.
  destruct (next_fault w) as [message|] eqn:Hf.
  - rewrite (sql_exec_faulted _ _ _ _ Hf). discriminate.
  - rewrite (sql_exec_through _ _ _ Hf).
    cbn [sql_step session_statements sessions_step].
    unfold session_rows, table_session_rows.
    destruct (instance_storage name w !! SHOPIFY_SESSION_tableName)
      as [[rows|rows]|]; cbn [fst snd]; try discriminate.
    now intros [= <- _].
Qed.

Lemma select_by_shop_rows name shop w cursor w' :
  sql_exec name (SelectSessionsByShop SHOPIFY_SESSION_tableName shop) w
  = (Normal cursor, w') ->
  toArray cursor
  = List.filter (has_shop shop) (session_rows name SHOPIFY_SESSION_tableName w).
Proof.
  destruct (next_fault w) as [message|] eqn:Hf.
  - rewrite (sql_exec_faulted _ _ _ _ Hf). discriminate.
  - rewrite (sql_exec_through _ _ _ Hf).
    cbn [sql_step session_statements sessions_step].
    unfold session_rows, table_session_rows.
    destruct (instance_storage name w !! SHOPIFY_SESSION_tableName)
      as [[rows|rows]|]; cbn [fst snd]; try discriminate.
    now intros [= <- _].
Qed.

(** ** Deleting, then loading *)

(** X6: after a [deleteSession] that returned true, [loadSession] of the
    same id returns undefined, whether or not its read is faulted. *)
Theorem deleteSession_then_loadSession :
  forall (OnlineAccessInfo : Type) (J : JSON OnlineAccessInfo)
         (context : option Context) (id : string) (w w' : World),
    shopifySessionDb.deleteSession context id w = (Normal true, w') ->
    fst (shopifySessionDb.loadSession (OnlineAccessInfo := OnlineAccessInfo)
           context id w') = Normal None.
Proof.
  intros OnlineAccessInfo J context id w w' Hdel.
  pose proof (deleteSession_success _ _ _ _ Hdel) as [_ Hgone].
  unfold deleted_in in Hgone.
  rewrite loadSession_outcome.
  destruct (negb (truthy_opt_string (extractShopFromSessionId id)));
    [reflexivity|].
  destruct (getShopifySessionsStub context _) as [stub|] eqn:Hstub;
    [|reflexivity].
  rewrite (getShopifySessionsStub_name _ _ _ Hstub).
  destruct (sql_exec _ _ w') as [[cursor|message] w''] eqn:Hexec;
    [|reflexivity].
  rewrite (select_by_id_rows _ _ _ _ _ Hexec), Hgone. reflexivity.
Qed.

Lemma deleteSession_then_loadSession_witness :
  let session :=
    sample_session "offline_my-shop.myshopify.com" "my-shop.myshopify.com"
      None in
  let w1 := snd (shopifySessionDb.storeSession bound_context session fresh_world) in
  let w2 :=
    snd (shopifySessionDb.deleteSession bound_context
           "offline_my-shop.myshopify.com" w1) in
  fst (shopifySessionDb.loadSession bound_context
         "offline_my-shop.myshopify.com" w1) = Normal (Some session)
  /\ fst (shopifySessionDb.loadSession (OnlineAccessInfo := SamplePayload)
            bound_context "offline_my-shop.myshopify.com" w2) = Normal None.
Proof.
  intros session w1 w2. split; [reflexivity|].
  apply (deleteSession_then_loadSession SamplePayload sample_json bound_context
           "offline_my-shop.myshopify.com" w1 w2).
  reflexivity.
Defined.

(** X7: with the binding present, a shop extracted and the call not
    faulted, [deleteSession] returns true exactly when the shop's instance
    has its sessions table, whether or not a row has the id: deleting an id
    that was never stored succeeds for a shop that stored something and
    fails for a shop that never did. *)
Theorem deleteSession_needs_table :
  forall (context : option Context) (id shop : string) (w : World),
    binding context <> None ->
    extractShopFromSessionId id = Some shop ->
    truthy_string shop = true ->
    next_fault w = None ->
    fst (shopifySessionDb.deleteSession context id w)
    = Normal
        match instance_storage (getShopifySessionInstanceName shop) w
              !! SHOPIFY_SESSION_tableName with
        | Some (SessionsTable _) => true
        | _ => false
        end.
Proof.
  intros context id shop w Hbound Hshop Htruthy Hf.
  rewrite deleteSession_cases, Hshop. cbn [truthy_opt_string].
  rewrite Htruthy. cbn [negb].
  rewrite (getShopifySessionsStub_bound _ _ Hbound). cbn [stub_name].
  change (default "" (Some shop)) with shop.
  rewrite (sql_exec_through _ _ _ Hf).
  cbn [sql_step session_statements sessions_step].
  now destruct (instance_storage (getShopifySessionInstanceName shop) w
                  !! SHOPIFY_SESSION_tableName) as [[rows|rows]|].
Qed.

Lemma deleteSession_needs_table_witness :
  fst (shopifySessionDb.deleteSession bound_context
         "offline_my-shop.myshopify.com" fresh_world) = Normal false
  /\ fst (shopifySessionDb.deleteSession bound_context
            "offline_my-shop.myshopify.com_never-stored" world_with_epoch_row)
     = Normal true.
Proof.
  assert (Hbound : binding bound_context <> None) by discriminate.
  split.
  - exact (deleteSession_needs_table bound_context
             "offline_my-shop.myshopify.com" "my-shop.myshopify.com"
             fresh_world Hbound eq_refl eq_refl eq_refl).
  - exact (deleteSession_needs_table bound_context
             "offline_my-shop.myshopify.com_never-stored"
             "my-shop.myshopify.com" world_with_epoch_row
             Hbound eq_refl eq_refl eq_refl).
Defined.

(** ** What [findSessionsByShop] lists *)

Lemma filter_all {A} (p : A -> bool) (l : list A) :
  Forall (fun x => p x = true) (List.filter p l).
Proof.
  induction l as [|x l IH]; simpl; [constructor|].
  destruct (p x) eqn:Hx; [constructor; assumption | exact IH].
Qed.

Lemma sessionOfRow_fields {OnlineAccessInfo} `{JSON OnlineAccessInfo}
  row (session : Session.t OnlineAccessInfo) w w' :
  shopifySessionDb.sessionOfRow row w = (Normal session, w') ->
  Session.id session = SessionRow.id row
  /\ Session.shop session = SessionRow.shop row
  /\ Session.state session = SessionRow.state row
  /\ Session.scope session = SessionRow.scope row
  /\ Session.accessToken session = SessionRow.accessToken row.
Proof.
  unfold shopifySessionDb.sessionOfRow, ret, throw.
  destruct (SessionRow.onlineAccessInfo row) as [text|].
  - destruct (truthy_string text).
    + destruct (JSON_parse text); [|discriminate].
      intros [= <- <-]. repeat split.
    + intros [= <- <-]. repeat split.
  - intros [= <- <-]. repeat split.
Qed.

Lemma mapM_sessionOfRow_fields {OnlineAccessInfo} `{JSON OnlineAccessInfo}
  rows (sessions : list (Session.t OnlineAccessInfo)) w w' :
  mapM shopifySessionDb.sessionOfRow rows w = (Normal sessions, w') ->
  Forall2
    (fun row session =>
       Session.id session = SessionRow.id row
       /\ Session.shop session = SessionRow.shop row)
    rows sessions.
Proof.
  revert sessions w w'. induction rows as [|row rows IH]; intros sessions w w'.
  - intros [= <- <-]. constructor.
  - simpl. unfold bind.
    destruct (shopifySessionDb.sessionOfRow row w) as [[session|m] w1] eqn:Hrow;
      [|discriminate].
    destruct (mapM shopifySessionDb.sessionOfRow rows w1) as [[rest|m] w2]
      eqn:Hrest; [|discriminate].
    intros [= <- <-]. constructor; [|eapply IH; eassumption].
    apply sessionOfRow_fields in Hrow. tauto.
Qed.

(** X8: every session returned by [findSessionsByShop] carries the shop it
    was asked for, and the sessions returned are either none or one per
    stored row of that shop, in table order, with the ids of those rows. *)
Theorem findSessionsByShop_lists_the_shop :
  forall (OnlineAccessInfo : Type) (J : JSON OnlineAccessInfo)
         (context : option Context) (shop : string) (w : World),
    exists (sessions : list (Session.t OnlineAccessInfo)) w',
      shopifySessionDb.findSessionsByShop context shop w = (Normal sessions, w')
      /\ Forall (fun session => Session.shop session = shop) sessions
      /\ (sessions = []
          \/ map Session.id sessions
             = map SessionRow.id
                 (List.filter (has_shop shop)
                    (session_rows (getShopifySessionInstanceName shop)
                       SHOPIFY_SESSION_tableName w))).
Proof.
  intros OnlineAccessInfo J context shop w.
  rewrite findSessionsByShop_outcome.
  destruct (getShopifySessionsStub context shop) as [stub|] eqn:Hstub.
  2:{ exists [], w. repeat split; [constructor | now left]. }
  rewrite (getShopifySessionsStub_name _ _ _ Hstub).
  destruct (sql_exec _ _ w) as [[cursor|message] w'] eqn:Hexec.
  2:{ exists [], w'. repeat split; [constructor | now left]. }
  destruct (mapM shopifySessionDb.sessionOfRow (toArray cursor) w')
    as [[sessions|m] w''] eqn:Hmap; cbn [fst].
  2:{ exists [], w'. repeat split; [constructor | now left]. }
  exists sessions, w'. split; [reflexivity|].
  apply mapM_sessionOfRow_fields in Hmap.
  rewrite (select_by_shop_rows _ _ _ _ _ Hexec) in Hmap.
  pose proof (filter_all (has_shop shop)
                (session_rows (getShopifySessionInstanceName shop)
                   SHOPIFY_SESSION_tableName w)) as Hall.
  clear Hexec. split.
  - induction Hmap as [|row session rows sessions [_ Hshop] _ IH];
      [constructor|].
    inversion Hall as [|? ? Hrow Hrows]; subst.
    constructor; [|now apply IH].
    rewrite Hshop. unfold has_shop in Hrow. now apply String.eqb_eq.
  - right.
    induction Hmap as [|row session rows sessions [Hid _] _ IH];
      [reflexivity|].
    inversion Hall as [|? ? Hrow Hrows]; subst.
    simpl. now rewrite Hid, IH.
Qed.

(** ** A stored payload that does not parse *)

Lemma sessionOfRow_corrupt {OnlineAccessInfo} `{JSON OnlineAccessInfo} row w :
  corrupt (OnlineAccessInfo := OnlineAccessInfo) row ->
  exists message,
    shopifySessionDb.sessionOfRow (OnlineAccessInfo := OnlineAccessInfo) row w
    = (Throw message, w).
Proof.
  intros (text & message & Htext & Htruthy & Hparse).
  exists message. unfold shopifySessionDb.sessionOfRow.
  now rewrite Htext, Htruthy, Hparse.
Qed.

Lemma mapM_sessionOfRow_corrupt {OnlineAccessInfo} `{JSON OnlineAccessInfo}
  rows row w :
  In row rows ->
  corrupt (OnlineAccessInfo := OnlineAccessInfo) row ->
  exists message,
    fst (mapM (shopifySessionDb.sessionOfRow
                 (OnlineAccessInfo := OnlineAccessInfo)) rows w)
    = Throw message.
Proof.
  intros Hin Hcorrupt. revert w.
  induction rows as [|r rows IH]; [destruct Hin|]. intros w.
  simpl. unfold bind.
  destruct (shopifySessionDb.sessionOfRow r w) as [[session|m] w1] eqn:Hr.
  - destruct Hin as [->|Hin].
    + destruct (sessionOfRow_corrupt row w Hcorrupt) as (m & Hm). congruence.
    + destruct (IH Hin w1) as (m & Hm).
      destruct (mapM shopifySessionDb.sessionOfRow rows w1) as [[l|m'] w2];
        simpl in *; [discriminate | eauto].
  - simpl. eauto.
Qed.

(** X9: one stored row whose payload text does not parse hides data: in
    every world [findSessionsByShop] of its shop returns the empty
    sequence, whatever the other rows of the shop are, and [loadSession] of
    an id whose first row it is returns undefined. *)
Theorem corrupt_payload_hides_sessions :
  forall (OnlineAccessInfo : Type) (J : JSON OnlineAccessInfo)
         (context : option Context) (shop : string) (w : World)
         (row : SessionRow.t),
    In row (session_rows (getShopifySessionInstanceName shop)
              SHOPIFY_SESSION_tableName w) ->
    corrupt (OnlineAccessInfo := OnlineAccessInfo) row ->
    (has_shop shop row = true ->
     fst (shopifySessionDb.findSessionsByShop
            (OnlineAccessInfo := OnlineAccessInfo) context shop w)
     = Normal [])
    /\ (forall id rest,
          extractShopFromSessionId id = Some shop ->
          List.filter (has_id id)
            (session_rows (getShopifySessionInstanceName shop)
               SHOPIFY_SESSION_tableName w) = row :: rest ->
          fst (shopifySessionDb.loadSession
                 (OnlineAccessInfo := OnlineAccessInfo) context id w)
          = Normal None).
Proof.
  intros OnlineAccessInfo J context shop w row Hin Hcorrupt. split.
  - intros Hshop. rewrite findSessionsByShop_outcome.
    destruct (getShopifySessionsStub context shop) as [stub|] eqn:Hstub;
      [|reflexivity].
    rewrite (getShopifySessionsStub_name _ _ _ Hstub).
    destruct (sql_exec _ _ w) as [[cursor|message] w'] eqn:Hexec;
      [|reflexivity].
    rewrite (select_by_shop_rows _ _ _ _ _ Hexec).
    destruct (mapM_sessionOfRow_corrupt
                (List.filter (has_shop shop)
                   (session_rows (getShopifySessionInstanceName shop)
                      SHOPIFY_SESSION_tableName w))
                row w') as (m & ->); [|exact Hcorrupt|reflexivity].
    apply filter_In. now split.
  - intros id rest Hshop Hrows. rewrite loadSession_outcome, Hshop.
    destruct (negb (truthy_opt_string (Some shop))); [reflexivity|].
    change (default "" (Some shop)) with shop.
    destruct (getShopifySessionsStub context shop) as [stub|] eqn:Hstub;
      [|reflexivity].
    rewrite (getShopifySessionsStub_name _ _ _ Hstub).
    destruct (sql_exec _ _ w) as [[cursor|message] w'] eqn:Hexec;
      [|reflexivity].
    rewrite (select_by_id_rows _ _ _ _ _ Hexec), Hrows.
    destruct (sessionOfRow_corrupt row fresh_world Hcorrupt) as (m & ->).
    reflexivity.
Qed.

Lemma corrupt_payload_hides_sessions_witness :
  let good :=
    SessionRow.mk "offline_my-shop.myshopify.com" "my-shop.myshopify.com"
      "state-1" 1 "read_products" "shpat_1" None (Some "{}") in
  let bad :=
    SessionRow.mk "online_my-shop.myshopify.com_7" "my-shop.myshopify.com"
      "state-2" 1 "read_products" "shpat_2" None (Some "{oops") in
  let w :=
    mkWorld
      {[ getShopifySessionInstanceName "my-shop.myshopify.com" :=
           {[ SHOPIFY_SESSION_tableName := SessionsTable [good; bad] ]} ]}
      [] 0 [] in
  fst (shopifySessionDb.findSessionsByShop (OnlineAccessInfo := SamplePayload)
         bound_context "my-shop.myshopify.com" w) = Normal []
  /\ fst (shopifySessionDb.loadSession (OnlineAccessInfo := SamplePayload)
            bound_context "online_my-shop.myshopify.com_7" w) = Normal None.
Proof.
  intros good bad w.
  assert (Hin : In bad (session_rows
                          (getShopifySessionInstanceName "my-shop.myshopify.com")
                          SHOPIFY_SESSION_tableName w)).
  { vm_compute. right. left. reflexivity. }
  assert (Hbad : corrupt (OnlineAccessInfo := SamplePayload) bad).
  { exists "{oops", "Unexpected token". repeat split. }
  destruct (corrupt_payload_hides_sessions SamplePayload sample_json
              bound_context "my-shop.myshopify.com" w bad Hin Hbad)
    as [Hfind Hload].
  split.
  - apply Hfind. reflexivity.
  - apply (Hload "online_my-shop.myshopify.com_7" []); reflexivity.
Defined.

(** ** Operations that only read *)

Lemma getAllSettings_storage stub tableName w n :
  instance_storage n (snd (getAllSettings (Some stub) tableName w))
  = instance_storage n w.
Proof.
  rewrite getAllSettings_outcome.
  pose proof (sql_exec_read_only (stub_name stub) (SelectAllSettings tableName)
                w (select_all_settings_pure tableName) n) as Hread.
  destruct (sql_exec _ _ w) as [[cursor|message] w']; [exact Hread|].
  now destruct (truthy_string message).
Qed.

Lemma getSetting_outcome stub tableName key w :
  getSetting (Some stub) tableName key w =
  match sql_exec (stub_name stub) (SelectSettingByKey tableName key) w with
  | (Normal cursor, w') => (Normal (head (toArray cursor)), w')
  | (Throw message, w') =>
      if truthy_string message then (Throw message, w') else (Normal None, w')
  end.
Proof.
  unfold getSetting, try_catch, bind. rewrite first_outcome.
  destruct (sql_exec _ _ w) as [[cursor|message] w']; [reflexivity|].
  cbn [FirstResult.error FirstResult.result truthy_opt_string].
  now destruct (truthy_string message).
Qed.

(** X10: [loadSession], [findSessionsByShop], [getSetting] and
    [getAllSettings] never write: whatever they return, every instance
    holds afterwards exactly the tables and rows it held before. *)
Theorem reads_leave_storage_unchanged :
  forall (OnlineAccessInfo : Type) (J : JSON OnlineAccessInfo)
         (context : option Context) (w : World) (n : string),
    (forall id,
       instance_storage n
         (snd (shopifySessionDb.loadSession
                 (OnlineAccessInfo := OnlineAccessInfo) context id w))
       = instance_storage n w)
    /\ (forall shop,
          instance_storage n
            (snd (shopifySessionDb.findSessionsByShop
                    (OnlineAccessInfo := OnlineAccessInfo) context shop w))
          = instance_storage n w)
    /\ (forall stub tableName key,
          instance_storage n (snd (getSetting (Some stub) tableName key w))
          = instance_storage n w)
    /\ (forall stub tableName,
          instance_storage n (snd (getAllSettings (Some stub) tableName w))
          = instance_storage n w).
Proof.
  intros OnlineAccessInfo J context w n. repeat split.
  - intros id. rewrite loadSession_outcome.
    destruct (negb _); [reflexivity|].
    destruct (getShopifySessionsStub context _) as [stub|]; [|reflexivity].
    pose proof (sql_exec_read_only (stub_name stub)
                  (SelectSessionById SHOPIFY_SESSION_tableName id) w
                  (select_session_by_id_pure _ id) n) as Hread.
    destruct (sql_exec _ _ w) as [[cursor|message] w']; [|exact Hread].
    destruct (toArray cursor) as [|row rows]; [exact Hread|].
    now destruct (fst (shopifySessionDb.sessionOfRow row fresh_world)).
  - intros shop. rewrite findSessionsByShop_outcome.
    destruct (getShopifySessionsStub context shop) as [stub|]; [|reflexivity].
    pose proof (sql_exec_read_only (stub_name stub)
                  (SelectSessionsByShop SHOPIFY_SESSION_tableName shop) w
                  (select_sessions_by_shop_pure _ shop) n) as Hread.
    destruct (sql_exec _ _ w) as [[cursor|message] w']; [|exact Hread].
    now destruct (fst (mapM shopifySessionDb.sessionOfRow (toArray cursor) w')).
  - intros stub tableName key. rewrite getSetting_outcome.
    pose proof (sql_exec_read_only (stub_name stub)
                  (SelectSettingByKey tableName key) w
                  (select_setting_by_key_pure tableName key) n) as Hread.
    destruct (sql_exec _ _ w) as [[cursor|message] w']; [exact Hread|].
    now destruct (truthy_string message).
  - intros stub tableName. apply getAllSettings_storage.
Qed.

(** ** Reading back a setting *)





(** ** Loading settings from a world without outage *)

Lemma create_table_step_lookup table schema st t :
  snd (settings_step (CreateTableIfNotExists table schema) st) !! t
  = match st !! t with
    | Some existing => Some existing
    | None => if decide (table = t) then Some (empty_table schema) else None
    end.
Proof.
  simpl. destruct (st !! table) as [existing|] eqn:E; simpl.
  - destruct (st !! t) eqn:Et; [reflexivity|].
    case_decide; [congruence | reflexivity].
  - rewrite lookup_insert. case_decide as Ht.
    + subst t. now rewrite E.
    + now destruct (st !! t).
Qed.

Lemma empty_table_rows schema :
  match Some (empty_table schema) with
  | Some (SessionsTable rows) => rows
  | _ => []
  end = []
  /\ match Some (empty_table schema) with
     | Some (SettingsTable rows) => rows
     | _ => []
     end = [].
Proof. now destruct schema. Qed.

Lemma createTableIfNotExists_rows stub tableName schema w n t :
  session_rows n t (snd (createTableIfNotExists (Some stub) tableName schema w))
  = session_rows n t w
  /\ setting_rows n t (snd (createTableIfNotExists (Some stub) tableName schema w))
     = setting_rows n t w.
Proof.
  rewrite createTableIfNotExists_outcome.
  assert (Hrows :
            session_rows n t
              (snd (sql_exec (stub_name stub)
                      (CreateTableIfNotExists tableName schema) w))
            = session_rows n t w
            /\ setting_rows n t
                 (snd (sql_exec (stub_name stub)
                         (CreateTableIfNotExists tableName schema) w))
               = setting_rows n t w).
  { unfold session_rows, setting_rows, table_session_rows, table_setting_rows.
    destruct (decide (n = stub_name stub)) as [->|Hn].
    - rewrite sql_exec_same_instance.
      destruct (next_fault w); [now split|].
      cbn [sql_step setting_statements]. rewrite create_table_step_lookup.
      destruct (instance_storage (stub_name stub) w !! t); [now split|].
      case_decide; [|now split]. apply empty_table_rows.
    - rewrite sql_exec_other_instance by exact Hn. now split. }
  now destruct (sql_exec _ _ w) as [[cursor|message] w'].
Qed.

Lemma getAllSettings_rows stub tableName w n t :
  session_rows n t (snd (getAllSettings (Some stub) tableName w))
  = session_rows n t w
  /\ setting_rows n t (snd (getAllSettings (Some stub) tableName w))
     = setting_rows n t w.
Proof.
  unfold session_rows, setting_rows. now rewrite getAllSettings_storage.
Qed.

Lemma loadDatabaseSettings_rows context config w n t :
  session_rows n t (snd (loadDatabaseSettings context config w))
  = session_rows n t w
  /\ setting_rows n t (snd (loadDatabaseSettings context config w))
     = setting_rows n t w.
Proof.
  destruct (binding context) as [namespace|] eqn:Hb.
  2:{ unfold loadDatabaseSettings.
      now rewrite (getDurableObjectStub_unbound _ _ Hb). }
  assert (Hbound : binding context <> None) by congruence.
  destruct (loadDatabaseSettings_flow context config w Hbound)
    as (data & w' & Hload & Hflow).
  rewrite Hload. cbn [snd].
  set (stub := StubOf (DatabaseConfig.instanceName config)) in *.
  pose proof (getAllSettings_rows stub (DatabaseConfig.tableName config) w n t)
    as H1.
  destruct (getAllSettings (Some stub) (DatabaseConfig.tableName config) w)
    as [[rows|message] w1]; cbn [snd] in H1.
  - destruct Hflow as (_ & -> & _). exact H1.
  - destruct (table_missing message).
    + pose proof (createTableIfNotExists_rows stub
                    (DatabaseConfig.tableName config) SettingsSchema w1 n t)
        as H2.
      destruct (createTableIfNotExists (Some stub)
                  (DatabaseConfig.tableName config) SettingsSchema w1)
        as [[created|retryMessage] w2]; cbn [snd] in H2.
      * pose proof (getAllSettings_rows stub
                      (DatabaseConfig.tableName config) w2 n t) as H3.
        destruct (getAllSettings (Some stub)
                    (DatabaseConfig.tableName config) w2)
          as [[rows|retryMessage] w3]; cbn [snd] in H3;
          destruct Hflow as ((_ & ->) & _);
          (split; [now rewrite (proj1 H3), (proj1 H2)
                  | now rewrite (proj2 H3), (proj2 H2)]).
      * destruct Hflow as (_ & -> & _).
        split; [now rewrite (proj1 H2) | now rewrite (proj2 H2)].
    + destruct Hflow as (_ & -> & _). exact H1.
Qed.

Lemma loadDatabaseSettings_present context config w rows :
  binding context <> None ->
  next_fault w = None ->
  instance_storage (DatabaseConfig.instanceName config) w
    !! DatabaseConfig.tableName config = Some (SettingsTable rows) ->
  fst (loadDatabaseSettings context config w)
  = Normal (loaded config
              (checkbox_checked config (order_by_updated_at_desc rows))
              (order_by_updated_at_desc rows)).
Proof.
  intros Hbound Hf Htable. unfold loadDatabaseSettings.
  rewrite (getDurableObjectStub_bound _ _ Hbound).
  unfold try_catch at 1. unfold bind at 1.
  destruct (getAllSettings_snapshot
              (StubOf (DatabaseConfig.instanceName config))
              (DatabaseConfig.tableName config) w rows Hf Htable)
    as (w' & -> & _).
  reflexivity.
Qed.

Lemma loadDatabaseSettings_absent context config w :
  binding context <> None ->
  faults w = [] ->
  instance_storage (DatabaseConfig.instanceName config) w
    !! DatabaseConfig.tableName config = None ->
  exists w',
    loadDatabaseSettings context config w
    = (Normal (loaded config false []), w')
    /\ instance_storage (DatabaseConfig.instanceName config) w'
         !! DatabaseConfig.tableName config = Some (SettingsTable []).
Proof.
  intros Hbound Hfaults Habsent.
  assert (Hf : next_fault w = None) by (unfold next_fault; now rewrite Hfaults).
  eexists. split.
  - unfold loadDatabaseSettings.
    rewrite (getDurableObjectStub_bound _ _ Hbound).
    unfold try_catch at 1. unfold bind at 1.
    rewrite getAllSettings_outcome. cbn [stub_name].
    rewrite (sql_exec_through _ _ _ Hf).
    cbn [sql_step setting_statements settings_step]. rewrite Habsent.
    cbn [fst snd].
    change (truthy_string (no_such_table (DatabaseConfig.tableName config)))
      with true.
    cbv iota.
    change (table_missing (no_such_table (DatabaseConfig.tableName config)))
      with true.
    cbv iota.
    unfold try_catch at 1. unfold bind at 1.
    rewrite createTableIfNotExists_outcome. cbn [stub_name].
    rewrite sql_exec_through
      by (unfold next_fault; cbn [faults]; now rewrite Hfaults).
    cbn [sql_step setting_statements settings_step].
    rewrite instance_storage_insert, decide_True by reflexivity.
    rewrite Habsent. cbn [fst snd empty_table].
    unfold bind at 1.
    rewrite getAllSettings_outcome. cbn [stub_name].
    rewrite sql_exec_through
      by (unfold next_fault; cbn [faults]; now rewrite Hfaults).
    cbn [sql_step setting_statements settings_step].
    rewrite instance_storage_insert, decide_True by reflexivity.
    rewrite lookup_insert_eq.
    cbn [fst snd toArray order_by_updated_at_desc fold_right ret].
    reflexivity.
  - rewrite instance_storage_insert, decide_True by reflexivity.
    now rewrite lookup_insert_eq.
Qed.

(** X12: [loadDatabaseSettings] never changes the rows of any table of any
    instance.  With the binding present and no outage scheduled it reports
    the database available with the rows its settings table holds, newest
    first, and [isChecked] as the stored checkbox row says; when the table
    is absent it creates it empty and reports no rows. *)
Theorem loadDatabaseSettings_reflects_storage :
  forall (context : option Context) (config : DatabaseConfig.t) (w : World),
    (forall n t,
       session_rows n t (snd (loadDatabaseSettings context config w))
       = session_rows n t w
       /\ setting_rows n t (snd (loadDatabaseSettings context config w))
          = setting_rows n t w)
    /\ (forall rows,
          binding context <> None ->
          next_fault w = None ->
          instance_storage (DatabaseConfig.instanceName config) w
            !! DatabaseConfig.tableName config = Some (SettingsTable rows) ->
          fst (loadDatabaseSettings context config w)
          = Normal (loaded config
                      (checkbox_checked config (order_by_updated_at_desc rows))
                      (order_by_updated_at_desc rows)))
    /\ (binding context <> None ->
        faults w = [] ->
        instance_storage (DatabaseConfig.instanceName config) w
          !! DatabaseConfig.tableName config = None ->
        fst (loadDatabaseSettings context config w)
        = Normal (loaded config false [])
        /\ instance_storage (DatabaseConfig.instanceName config)
             (snd (loadDatabaseSettings context config w))
             !! DatabaseConfig.tableName config = Some (SettingsTable [])).
Proof.
  intros context config w. split; [|split].
  - intros n t. apply loadDatabaseSettings_rows.
  - intros rows Hbound Hf Htable. now apply loadDatabaseSettings_present.
  - intros Hbound Hfaults Habsent.
    destruct (loadDatabaseSettings_absent context config w
                Hbound Hfaults Habsent) as (w' & -> & Htable).
    now split.
Qed.

Lemma loadDatabaseSettings_reflects_storage_witness :
  let config :=
    DatabaseConfig.mk "DB2" "Secondary Database" "database-2" "settings"
      "test_checkbox_db2" in
  let rows :=
    [Setting.mk "theme" "dark" 10; Setting.mk "test_checkbox_db2" "true" 30;
     Setting.mk "language" "en" 20] in
  let w :=
    mkWorld {[ "database-2" := {[ "settings" := SettingsTable rows ]} ]}
      [] 0 [] in
  fst (loadDatabaseSettings bound_context config w)
  = Normal (loaded config true
              [Setting.mk "test_checkbox_db2" "true" 30;
               Setting.mk "language" "en" 20; Setting.mk "theme" "dark" 10])
  /\ fst (loadDatabaseSettings bound_context config fresh_world)
     = Normal (loaded config false []).
Proof.
  intros config rows w.
  assert (Hbound : binding bound_context <> None) by discriminate.
  split.
  - exact (proj1 (proj2 (loadDatabaseSettings_reflects_storage bound_context
                           config w)) rows Hbound eq_refl eq_refl).
  - exact (proj1 (proj2 (proj2 (loadDatabaseSettings_reflects_storage
                                  bound_context config fresh_world))
                    Hbound eq_refl eq_refl)).
Defined.

(** ** Updating, then loading *)

Lemma find_head_filter {A} (p : A -> bool) (l : list A) :
  List.find p l = head (List.filter p l).
Proof.
  induction l as [|x l IH]; [reflexivity|].
  simpl. now destruct (p x).
Qed.

Lemma updateDatabaseSetting_success context dbKey isChecked w result w1 :
  updateDatabaseSetting context dbKey isChecked w = (Normal result, w1) ->
  UpdateResult.success result = true ->
  exists config wm rows,
    find_config dbKey = Some config
    /\ binding context <> None
    /\ updateSetting (Some (StubOf (DatabaseConfig.instanceName config)))
         (DatabaseConfig.tableName config) (DatabaseConfig.settingKey config)
         (if isChecked then "true" else "false") w
       = (Normal true, wm)
    /\ getAllSettings (Some (StubOf (DatabaseConfig.instanceName config)))
         (DatabaseConfig.tableName config) wm
       = (Normal rows, w1).
Proof.
  unfold updateDatabaseSetting.
  destruct (find_config dbKey) as [config|]; [|now intros [= <- <-]].
  destruct (binding context) as [namespace|] eqn:Hb.
  2:{ rewrite (getDurableObjectStub_unbound _ _ Hb). now intros [= <- <-]. }
  assert (Hbound : binding context <> None) by congruence.
  rewrite (getDurableObjectStub_bound _ _ Hbound).
  unfold try_catch, bind.
  destruct (updateSetting _ _ _ _ w) as [[[|]|message] wm] eqn:Hupd.
  - destruct (getAllSettings _ _ wm) as [[rows|message] w2] eqn:Hall.
    + intros [= <- <-] _. exists config, wm, rows.
      split; [reflexivity|]. split; [discriminate|].
      split; [exact Hupd | exact Hall].
    + now intros [= <- <-].
  - exfalso. rewrite updateSetting_outcome in Hupd.
    now destruct (sql_exec _ _ w) as [[?|?] ?].
  - now intros [= <- <-].
Qed.

(** X13: after a successful [updateDatabaseSetting], a
    [loadDatabaseSettings] of the same database whose read is not faulted
    reports it available, with [isChecked] equal to the value just written
    and the checkbox row stamped with the clock reading of the update. *)
Theorem updateDatabaseSetting_then_load :
  forall (context : option Context) (dbKey : string)
         (config : DatabaseConfig.t) (isChecked : bool)
         (w w1 : World) (result : UpdateResult.t),
    find_config dbKey = Some config ->
    updateDatabaseSetting context dbKey isChecked w = (Normal result, w1) ->
    UpdateResult.success result = true ->
    next_fault w1 = None ->
    exists data,
      fst (loadDatabaseSettings context config w1) = Normal data
      /\ DatabaseSettings.isChecked data = isChecked
      /\ DatabaseSettings.dbAvailable data = true
      /\ DatabaseSettings.error data = None
      /\ List.filter (has_key (DatabaseConfig.settingKey config))
           (DatabaseSettings.allSettings data)
         = [Setting.mk (DatabaseConfig.settingKey config)
              (if isChecked then "true" else "false") (clock w)].
Proof.
  intros context dbKey config isChecked w w1 result Hconfig Hupdate Hok Hf.
  destruct (updateDatabaseSetting_success _ _ _ _ _ _ Hupdate Hok)
    as (config' & wm & rows & Hconfig' & Hbound & Hupd & Hall).
  rewrite Hconfig in Hconfig'. injection Hconfig' as <-.
  destruct (updateSetting_written _ _ _ _ _ _ Hupd) as (rows0 & _ & Htable).
  cbn [stub_name] in Htable.
  pose proof (getAllSettings_storage
                (StubOf (DatabaseConfig.instanceName config))
                (DatabaseConfig.tableName config) wm
                (DatabaseConfig.instanceName config)) as Hsame.
  rewrite Hall in Hsame. cbn [snd] in Hsame. rewrite <- Hsame in Htable.
  rewrite (loadDatabaseSettings_present _ _ _ _ Hbound Hf Htable).
  eexists. split; [reflexivity|].
  assert (Hone :
            List.filter (has_key (DatabaseConfig.settingKey config))
              (order_by_updated_at_desc
                 (List.filter
                    (fun r => negb (has_key (DatabaseConfig.settingKey config) r))
                    rows0
                  ++ [Setting.mk (DatabaseConfig.settingKey config)
                        (if isChecked then "true" else "false") (clock w)])%list)
            = [Setting.mk (DatabaseConfig.settingKey config)
                 (if isChecked then "true" else "false") (clock w)]).
  { apply snapshot_one_row, filter_replaced.
    unfold has_key. apply String.eqb_refl. }
  cbn [loaded DatabaseSettings.isChecked DatabaseSettings.dbAvailable
       DatabaseSettings.error DatabaseSettings.allSettings].
  repeat split; [|exact Hone].
  unfold checkbox_checked. rewrite find_head_filter, Hone. cbn [head Setting.value].
  now destruct isChecked.
Qed.

Lemma updateDatabaseSetting_then_load_witness :
  let config :=
    DatabaseConfig.mk "DB3" "Tertiary Database" "database-3" "settings"
      "test_checkbox_db3" in
  let w0 := snd (loadDatabaseSettings bound_context config fresh_world) in
  let w1 := snd (updateDatabaseSetting bound_context "DB3" true (at_time 77 w0)) in
  exists data,
    fst (loadDatabaseSettings bound_context config w1) = Normal data
    /\ DatabaseSettings.isChecked data = true
    /\ DatabaseSettings.dbAvailable data = true
    /\ DatabaseSettings.error data = None
    /\ List.filter (has_key "test_checkbox_db3")
         (DatabaseSettings.allSettings data)
       = [Setting.mk "test_checkbox_db3" "true" 77].
Proof.
  intros config w0 w1.
  apply (updateDatabaseSetting_then_load bound_context "DB3" config true
           (at_time 77 w0) w1
           (UpdateResult.mk true None (Some "DB3") (Some true)
              (Some [Setting.mk "test_checkbox_db3" "true" 77]))).
  - reflexivity.
  - vm_compute. reflexivity.
  - reflexivity.
  - vm_compute. reflexivity.
Defined.

(** ** Clearing a database, and the footprint of the writes *)

Lemma sql_exec_other_table {Q R} `{SqlStatement Q R} name (q : Q) table w n t :
  (forall st t', t' <> table -> snd (sql_step q st) !! t' = st !! t') ->
  (n, t) <> (name, table) ->
  instance_storage n (snd (sql_exec name q w)) !! t = instance_storage n w !! t.
Proof.
  intros Hstep Hnt. destruct (decide (n = name)) as [->|Hn].
  - rewrite sql_exec_same_instance. destruct (next_fault w); [reflexivity|].
    apply Hstep. congruence.
  - now rewrite sql_exec_other_instance.
Qed.

Lemma upsert_setting_step_other table key value stamp st t :
  t <> table ->
  snd (settings_step (InsertOrReplaceSetting table key value stamp) st) !! t
  = st !! t.
Proof.
  intros Ht. simpl. destruct (st !! table) as [[rows|rows]|]; simpl;
    try reflexivity.
  now rewrite lookup_insert_ne.
Qed.

Lemma delete_all_step_other table st t :
  t <> table ->
  snd (settings_step (DeleteAllRows table) st) !! t = st !! t.
Proof.
  intros Ht. simpl. destruct (st !! table) as [[rows|rows]|]; simpl;
    try reflexivity; now rewrite lookup_insert_ne.
Qed.

Lemma updateSetting_elsewhere stub tableName key value w n t :
  (n, t) <> (stub_name stub, tableName) ->
  instance_storage n (snd (updateSetting (Some stub) tableName key value w)) !! t
  = instance_storage n w !! t.
Proof.
  intros Hnt. rewrite updateSetting_outcome.
  pose proof (sql_exec_other_table (stub_name stub)
                (InsertOrReplaceSetting tableName key value (clock w))
                tableName w n t
                (fun st t' => upsert_setting_step_other tableName key value
                                (clock w) st t')
                Hnt) as Hother.
  now destruct (sql_exec _ _ w) as [[cursor|message] w'].
Qed.

Lemma clearDatabaseSettings_outcome context dbKey config w :
  binding context <> None ->
  find_config dbKey = Some config ->
  clearDatabaseSettings context dbKey w =
  match sql_exec (DatabaseConfig.instanceName config)
          (DeleteAllRows (DatabaseConfig.tableName config)) w with
  | (Throw message, w') =>
      if truthy_string message
      then (Normal (ClearResult.mk false (Some message) None None), w')
      else
        (Normal (ClearResult.mk true None (Some dbKey)
                   (Some ("All settings cleared from "
                          +:+ DatabaseConfig.name config))), w')
  | (Normal _, w') =>
      (Normal (ClearResult.mk true None (Some dbKey)
                 (Some ("All settings cleared from "
                        +:+ DatabaseConfig.name config))), w')
  end.
Proof.
  intros Hbound Hconfig. unfold clearDatabaseSettings. rewrite Hconfig.
  rewrite (getDurableObjectStub_bound _ _ Hbound). cbn [stub_name].
  unfold try_catch, bind. rewrite run_outcome.
  destruct (sql_exec _ _ w) as [[cursor|message] w']; [reflexivity|].
  cbn [RunResult.error truthy_opt_string].
  now destruct (truthy_string message).
Qed.



(** X15: [updateDatabaseSetting] and [clearDatabaseSettings] write to the
    settings table of the database they are given and to nothing else:
    every other table, in every instance, is left as it was, and with an
    unknown database key no table is touched at all. *)
Theorem settings_writes_confined :
  forall (context : option Context) (dbKey : string) (isChecked : bool)
         (w : World) (n t : string),
    (forall config,
       find_config dbKey = Some config ->
       (n, t) <> (DatabaseConfig.instanceName config,
                  DatabaseConfig.tableName config)) ->
    instance_storage n
      (snd (updateDatabaseSetting context dbKey isChecked w)) !! t
    = instance_storage n w !! t
    /\ instance_storage n (snd (clearDatabaseSettings context dbKey w)) !! t
       = instance_storage n w !! t.
Proof.
  intros context dbKey isChecked w n t Hnt. split.
  - unfold updateDatabaseSetting.
    destruct (find_config dbKey) as [config|]; [|reflexivity].
    specialize (Hnt config eq_refl).
    destruct (getDurableObjectStub context (DatabaseConfig.instanceName config))
      as [stub|] eqn:Hstub; [|reflexivity].
    assert (stub = StubOf (DatabaseConfig.instanceName config)) as ->.
    { unfold getDurableObjectStub in Hstub.
      destruct (binding context); [now injection Hstub | discriminate]. }
    unfold try_catch, bind.
    pose proof (updateSetting_elsewhere
                  (StubOf (DatabaseConfig.instanceName config))
                  (DatabaseConfig.tableName config)
                  (DatabaseConfig.settingKey config)
                  (if isChecked then "true" else "false") w n t Hnt) as Hupd.
    destruct (updateSetting _ _ _ _ w) as [[ok|message] wm]; [|exact Hupd].
    pose proof (getAllSettings_storage
                  (StubOf (DatabaseConfig.instanceName config))
                  (DatabaseConfig.tableName config) wm n) as Hall.
    cbn [snd] in Hupd.
    destruct (getAllSettings _ _ wm) as [[rows|message] w1];
      cbv beta iota; cbn [snd ret] in *; now rewrite Hall.
  - destruct (find_config dbKey) as [config|] eqn:Hconfig.
    2:{ unfold clearDatabaseSettings. now rewrite Hconfig. }
    specialize (Hnt config eq_refl).
    destruct (binding context) as [namespace|] eqn:Hb.
    2:{ unfold clearDatabaseSettings. rewrite Hconfig.
        now rewrite (getDurableObjectStub_unbound _ _ Hb). }
    rewrite (clearDatabaseSettings_outcome context dbKey config w)
      by (congruence || assumption).
    pose proof (sql_exec_other_table (DatabaseConfig.instanceName config)
                  (DeleteAllRows (DatabaseConfig.tableName config))
                  (DatabaseConfig.tableName config) w n t
                  (fun st t' => delete_all_step_other
                                  (DatabaseConfig.tableName config) st t')
                  Hnt) as Hother.
    destruct (sql_exec _ _ w) as [[cursor|message] w']; [exact Hother|].
    now destruct (truthy_string message).
Qed.

Lemma settings_writes_confined_witness :
  let w :=
    mkWorld
      {[ "database-2" :=
           {[ "settings" :=
                SettingsTable [Setting.mk "test_checkbox_db2" "true" 30] ]} ]}
      [] 0 [] in
  instance_storage "database-2"
    (snd (updateDatabaseSetting bound_context "DB1" true w)) !! "settings"
  = Some (SettingsTable [Setting.mk "test_checkbox_db2" "true" 30])
  /\ instance_storage "database-2"
       (snd (clearDatabaseSettings bound_context "DB3" w)) !! "settings"
     = Some (SettingsTable [Setting.mk "test_checkbox_db2" "true" 30]).
Proof.
  intros w. split.
  - rewrite (proj1 (settings_writes_confined bound_context "DB1" true w
                      "database-2" "settings"
                      ltac:(intros config [= <-]; discriminate))).
    reflexivity.
  - rewrite (proj2 (settings_writes_confined bound_context "DB3" true w
                      "database-2" "settings"
                      ltac:(intros config [= <-]; discriminate))).
    reflexivity.
Defined.

(** ** Availability of the configured databases *)

(** X16: the three databases live in one namespace, so they are available
    together or not at all: [isDurableObjectAvailable] is true exactly
    when the binding is present, [isSpecificDurableObjectAvailable] is true
    exactly when moreover the key is one of [DB1], [DB2], [DB3], and
    [getDatabaseConfig] returns for such a key the one configuration that
    carries it. *)
Theorem availability_all_or_nothing :
  forall (context : option Context) (dbKey : string),
    (isDurableObjectAvailable context = true <-> binding context <> None)
    /\ isSpecificDurableObjectAvailable context dbKey
       = isDurableObjectAvailable context
         && bool_decide (dbKey = "DB1" \/ dbKey = "DB2" \/ dbKey = "DB3")
    /\ (forall config,
          getDatabaseConfig dbKey = Some config <->
          In config DATABASE_CONFIG /\ DatabaseConfig.key config = dbKey)
    /\ (getDatabaseConfig dbKey = None <->
        ~ (dbKey = "DB1" \/ dbKey = "DB2" \/ dbKey = "DB3")).
Proof.
  intros context dbKey.
  assert (Havailable :
            isDurableObjectAvailable context
            = match binding context with Some _ => true | None => false end).
  { unfold isDurableObjectAvailable, getDurableObjectStub.
    now destruct (binding context). }
  assert (Hkeys :
            forall config,
              In config DATABASE_CONFIG ->
              DatabaseConfig.key config = "DB1"
              \/ DatabaseConfig.key config = "DB2"
              \/ DatabaseConfig.key config = "DB3").
  { intros config [<- | [<- | [<- | [] ] ] ]; cbn; tauto. }
  split; [|split; [|split]].
  - rewrite Havailable. destruct (binding context); split; congruence.
  - rewrite Havailable.
    unfold isSpecificDurableObjectAvailable, find_config, getDurableObjectStub.
    destruct (binding context) as [namespace|].
    + cbn [DATABASE_CONFIG List.find DatabaseConfig.key].
      destruct (String.eqb_spec "DB1" dbKey) as [<-|H1]; [reflexivity|].
      destruct (String.eqb_spec "DB2" dbKey) as [<-|H2]; [reflexivity|].
      destruct (String.eqb_spec "DB3" dbKey) as [<-|H3]; [reflexivity|].
      symmetry. apply bool_decide_eq_false. intros [-> | [-> | ->] ]; congruence.
    + now destruct (List.find _ DATABASE_CONFIG).
  - intros config. unfold getDatabaseConfig. split.
    + intros Hfind. pose proof (find_some _ _ Hfind) as [Hin Hkey].
      split; [exact Hin | now apply String.eqb_eq].
    + intros [Hin Hkey]. subst dbKey.
      destruct Hin as [<- | [<- | [<- | [] ] ] ]; reflexivity.
  - unfold getDatabaseConfig.
    cbn [DATABASE_CONFIG List.find DatabaseConfig.key].
    destruct (String.eqb_spec "DB1" dbKey) as [<-|H1];
      [split; [discriminate | tauto]|].
    destruct (String.eqb_spec "DB2" dbKey) as [<-|H2];
      [split; [discriminate | tauto]|].
    destruct (String.eqb_spec "DB3" dbKey) as [<-|H3];
      [split; [discriminate | tauto]|].
    split; [|reflexivity]. intros _ [-> | [-> | ->] ]; congruence.
Qed.

(** ** Bulk update *)

(** What [bulkUpdateSettings] pushes for one update. *)
Lemma bulkUpdateSettings_loop_step context results update rest w :
  bulkUpdateSettings_loop context results (update :: rest) w =
  match bulkUpdateSettings_loop context [] [update] w with
  | (Normal pushed, w') =>
      bulkUpdateSettings_loop context (results ++ pushed)%list rest w'
  | (Throw message, w') => (Throw message, w')
  end.
Proof.
  cbn [bulkUpdateSettings_loop].
  destruct (find_config (BulkUpdate.dbKey update)) as [config|];
    [|reflexivity].
  destruct (getDurableObjectStub context (DatabaseConfig.instanceName config))
    as [stub|]; [|reflexivity].
  unfold try_catch, bind, ret.
  now destruct (updateSetting (Some stub) _ _ _ w) as [[ok|message] w'].
Qed.

Lemma bulkUpdateSettings_single context update w :
  exists pushed w',
    bulkUpdateSettings_loop context [] [update] w = (Normal [pushed], w')
    /\ BulkResult.dbKey pushed = BulkUpdate.dbKey update.
Proof.
  cbn [bulkUpdateSettings_loop].
  destruct (find_config (BulkUpdate.dbKey update)) as [config|];
    [|now eexists _, _].
  destruct (getDurableObjectStub context (DatabaseConfig.instanceName config))
    as [stub|]; [|now eexists _, _].
  unfold try_catch, bind, ret.
  destruct (updateSetting (Some stub) _ _ _ w) as [[ok|message] w'];
    now eexists _, _.
Qed.

Lemma bulkUpdateSettings_loop_spec context updates :
  forall results w,
  exists pushed w',
    bulkUpdateSettings_loop context results updates w
    = (Normal (results ++ pushed)%list, w')
    /\ bulkUpdateSettings_loop context [] updates w = (Normal pushed, w')
    /\ map BulkResult.dbKey pushed = map BulkUpdate.dbKey updates.
Proof.
  induction updates as [|update rest IH]; intros results w.
  - exists [], w. rewrite app_nil_r. now repeat split.
  - destruct (bulkUpdateSettings_single context update w)
      as (one & w1 & Hone & Hkey).
    rewrite (bulkUpdateSettings_loop_step context results update rest).
    rewrite (bulkUpdateSettings_loop_step context [] update rest).
    rewrite Hone.
    destruct (IH (results ++ [one])%list w1) as (more & w2 & Hacc & Hmore & Hkeys).
    destruct (IH ([] ++ [one])%list w1) as (more' & w2' & Hacc' & Hmore' & _).
    rewrite Hmore in Hmore'. injection Hmore' as <- <-.
    exists (one :: more), w2. split; [|split].
    + rewrite Hacc. now rewrite <- app_assoc.
    + exact Hacc'.
    + cbn [map]. now rewrite Hkey, Hkeys.
Qed.

(** X17: [bulkUpdateSettings] never raises and answers every update: the
    results are as many as the updates, in the same order and with the
    same database keys, a failed or invalid update never stopping the ones
    after it: running a list of updates is running its first part and then
    the rest.  An update with an unknown key, or without the binding,
    fails without any statement being issued. *)
Theorem bulkUpdateSettings_answers_every_update :
  forall (context : option Context),
    (forall updates w,
       exists results w',
         bulkUpdateSettings context updates w = (Normal results, w')
         /\ map BulkResult.dbKey results = map BulkUpdate.dbKey updates)
    /\ (forall updates1 updates2 w results1 w1 results2 w2,
          bulkUpdateSettings context updates1 w = (Normal results1, w1) ->
          bulkUpdateSettings context updates2 w1 = (Normal results2, w2) ->
          bulkUpdateSettings context (updates1 ++ updates2) w
          = (Normal (results1 ++ results2)%list, w2))
    /\ (forall update w,
          find_config (BulkUpdate.dbKey update) = None ->
          bulkUpdateSettings context [update] w
          = (Normal [BulkResult.mk (BulkUpdate.dbKey update) false
                       (Some "Invalid database key")], w))
    /\ (forall update w,
          find_config (BulkUpdate.dbKey update) <> None ->
          binding context = None ->
          bulkUpdateSettings context [update] w
          = (Normal [BulkResult.mk (BulkUpdate.dbKey update) false
                       (Some "Durable Object not available")], w)).
Proof.
  intros context. split; [|split; [|split]].
  - intros updates w.
    destruct (bulkUpdateSettings_loop_spec context updates [] w)
      as (pushed & w' & Hacc & _ & Hkeys).
    exists pushed, w'. split; [exact Hacc | exact Hkeys].
  - unfold bulkUpdateSettings. intros updates1.
    induction updates1 as [|update rest IH];
      intros updates2 w results1 w1 results2 w2 Hfirst Hsecond.
    + injection Hfirst as <- <-. exact Hsecond.
    + rewrite bulkUpdateSettings_loop_step in Hfirst.
      cbn [app]. rewrite bulkUpdateSettings_loop_step.
      destruct (bulkUpdateSettings_single context update w)
        as (one & wa & Hone & _).
      rewrite Hone in *.
      destruct (bulkUpdateSettings_loop_spec context rest ([] ++ [one])%list wa)
        as (more & wb & Hacc & Hmore & _).
      rewrite Hacc in Hfirst. injection Hfirst as <- <-.
      destruct (bulkUpdateSettings_loop_spec context (rest ++ updates2)
                  ([] ++ [one])%list wa) as (all & wc & Hacc' & Hall & _).
      rewrite Hacc'.
      rewrite (IH updates2 wa more wb results2 w2 Hmore Hsecond) in Hall.
      now injection Hall as <- <-.
  - intros update w Hconfig. unfold bulkUpdateSettings.
    cbn [bulkUpdateSettings_loop]. now rewrite Hconfig.
  - intros update w Hconfig Hb. unfold bulkUpdateSettings.
    cbn [bulkUpdateSettings_loop].
    destruct (find_config (BulkUpdate.dbKey update)) as [config|];
      [|congruence].
    now rewrite (getDurableObjectStub_unbound _ _ Hb).
Qed.

Lemma bulkUpdateSettings_answers_every_update_witness :
  let w0 :=
    snd (loadDatabaseSettings bound_context
           (DatabaseConfig.mk "DB2" "Secondary Database" "database-2"
              "settings" "test_checkbox_db2")
           fresh_world) in
  let updates :=
    [BulkUpdate.mk "DB1" "theme" "dark"; BulkUpdate.mk "DB9" "theme" "dark";
     BulkUpdate.mk "DB2" "theme" "light"] in
  fst (bulkUpdateSettings bound_context updates w0)
  = Normal [BulkResult.mk "DB1" false (Some "no such table: settings");
            BulkResult.mk "DB9" false (Some "Invalid database key");
            BulkResult.mk "DB2" true None]
  /\ setting_rows "database-2" "settings"
       (snd (bulkUpdateSettings bound_context updates w0))
     = [Setting.mk "theme" "light" 0].
Proof.
  intros w0 updates.
  set (w1 := snd (bulkUpdateSettings bound_context
                    [BulkUpdate.mk "DB1" "theme" "dark"] w0)).
  pose proof (proj1 (proj2 (bulkUpdateSettings_answers_every_update
                              bound_context))
                [BulkUpdate.mk "DB1" "theme" "dark"]
                [BulkUpdate.mk "DB9" "theme" "dark";
                 BulkUpdate.mk "DB2" "theme" "light"]
                w0
                [BulkResult.mk "DB1" false (Some "no such table: settings")]
                w1
                [BulkResult.mk "DB9" false (Some "Invalid database key");
                 BulkResult.mk "DB2" true None]
                (snd (bulkUpdateSettings bound_context
                        [BulkUpdate.mk "DB9" "theme" "dark";
                         BulkUpdate.mk "DB2" "theme" "light"] w1))
                eq_refl eq_refl) as Hall.
  change ([BulkUpdate.mk "DB1" "theme" "dark"]
          ++ [BulkUpdate.mk "DB9" "theme" "dark";
              BulkUpdate.mk "DB2" "theme" "light"])%list
    with updates in Hall.
  rewrite Hall. split; reflexivity.
Defined.

(** ** Searching the settings *)

Lemma lower_code_unit_idempotent c :
  lower_code_unit (lower_code_unit c) = lower_code_unit c.
Proof.
  destruct c as [[] [] [] [] [] [] [] []]; reflexivity.
Qed.

Lemma toLowerCase_idempotent s : toLowerCase (toLowerCase s) = toLowerCase s.
Proof.
  induction s as [|c s IH]; [reflexivity|].
  simpl. now rewrite lower_code_unit_idempotent, IH.
Qed.

Lemma setting_matches_lowered term1 term2 setting :
  toLowerCase term1 = toLowerCase term2 ->
  setting_matches term1 setting = setting_matches term2 setting.
Proof. unfold setting_matches. now intros ->. Qed.

Lemma filter_matches_lowered term1 term2 rows :
  toLowerCase term1 = toLowerCase term2 ->
  List.filter (setting_matches term1) rows
  = List.filter (setting_matches term2) rows.
Proof.
  intros Hterm. induction rows as [|r rows IH]; [reflexivity|].
  simpl. now rewrite (setting_matches_lowered _ _ r Hterm), IH.
Qed.

(** X18: [searchSettings] is insensitive to the case of the search term:
    two terms with the same lower-case form give the same results and
    leave the same world, so a term and its lower-case form are
    interchangeable. *)
Theorem searchSettings_case_insensitive :
  forall (context : option Context) (w : World) (term1 term2 : string),
    (toLowerCase term1 = toLowerCase term2 ->
     searchSettings context term1 w = searchSettings context term2 w)
    /\ searchSettings context (toLowerCase term1) w
       = searchSettings context term1 w.
Proof.
  intros context w term1 term2.
  assert (Hloop :
            forall t1 t2, toLowerCase t1 = toLowerCase t2 ->
            forall configs results w0,
              searchSettings_loop context t1 results configs w0
              = searchSettings_loop context t2 results configs w0).
  { intros t1 t2 Hterm configs.
    induction configs as [|config rest IH]; intros results w0; [reflexivity|].
    cbn [searchSettings_loop].
    destruct (getDurableObjectStub context (DatabaseConfig.instanceName config))
      as [stub|]; [|apply IH].
    unfold try_catch, bind.
    destruct (getAllSettings (Some stub) (DatabaseConfig.tableName config) w0)
      as [[rows|message] w1]; [|apply IH].
    rewrite (filter_matches_lowered t1 t2 rows Hterm).
    destruct (0 <? length (List.filter (setting_matches t2) rows))%nat;
      apply IH. }
  split.
  - intros Hterm. now apply Hloop.
  - apply Hloop. apply toLowerCase_idempotent.
Qed.

Lemma searchSettings_case_insensitive_witness :
  let w :=
    mkWorld
      {[ "database-1" :=
           {[ "settings" := SettingsTable [Setting.mk "Theme" "Dark" 5] ]} ]}
      [] 0 [] in
  searchSettings bound_context "THEME" w = searchSettings bound_context "theme" w
  /\ fst (searchSettings bound_context "THEME" w)
     = Normal [SearchResult.mk "Primary Database" "database-1"
                 [Setting.mk "Theme" "Dark" 5]].
Proof.
  intros w. split.
  - apply (proj1 (searchSettings_case_insensitive bound_context w
                    "THEME" "theme")).
    reflexivity.
  - reflexivity.
Defined.

Lemma getAllSettings_unfaulted stub tableName w :
  next_fault w = None ->
  exists w',
    getAllSettings (Some stub) tableName w
    = (match instance_storage (stub_name stub) w !! tableName with
       | Some (SettingsTable rows) => Normal (order_by_updated_at_desc rows)
       | Some (SessionsTable _) => Throw (no_such_column "updated_at")
       | None => Throw (no_such_table tableName)
       end, w')
    /\ faults w' = tl (faults w)
    /\ forall n, instance_storage n w' = instance_storage n w.
Proof.
  intros Hf. rewrite getAllSettings_outcome, (sql_exec_through _ _ _ Hf).
  cbn [sql_step setting_statements settings_step].
  assert (Hsame :
            forall st log',
              st = instance_storage (stub_name stub) w ->
              forall n,
                instance_storage n
                  (mkWorld (<[stub_name stub := st]> (instances w))
                     (tl (faults w)) (clock w) log')
                = instance_storage n w).
  { intros st log' -> n. rewrite instance_storage_insert.
    case_decide as Hn; [now subst n | reflexivity]. }
  destruct (instance_storage (stub_name stub) w !! tableName)
    as [[rows|rows]|]; cbn [fst snd toArray];
    eexists; (split; [reflexivity|]); (split; [reflexivity|]);
    now apply Hsame.
Qed.

Lemma searchSettings_loop_grouped context term configs :
  (forall config, In config configs -> In config DATABASE_CONFIG) ->
  forall results w,
    Forall (well_grouped term) results ->
    exists results' w',
      searchSettings_loop context term results configs w = (Normal results', w')
      /\ (forall n, instance_storage n w' = instance_storage n w)
      /\ Forall (well_grouped term) results'.
Proof.
  induction configs as [|config rest IH]; intros Hconfigs results w Hgood.
  - exists results, w. now repeat split.
  - assert (Hrest : forall c, In c rest -> In c DATABASE_CONFIG)
      by (intros c Hc; apply Hconfigs; now right).
    cbn [searchSettings_loop].
    destruct (getDurableObjectStub context (DatabaseConfig.instanceName config))
      as [stub|]; [|now apply IH].
    unfold try_catch, bind.
    pose proof (getAllSettings_storage stub (DatabaseConfig.tableName config) w)
      as Hsame.
    destruct (getAllSettings (Some stub) (DatabaseConfig.tableName config) w)
      as [[rows|message] w1]; cbn [snd] in Hsame.
    + destruct (List.filter (setting_matches term) rows) as [|r matching] eqn:E.
      * cbn [length Nat.ltb Nat.leb ret].
        destruct (IH Hrest results w1 Hgood) as (results' & w' & -> & Hw & Hall).
        exists results', w'. repeat split; [|exact Hall].
        intros n. now rewrite Hw, Hsame.
      * cbn [length Nat.ltb Nat.leb ret].
        destruct (IH Hrest
                    (results
                     ++ [SearchResult.mk (DatabaseConfig.name config)
                           (DatabaseConfig.instanceName config) (r :: matching)])%list
                    w1) as (results' & w' & -> & Hw & Hall).
        { apply Forall_app. split; [exact Hgood|].
          constructor; [|constructor]. split; [discriminate|]. split.
          - rewrite <- E. apply filter_all.
          - exists config. split; [apply Hconfigs; now left | now split]. }
        exists results', w'. repeat split; [|exact Hall].
        intros n. now rewrite Hw, Hsame.
    + cbn [ret].
      destruct (IH Hrest results w1 Hgood) as (results' & w' & -> & Hw & Hall).
      exists results', w'. repeat split; [|exact Hall].
      intros n. now rewrite Hw, Hsame.
Qed.

Lemma search_group_storage term w w0 config :
  (forall n, instance_storage n w = instance_storage n w0) ->
  search_group term w config = search_group term w0 config.
Proof.
  intros Hsame. unfold search_group, setting_rows. now rewrite Hsame.
Qed.

Lemma searchSettings_loop_unfaulted context term w0 configs :
  binding context <> None ->
  forall results w,
    faults w = [] ->
    (forall n, instance_storage n w = instance_storage n w0) ->
    fst (searchSettings_loop context term results configs w)
    = Normal (results ++ flat_map (search_group term w0) configs)%list.
Proof.
  intros Hbound. induction configs as [|config rest IH];
    intros results w Hfaults Hsame.
  - cbn. now rewrite app_nil_r.
  - cbn [searchSettings_loop flat_map].
    rewrite (getDurableObjectStub_bound _ _ Hbound).
    unfold try_catch, bind.
    assert (Hf : next_fault w = None)
      by (unfold next_fault; now rewrite Hfaults).
    destruct (getAllSettings_unfaulted
                (StubOf (DatabaseConfig.instanceName config))
                (DatabaseConfig.tableName config) w Hf)
      as (w1 & -> & Hfaults1 & Hsame1).
    assert (Hfaults1' : faults w1 = []) by (now rewrite Hfaults1, Hfaults).
    assert (Hsame1' : forall n, instance_storage n w1 = instance_storage n w0)
      by (intros n; now rewrite Hsame1).
    rewrite <- (search_group_storage term w w0 config Hsame).
    unfold search_group at 1, setting_rows, table_setting_rows.
    cbn [stub_name].
    destruct (instance_storage (DatabaseConfig.instanceName config) w
                !! DatabaseConfig.tableName config) as [[rows|rows]|].
    + cbn [ret order_by_updated_at_desc fold_right List.filter app].
      now rewrite (IH results w1 Hfaults1' Hsame1').
    + destruct (List.filter (setting_matches term)
                  (order_by_updated_at_desc rows)) as [|r matching].
      * cbn [length Nat.ltb Nat.leb ret app].
        now rewrite (IH results w1 Hfaults1' Hsame1').
      * cbn [length Nat.ltb Nat.leb ret].
        rewrite (IH _ w1 Hfaults1' Hsame1'). now rewrite <- app_assoc.
    + cbn [ret order_by_updated_at_desc fold_right List.filter app].
      now rewrite (IH results w1 Hfaults1' Hsame1').
Qed.

(** X19: [searchSettings] never raises and never writes; every group it
    returns belongs to a configured database, holds at least one row, and
    holds only rows whose key or value contains the term, case ignored.
    With the binding present and no outage scheduled the result is, in
    configuration order, one group for each database that has a matching
    row, holding all its matching rows, newest first; without the binding
    it is empty. *)
Theorem searchSettings_groups :
  forall (context : option Context) (searchTerm : string) (w : World),
    (exists results w',
       searchSettings context searchTerm w = (Normal results, w')
       /\ (forall n, instance_storage n w' = instance_storage n w)
       /\ Forall (well_grouped searchTerm) results)
    /\ (binding context <> None ->
        faults w = [] ->
        fst (searchSettings context searchTerm w)
        = Normal (flat_map (search_group searchTerm w) DATABASE_CONFIG))
    /\ (binding context = None ->
        searchSettings context searchTerm w = (Normal [], w)).
Proof.
  intros context searchTerm w. split; [|split].
  - apply searchSettings_loop_grouped; [auto | constructor].
  - intros Hbound Hfaults. unfold searchSettings.
    now rewrite (searchSettings_loop_unfaulted context searchTerm w
                   DATABASE_CONFIG Hbound [] w Hfaults).
  - intros Hb. unfold searchSettings. cbn [DATABASE_CONFIG searchSettings_loop].
    now rewrite !(getDurableObjectStub_unbound _ _ Hb).
Qed.

Lemma searchSettings_groups_witness :
  let w :=
    mkWorld
      {[ "database-1" :=
           {[ "settings" :=
                SettingsTable [Setting.mk "theme" "dark" 5;
                               Setting.mk "language" "en" 9] ]};
         "database-3" :=
           {[ "settings" := SettingsTable [Setting.mk "Darkness" "7" 2] ]} ]}
      [] 0 [] in
  fst (searchSettings bound_context "DARK" w)
  = Normal [SearchResult.mk "Primary Database" "database-1"
              [Setting.mk "theme" "dark" 5];
            SearchResult.mk "Tertiary Database" "database-3"
              [Setting.mk "Darkness" "7" 2]]
  /\ searchSettings None "DARK" w = (Normal [], w).
Proof.
  intros w. split.
  - etransitivity.
    + apply (proj1 (proj2 (searchSettings_groups bound_context "DARK" w)));
        [discriminate | reflexivity].
    + vm_compute. reflexivity.
  - apply (proj2 (proj2 (searchSettings_groups None "DARK" w))). reflexivity.
Defined.

(** ** Statistics over the databases *)

Lemma mostRecent_fold rows : forall start,
  let latest :=
    fold_left
      (fun latest current =>
         if latest <? Setting.updated_at current
         then Setting.updated_at current
         else latest)
      rows start in
  start <= latest
  /\ Forall (fun row => Setting.updated_at row <= latest) rows
  /\ (latest = start
      \/ exists row, In row rows /\ Setting.updated_at row = latest).
Proof.
  induction rows as [|r rows IH]; intros start; cbn [fold_left].
  - repeat split; [lia | constructor | now left].
  - specialize (IH (if start <? Setting.updated_at r
                    then Setting.updated_at r else start)).
    cbv zeta in IH.
    set (latest := fold_left _ rows _) in *.
    destruct IH as (Hle & Hall & Hattained).
    destruct (Z.ltb_spec start (Setting.updated_at r)) as [Hlt|Hge].
    + repeat split; [lia | constructor; [lia | exact Hall] |].
      right. destruct Hattained as [->|(row & Hin & Hrow)].
      * exists r. split; [now left | reflexivity].
      * exists row. split; [now right | exact Hrow].
    + repeat split; [lia | constructor; [lia | exact Hall] |].
      destruct Hattained as [->|(row & Hin & Hrow)]; [now left|].
      right. exists row. split; [now right | exact Hrow].
Qed.

Lemma mostRecent_of_spec rows :
  0 <= mostRecent_of rows
  /\ Forall (fun row => Setting.updated_at row <= mostRecent_of rows) rows
  /\ (mostRecent_of rows = 0
      \/ exists row, In row rows /\ Setting.updated_at row = mostRecent_of rows).
Proof. apply (mostRecent_fold rows 0). Qed.

Lemma count_database_fields config rows stats :
  Statistics.totalSettings (count_database config rows stats)
  = (Statistics.totalSettings stats + length rows)%nat
  /\ Statistics.databasesAvailable (count_database config rows stats)
     = S (Statistics.databasesAvailable stats)
  /\ Statistics.settingsByDatabase (count_database config rows stats)
     = <[DatabaseConfig.key config := length rows]>
         (Statistics.settingsByDatabase stats).
Proof.
  unfold count_database. cbn [Statistics.lastUpdated].
  destruct (0 <? mostRecent_of rows); [|now repeat split].
  destruct (Statistics.lastUpdated stats) as [last|]; [|now repeat split].
  destruct (getTime last <? getTime (new_Date (mostRecent_of rows)));
    now repeat split.
Qed.

Lemma Forall_le_trans (rows : list Setting.t) a b :
  a <= b ->
  Forall (fun row => Setting.updated_at row <= a) rows ->
  Forall (fun row => Setting.updated_at row <= b) rows.
Proof.
  intros Hab Hall. eapply Forall_impl; [exact Hall|].
  intros row Hrow. cbv beta in *. lia.
Qed.

(** Counting one more database keeps [lastUpdated] the latest positive
    stamp of the rows seen. *)
Lemma count_database_latest config sorted rows seen stats :
  Permutation sorted rows ->
  latest_among seen (Statistics.lastUpdated stats) ->
  latest_among (seen ++ rows)
    (Statistics.lastUpdated (count_database config sorted stats)).
Proof.
  intros Hperm Hseen.
  destruct (mostRecent_of_spec sorted) as (Hpos & Hbound & Hattained).
  assert (Hbound' : Forall (fun row => Setting.updated_at row
                                       <= mostRecent_of sorted) rows).
  { rewrite Forall_forall in *. intros row Hin. apply Hbound.
    rewrite list_elem_of_In in *. now rewrite Hperm. }
  assert (Hattained' :
            mostRecent_of sorted = 0
            \/ exists row, In row rows
                           /\ Setting.updated_at row = mostRecent_of sorted).
  { destruct Hattained as [H0|(row & Hin & Hrow)]; [now left|].
    right. exists row. split; [|exact Hrow].
    rewrite <- list_elem_of_In in *. now rewrite <- Hperm. }
  clear Hbound Hattained.
  unfold count_database. cbn [Statistics.lastUpdated].
  unfold latest_among in *.
  destruct (Z.ltb_spec 0 (mostRecent_of sorted)) as [Hm|Hm].
  - destruct Hattained' as [H0|(row & Hin & Hrow)]; [lia|].
    destruct (Statistics.lastUpdated stats) as [last|];
      cbn [Statistics.lastUpdated getTime].
    + destruct Hseen as (Hlast & (old & Hold & Holdrow) & Hall).
      destruct (Z.ltb_spec (getTime last) (mostRecent_of sorted)) as [Hlt|Hge];
        cbn [Statistics.lastUpdated getTime].
      * split; [lia|]. split.
        -- exists row. split; [apply in_or_app; now right | exact Hrow].
        -- apply Forall_app. split; [|exact Hbound'].
           eapply Forall_le_trans; [|exact Hall]. lia.
      * split; [lia|]. split.
        -- exists old. split; [apply in_or_app; now left | exact Holdrow].
        -- apply Forall_app. split; [exact Hall|].
           eapply Forall_le_trans; [|exact Hbound']. lia.
    + split; [lia|]. split.
      * exists row. split; [apply in_or_app; now right | exact Hrow].
      * apply Forall_app. split; [|exact Hbound'].
        eapply Forall_le_trans; [|exact Hseen]. lia.
  - cbn [Statistics.lastUpdated].
    destruct (Statistics.lastUpdated stats) as [last|].
    + destruct Hseen as (Hlast & (old & Hold & Holdrow) & Hall).
      split; [lia|]. split.
      * exists old. split; [apply in_or_app; now left | exact Holdrow].
      * apply Forall_app. split; [exact Hall|].
        eapply Forall_le_trans; [|exact Hbound']. lia.
    + apply Forall_app. split; [exact Hseen|].
      eapply Forall_le_trans; [|exact Hbound']. lia.
Qed.

Lemma count_database_after_epoch config rows stats :
  after_epoch (Statistics.lastUpdated stats) ->
  after_epoch (Statistics.lastUpdated (count_database config rows stats)).
Proof.
  unfold count_database, after_epoch. cbn [Statistics.lastUpdated].
  destruct (Z.ltb_spec 0 (mostRecent_of rows)) as [Hm|Hm]; [|auto].
  destruct (Statistics.lastUpdated stats) as [last|];
    cbn [Statistics.lastUpdated getTime]; [|auto].
  destruct (getTime last <? mostRecent_of rows);
    cbn [Statistics.lastUpdated getTime]; auto.
Qed.

Lemma getDatabaseStatistics_loop_cons context stats config rest w :
  binding context <> None ->
  getDatabaseStatistics_loop context stats (config :: rest) w =
  match getAllSettings (Some (StubOf (DatabaseConfig.instanceName config)))
          (DatabaseConfig.tableName config) w with
  | (Normal rows, w') =>
      getDatabaseStatistics_loop context (count_database config rows stats)
        rest w'
  | (Throw _, w') => getDatabaseStatistics_loop context stats rest w'
  end.
Proof.
  intros Hbound. cbn [getDatabaseStatistics_loop].
  rewrite (getDurableObjectStub_bound _ _ Hbound).
  unfold try_catch, bind, ret.
  now destruct (getAllSettings _ _ w) as [[rows|message] w'].
Qed.

Lemma getDatabaseStatistics_loop_unbound context stats configs w :
  binding context = None ->
  getDatabaseStatistics_loop context stats configs w = (Normal stats, w).
Proof.
  intros Hb. induction configs as [|config rest IH]; [reflexivity|].
  cbn [getDatabaseStatistics_loop].
  now rewrite (getDurableObjectStub_unbound _ _ Hb).
Qed.

Lemma getDatabaseStatistics_loop_general context configs :
  forall stats w,
    after_epoch (Statistics.lastUpdated stats) ->
    exists stats' w',
      getDatabaseStatistics_loop context stats configs w = (Normal stats', w')
      /\ (forall n, instance_storage n w' = instance_storage n w)
      /\ after_epoch (Statistics.lastUpdated stats').
Proof.
  destruct (binding context) as [namespace|] eqn:Hb.
  2:{ intros stats w Hpos. rewrite getDatabaseStatistics_loop_unbound by exact Hb.
      now exists stats, w. }
  assert (Hbound : binding context <> None) by congruence.
  induction configs as [|config rest IH]; intros stats w Hpos.
  - now exists stats, w.
  - rewrite (getDatabaseStatistics_loop_cons _ _ _ _ _ Hbound).
    pose proof (getAllSettings_storage
                  (StubOf (DatabaseConfig.instanceName config))
                  (DatabaseConfig.tableName config) w) as Hsame.
    destruct (getAllSettings _ _ w) as [[rows|message] w1]; cbn [snd] in Hsame.
    + destruct (IH (count_database config rows stats) w1)
        as (stats' & w' & -> & Hw & Hpos').
      { now apply count_database_after_epoch. }
      exists stats', w'. repeat split; [|exact Hpos'].
      intros n. now rewrite Hw, Hsame.
    + destruct (IH stats w1 Hpos) as (stats' & w' & -> & Hw & Hpos').
      exists stats', w'. repeat split; [|exact Hpos'].
      intros n. now rewrite Hw, Hsame.
Qed.

Lemma count_database_total config rows stats :
  Statistics.totalSettings (count_database config rows stats)
  = (Statistics.totalSettings stats + length rows)%nat.
Proof. apply count_database_fields. Qed.

Lemma count_database_available config rows stats :
  Statistics.databasesAvailable (count_database config rows stats)
  = S (Statistics.databasesAvailable stats).
Proof. apply count_database_fields. Qed.

Lemma count_database_map config rows stats :
  Statistics.settingsByDatabase (count_database config rows stats)
  = <[DatabaseConfig.key config := length rows]>
      (Statistics.settingsByDatabase stats).
Proof. apply count_database_fields. Qed.

(** The counters agree with the per-database counts. *)
Lemma getDatabaseStatistics_consistent context w :
  let stats := fst (getDatabaseStatistics context w) in
  exists counted,
    stats = Normal counted
    /\ Statistics.totalSettings counted
       = (default 0%nat (Statistics.settingsByDatabase counted !! "DB1")
          + default 0%nat (Statistics.settingsByDatabase counted !! "DB2")
          + default 0%nat (Statistics.settingsByDatabase counted !! "DB3"))%nat
    /\ Statistics.databasesAvailable counted
       = size (Statistics.settingsByDatabase counted).
Proof.
  unfold getDatabaseStatistics.
  destruct (binding context) as [namespace|] eqn:Hb.
  2:{ rewrite getDatabaseStatistics_loop_unbound by exact Hb.
      eexists. split; [reflexivity|]. split; reflexivity. }
  assert (Hbound : binding context <> None) by congruence.
  unfold DATABASE_CONFIG.
  rewrite (getDatabaseStatistics_loop_cons _ _ _ _ _ Hbound).
  destruct (getAllSettings _ _ w) as [[rows1|message1] w1];
    rewrite (getDatabaseStatistics_loop_cons _ _ _ _ _ Hbound);
    destruct (getAllSettings _ _ w1) as [[rows2|message2] w2];
    rewrite (getDatabaseStatistics_loop_cons _ _ _ _ _ Hbound);
    destruct (getAllSettings _ _ w2) as [[rows3|message3] w3];
    cbn [getDatabaseStatistics_loop ret fst];
    (eexists; split; [reflexivity|]);
    rewrite ?count_database_total, ?count_database_available,
      ?count_database_map;
    cbn [Statistics.totalSettings Statistics.databasesAvailable
         Statistics.settingsByDatabase DatabaseConfig.key];
    (split;
     [ simplify_map_eq; cbn [default]; lia
     | rewrite ?map_size_insert_None by (simplify_map_eq; reflexivity);
       now rewrite map_size_empty ]).
Qed.

Lemma getDatabaseStatistics_loop_unfaulted context w0 configs :
  binding context <> None ->
  forall stats seen w,
    faults w = [] ->
    (forall n, instance_storage n w = instance_storage n w0) ->
    latest_among seen (Statistics.lastUpdated stats) ->
    exists stats',
      fst (getDatabaseStatistics_loop context stats configs w) = Normal stats'
      /\ Statistics.totalSettings stats'
         = (Statistics.totalSettings stats
            + length (flat_map
                        (fun config =>
                           setting_rows (DatabaseConfig.instanceName config)
                             (DatabaseConfig.tableName config) w0)
                        configs))%nat
      /\ latest_among
           (seen
            ++ flat_map
                 (fun config =>
                    setting_rows (DatabaseConfig.instanceName config)
                      (DatabaseConfig.tableName config) w0)
                 configs)
           (Statistics.lastUpdated stats').
Proof.
  intros Hbound. induction configs as [|config rest IH];
    intros stats seen w Hfaults Hsame Hseen.
  - exists stats. cbn. rewrite app_nil_r. repeat split; [lia | exact Hseen].
  - rewrite (getDatabaseStatistics_loop_cons _ _ _ _ _ Hbound).
    assert (Hf : next_fault w = None)
      by (unfold next_fault; now rewrite Hfaults).
    destruct (getAllSettings_unfaulted
                (StubOf (DatabaseConfig.instanceName config))
                (DatabaseConfig.tableName config) w Hf)
      as (w1 & -> & Hfaults1 & Hsame1).
    assert (Hfaults1' : faults w1 = []) by (now rewrite Hfaults1, Hfaults).
    assert (Hsame1' : forall n, instance_storage n w1 = instance_storage n w0)
      by (intros n; now rewrite Hsame1).
    cbn [flat_map]. unfold setting_rows at 1 3, table_setting_rows.
    rewrite <- Hsame. cbn [stub_name].
    destruct (instance_storage (DatabaseConfig.instanceName config) w
                !! DatabaseConfig.tableName config) as [[rows|rows]|].
    + destruct (IH stats seen w1 Hfaults1' Hsame1' Hseen)
        as (stats' & Hloop & Htotal & Hlatest).
      exists stats'. cbn [app]. now repeat split.
    + destruct (IH (count_database config (order_by_updated_at_desc rows) stats)
                  (seen ++ rows)%list w1 Hfaults1' Hsame1')
        as (stats' & Hloop & Htotal & Hlatest).
      { apply count_database_latest; [|exact Hseen].
        apply order_by_updated_at_desc_perm. }
      exists stats'. split; [exact Hloop|]. split.
      * rewrite Htotal, count_database_total, length_app.
        rewrite (Permutation_length (order_by_updated_at_desc_perm rows)). lia.
      * now rewrite app_assoc.
    + destruct (IH stats seen w1 Hfaults1' Hsame1' Hseen)
        as (stats' & Hloop & Htotal & Hlatest).
      exists stats'. cbn [app]. now repeat split.
Qed.

(** X20: [getDatabaseStatistics] never raises and never writes.  Its
    counters agree: [totalSettings] is the sum of the per-database counts
    and [databasesAvailable] the number of databases counted; a
    [lastUpdated] that is set is later than the epoch; without the binding
    everything is zero.  With the binding present and no outage scheduled,
    [totalSettings] is the number of rows in the settings tables of the
    configured databases and [lastUpdated] is the latest positive
    [updated_at] among them, unset when there is none. *)
Theorem getDatabaseStatistics_counts :
  forall (context : option Context) (w : World),
    (exists stats w',
       getDatabaseStatistics context w = (Normal stats, w')
       /\ (forall n, instance_storage n w' = instance_storage n w)
       /\ after_epoch (Statistics.lastUpdated stats)
       /\ Statistics.totalSettings stats
          = (default 0%nat (Statistics.settingsByDatabase stats !! "DB1")
             + default 0%nat (Statistics.settingsByDatabase stats !! "DB2")
             + default 0%nat (Statistics.settingsByDatabase stats !! "DB3"))%nat
       /\ Statistics.databasesAvailable stats
          = size (Statistics.settingsByDatabase stats))
    /\ (binding context = None ->
        getDatabaseStatistics context w
        = (Normal (Statistics.mk 0 0 None ∅), w))
    /\ (binding context <> None ->
        faults w = [] ->
        exists stats,
          fst (getDatabaseStatistics context w) = Normal stats
          /\ Statistics.totalSettings stats = length (all_setting_rows w)
          /\ latest_among (all_setting_rows w) (Statistics.lastUpdated stats)).
Proof.
  intros context w. split; [|split].
  - destruct (getDatabaseStatistics_loop_general context DATABASE_CONFIG
                (Statistics.mk 0 0 None ∅) w I)
      as (stats & w' & Hloop & Hsame & Hpos).
    destruct (getDatabaseStatistics_consistent context w)
      as (counted & Hcounted & Htotal & Havailable).
    unfold getDatabaseStatistics in *. rewrite Hloop in Hcounted.
    injection Hcounted as <-.
    exists stats, w'. repeat split; assumption.
  - intros Hb. unfold getDatabaseStatistics.
    now apply getDatabaseStatistics_loop_unbound.
  - intros Hbound Hfaults.
    destruct (getDatabaseStatistics_loop_unfaulted context w DATABASE_CONFIG
                Hbound (Statistics.mk 0 0 None ∅) [] w Hfaults)
      as (stats & Hloop & Htotal & Hlatest);
      [reflexivity | constructor |].
    exists stats. repeat split; assumption.
Qed.

Lemma getDatabaseStatistics_counts_witness :
  let w :=
    mkWorld
      {[ "database-1" :=
           {[ "settings" :=
                SettingsTable [Setting.mk "theme" "dark" 5;
                               Setting.mk "language" "en" 9] ]};
         "database-3" :=
           {[ "settings" := SettingsTable [Setting.mk "limit" "7" 2] ]} ]}
      [] 0 [] in
  fst (getDatabaseStatistics bound_context w)
  = Normal (Statistics.mk 3 2 (Some (new_Date 9))
              (<["DB3" := 1%nat]> (<["DB1" := 2%nat]> ∅)))
  /\ exists stats,
       fst (getDatabaseStatistics bound_context w) = Normal stats
       /\ Statistics.totalSettings stats = length (all_setting_rows w)
       /\ latest_among (all_setting_rows w) (Statistics.lastUpdated stats).
Proof.
  intros w. split; [reflexivity|].
  apply (proj2 (proj2 (getDatabaseStatistics_counts bound_context w)));
    [discriminate | reflexivity].
Defined.

(** ** Effect of one deletion *)

Lemma delete_session_step_other table id st t :
  t <> table ->
  snd (sessions_step (DeleteSessionById table id) st) !! t = st !! t.
Proof.
  intros Ht. simpl. destruct (st !! table) as [[rows|rows]|]; simpl;
    try reflexivity.
  now rewrite lookup_insert_ne.
Qed.

Lemma delete_session_step_failed table id st message :
  fst (sessions_step (DeleteSessionById table id) st) = Throw message ->
  snd (sessions_step (DeleteSessionById table id) st) = st.
Proof.
  simpl. now destruct (st !! table) as [[rows|rows]|].
Qed.

(** X21: [deleteSession] removes the rows that carry the id from the
    sessions table of the instance the id routes to, keeps the other rows
    of that table in order, and touches no other table; when it returns
    false, no instance has changed at all. *)
Theorem deleteSession_removes_only_the_id :
  forall (context : option Context) (id : string) (w : World),
    let w' := snd (shopifySessionDb.deleteSession context id w) in
    let name :=
      getShopifySessionInstanceName
        (default "" (extractShopFromSessionId id)) in
    (fst (shopifySessionDb.deleteSession context id w) = Normal true ->
     session_rows name SHOPIFY_SESSION_tableName w'
     = List.filter (fun r => negb (has_id id r))
         (session_rows name SHOPIFY_SESSION_tableName w))
    /\ (fst (shopifySessionDb.deleteSession context id w) = Normal false ->
        forall n, instance_storage n w' = instance_storage n w)
    /\ (forall n t,
          (n, t) <> (name, SHOPIFY_SESSION_tableName) ->
          instance_storage n w' !! t = instance_storage n w !! t).
Proof.
  intros context id w w' name. subst w'.
  rewrite deleteSession_cases.
  destruct (negb (truthy_opt_string (extractShopFromSessionId id))).
  { split; [discriminate|]. split; reflexivity. }
  destruct (getShopifySessionsStub context _) as [stub|] eqn:Hstub.
  2:{ split; [discriminate|]. split; reflexivity. }
  rewrite (getShopifySessionsStub_name _ _ _ Hstub). fold name.
  split; [|split].
  - destruct (next_fault w) as [message|] eqn:Hf.
    + rewrite (sql_exec_faulted _ _ _ _ Hf). discriminate.
    + rewrite (sql_exec_through _ _ _ Hf).
      cbn [sql_step session_statements sessions_step].
      unfold session_rows, table_session_rows.
      destruct (instance_storage name w !! SHOPIFY_SESSION_tableName)
        as [[rows|rows]|]; cbn [fst snd]; try discriminate.
      intros _. rewrite instance_storage_insert, decide_True by reflexivity.
      now rewrite lookup_insert_eq.
  - destruct (next_fault w) as [message|] eqn:Hf.
    + rewrite (sql_exec_faulted _ _ _ _ Hf). reflexivity.
    + rewrite (sql_exec_through _ _ _ Hf).
      destruct (fst (sql_step (DeleteSessionById SHOPIFY_SESSION_tableName id)
                       (instance_storage name w))) as [cursor|message] eqn:Hstep;
        [discriminate|].
      intros _ n. cbn [snd]. rewrite instance_storage_insert.
      case_decide as Hn; [|reflexivity]. subst n.
      cbn [sql_step session_statements] in *.
      now rewrite (delete_session_step_failed _ _ _ _ Hstep).
  - intros n t Hnt.
    pose proof (sql_exec_other_table name
                  (DeleteSessionById SHOPIFY_SESSION_tableName id)
                  SHOPIFY_SESSION_tableName w n t
                  (fun st t' => delete_session_step_other
                                  SHOPIFY_SESSION_tableName id st t')
                  Hnt) as Hother.
    now destruct (sql_exec _ _ w) as [[cursor|message] w'].
Qed.

Lemma deleteSession_removes_only_the_id_witness :
  let keep :=
    SessionRow.mk "online_my-shop.myshopify.com_7" "my-shop.myshopify.com"
      "state-2" 1 "read_products" "shpat_2" None None in
  let w :=
    mkWorld
      {[ getShopifySessionInstanceName "my-shop.myshopify.com" :=
           {[ SHOPIFY_SESSION_tableName := SessionsTable [epoch_row; keep] ]} ]}
      [] 0 [] in
  session_rows (getShopifySessionInstanceName "my-shop.myshopify.com")
    SHOPIFY_SESSION_tableName
    (snd (shopifySessionDb.deleteSession bound_context
            "offline_my-shop.myshopify.com" w))
  = [keep].
Proof.
  intros keep w.
  etransitivity.
  - apply (proj1 (deleteSession_removes_only_the_id bound_context
                    "offline_my-shop.myshopify.com" w)).
    reflexivity.
  - reflexivity.
Defined.

(** ** Shape of instance names and of extracted shops *)

Lemma in_name_class_hyphen : in_name_class "-" = true.
Proof. reflexivity. Qed.

(** X22: the sanitized part of an instance name is made of characters of
    the class only and is as long as the shop; sanitizing is idempotent,
    so a shop and its sanitized form always share one instance. *)
Theorem getShopifySessionInstanceName_shape :
  forall shop : string,
    getShopifySessionInstanceName shop
    = "shopify-sessions-" +:+ replace_outside_name_class shop
    /\ name_class_only (replace_outside_name_class shop) = true
    /\ String.length (replace_outside_name_class shop) = String.length shop
    /\ getShopifySessionInstanceName (replace_outside_name_class shop)
       = getShopifySessionInstanceName shop.
Proof.
  intros shop.
  assert (Hclass : name_class_only (replace_outside_name_class shop) = true).
  { induction shop as [|c s IH]; [reflexivity|].
    simpl. rewrite IH, andb_true_r.
    destruct (in_name_class c) eqn:Hc; [exact Hc | reflexivity]. }
  split; [reflexivity|]. split; [exact Hclass|]. split.
  - clear Hclass. induction shop as [|c s IH]; [reflexivity|].
    simpl. now rewrite IH.
  - unfold getShopifySessionInstanceName.
    now rewrite (replace_outside_name_class_id _ Hclass).
Qed.

Lemma split_on_clean_prefix prefix rest :
  includes "_" prefix = false ->
  split_on underscore (prefix +:+ String underscore rest)
  = prefix :: split_on underscore rest.
Proof.
  induction prefix as [|c prefix IH]; intros Hclean.
  - reflexivity.
  - rewrite includes_underscore_cons in Hclean.
    apply orb_false_iff in Hclean as [Hc Hprefix].
    change (String c prefix +:+ String underscore rest)
      with (String c (prefix +:+ String underscore rest)).
    cbn [split_on]. rewrite Hc, (IH Hprefix). reflexivity.
Qed.

Lemma split_on_clean s :
  includes "_" s = false -> split_on underscore s = [s].
Proof.
  induction s as [|c s IH]; intros Hclean; [reflexivity|].
  rewrite includes_underscore_cons in Hclean.
  apply orb_false_iff in Hclean as [Hc Hs].
  cbn [split_on]. now rewrite Hc, (IH Hs).
Qed.

(** X23: an extracted shop never contains [_]; an id made of a prefix, [_]
    and a shop, neither containing [_], optionally followed by [_] and a
    user suffix, yields that shop, so [offline_] and [online_] ids give
    back the shop they were built from exactly when the shop has no
    [_]. *)
Theorem extractShopFromSessionId_of_built_id :
  (forall id shop,
     extractShopFromSessionId id = Some shop -> includes "_" shop = false)
  /\ (forall prefix shop,
        includes "_" prefix = false ->
        includes "_" shop = false ->
        extractShopFromSessionId (prefix +:+ "_" +:+ shop) = Some shop
        /\ forall user,
             extractShopFromSessionId
               (prefix +:+ "_" +:+ shop +:+ "_" +:+ user) = Some shop)
  /\ (forall prefix shop,
        includes "_" prefix = false ->
        includes "_" shop = true ->
        extractShopFromSessionId (prefix +:+ "_" +:+ shop) <> Some shop).
Proof.
  assert (Hclean :
            forall id shop,
              extractShopFromSessionId id = Some shop ->
              includes "_" shop = false).
  { intros id shop. rewrite extractShopFromSessionId_cases.
    pose proof (split_on_segments_clean id) as Hsegments.
    destruct (split_on underscore id) as [|p0 [|p1 ps]]; try discriminate.
    inversion Hsegments as [|? ? _ Htl]; subst.
    inversion Htl as [|? ? Hp1 _]; subst.
    rewrite Hp1. now intros [= <-]. }
  split; [exact Hclean|]. split.
  - intros prefix shop Hprefix Hshop. split.
    + rewrite extractShopFromSessionId_cases.
      change (prefix +:+ "_" +:+ shop)
        with (prefix +:+ String underscore shop).
      rewrite (split_on_clean_prefix _ _ Hprefix), (split_on_clean _ Hshop).
      now rewrite Hshop.
    + intros user. rewrite extractShopFromSessionId_cases.
      change (prefix +:+ "_" +:+ shop +:+ "_" +:+ user)
        with (prefix +:+ String underscore (shop +:+ String underscore user)).
      rewrite (split_on_clean_prefix _ _ Hprefix).
      rewrite (split_on_clean_prefix _ _ Hshop).
      now rewrite Hshop.
  - intros prefix shop _ Hshop Hextract.
    apply Hclean in Hextract. congruence.
Qed.

Lemma extractShopFromSessionId_of_built_id_witness :
  extractShopFromSessionId ("offline" +:+ "_" +:+ "my-shop.myshopify.com")
  = Some "my-shop.myshopify.com"
  /\ extractShopFromSessionId ("offline" +:+ "_" +:+ "my_shop.myshopify.com")
     <> Some "my_shop.myshopify.com".
Proof.
  split.
  - apply (proj1 (proj2 extractShopFromSessionId_of_built_id)); reflexivity.
  - apply (proj2 (proj2 extractShopFromSessionId_of_built_id)); reflexivity.
Defined.
